(** * Mod-ai-assistant: conversation memory, chat routing, image fallback

    A shallow embedding of the TypeScript sources

    - [lib/conversation-memory] (class [ConversationMemory]),
    - the image-generation route ([POST], [generateAdvancedPlaceholder]),
    - the chat route ([isGroqModel], [POST]),
    - the audio route ([POST]),
    - [lib/ai-models] (the catalog and its lookups),
    - [lib/auth] (the password checks),
    - [app/page] (the handlers that use the store) and
      [components/conversation-sidebar],

    followed by the properties C1 to C10 of these functions and by
    further properties, numbered from X1.

    Conventions.  A JavaScript string is a Rocq [string], one character per
    UTF-16 code unit (the code units below 256 are the ones written), so
    [String.length] is [.length] and [substring] is [.slice]/[.substring]
    on non-negative indices.  The prompt of the image route, which is
    passed to [encodeURIComponent], is the list of its code units, of every
    value, surrogates included.  Integers are [Z]; the Number
    [Math.random()] returns and its product with a length are IEEE 754
    binary64 values.  A [Date] is its time value in milliseconds, [None]
    standing for an Invalid Date.  A method of the store is a function from
    the state before the call to the state after it.  What the host
    supplies at run time (the clock, [Math.random], the network,
    [Date.parse], [toLowerCase]) is an explicit argument, and a text that
    is only ever read through [JSON.parse] is represented by the outcome of
    parsing it.  The body of a request is untyped: where the control flow
    of a handler depends on it, a property that is [null] or of another
    kind than the handler expects has a value of its own. *)

From Stdlib Require Import ZArith List String Ascii Bool Lia DecimalString.
From Stdlib Require Import QArith Qround Qabs Sorted Permutation.
From Stdlib Require Floats.
Import ListNotations.
Open Scope string_scope.
Open Scope Z_scope.

(* ================================================================== *)
(** ** Host values *)

Module Js.

(** The value [JSON.parse] returns.  The fields of an object are listed
    once each. *)
#[warnings="-register-all"]
Inductive json : Type :=
| JNull
| JBool (b : bool)
| JNum (q : Q)
| JString (s : string)
| JArray (items : list json)
| JObject (fields : list (string * json)).

(** [obj.name] on the fields of an object; [None] is [undefined]. *)
Fixpoint prop (name : string) (fields : list (string * json)) : option json :=
  match fields with
  | [] => None
  | (k, v) :: rest => if String.eqb k name then Some v else prop name rest
  end.

Definition is_null (j : json) : bool :=
  match j with JNull => true | _ => false end.

(** Time value of a Date; [None] is NaN (Invalid Date). *)
Definition Date := option Z.

(** [TimeClip]: a time value beyond 8.64e15 ms is NaN, another one is
    truncated to an integer. *)
Definition timeClip (t : Q) : Date :=
  if Qle_bool (Qabs t) (inject_Z 8640000000000000)
  then Some (Z.quot (Qnum t) (Zpos (Qden t)))
  else None.

(** [`${n}`] for an integer [n] (below 1e21 in magnitude). *)
Definition decimal (n : Z) : string := NilZero.string_of_int (Z.to_int n).

(** [Array.prototype.sort(comparefn)] is stable; for a consistent
    comparator every stable sort returns the list computed here.  For an
    inconsistent one (a comparison that is [NaN], as with an Invalid Date
    among the conversations) the order is left to the implementation and
    need not be the one computed here: the properties below that depend
    on the order assume valid dates, the others only use that the result
    is a permutation. *)
Fixpoint sort_insert {A : Type} (comparefn : A -> A -> Z) (x : A) (sorted : list A)
  : list A :=
  match sorted with
  | [] => [x]
  | y :: rest =>
      if comparefn x y <=? 0 then x :: y :: rest
      else y :: sort_insert comparefn x rest
  end.

Fixpoint sort {A : Type} (comparefn : A -> A -> Z) (l : list A) : list A :=
  match l with
  | [] => []
  | x :: rest => sort_insert comparefn x (sort comparefn rest)
  end.

(** [a.getTime() - b.getTime()] as a sort comparator: a NaN result counts
    as [+0]. *)
Definition time_diff (a b : Date) : Z :=
  match a, b with
  | Some x, Some y => x - y
  | _, _ => 0
  end.

(** [arr.slice(-n)] for [n > 0]: the last [n] elements, the whole array
    when it is shorter. *)
Definition slice_last {A : Type} (n : nat) (l : list A) : list A :=
  skipn (List.length l - n)%nat l.

(** Outcome of evaluating an expression that may throw.  [Untyped] marks a
    value that the declared TypeScript interfaces exclude (a numeric
    [title], say): the run-time object then falls outside the records
    below, and the embedding does not follow it. *)
Inductive result (A : Type) : Type :=
| Ok (a : A)
| Throw
| Untyped.
Arguments Ok {A} a.
Arguments Throw {A}.
Arguments Untyped {A}.

Definition bind {A B : Type} (r : result A) (k : A -> result B) : result B :=
  match r with
  | Ok a => k a
  | Throw => Throw
  | Untyped => Untyped
  end.

Notation "x <- r ;; k" := (bind r (fun x => k))
  (at level 61, r at next level, right associativity).

Fixpoint mapM {A B : Type} (f : A -> result B) (l : list A) : result (list B) :=
  match l with
  | [] => Ok []
  | a :: rest => b <- f a ;; bs <- mapM f rest ;; Ok (b :: bs)
  end.

End Js.
Import Js.

(* ================================================================== *)
(** ** lib/conversation-memory: data *)

Inductive Role : Type := user | assistant.

Module ConversationMessage.
Record t : Type := mk
  { id : string;
    content : string;
    role : Role;
    timestamp : Date;
    model : option string;
    metadata : option json }.
End ConversationMessage.

(** [Omit<ConversationMessage, "id" | "timestamp">], the argument of
    [addMessage]. *)
Module MessageInput.
Record t : Type := mk
  { content : string;
    role : Role;
    model : option string;
    metadata : option json }.
End MessageInput.

Module Conversation.
Record t : Type := mk
  { id : string;
    title : string;
    messages : list ConversationMessage.t;
    model : string;
    createdAt : Date;
    updatedAt : Date }.
End Conversation.

(** A [Map<string, Conversation>]: entries in insertion order, which is
    the order [values()] iterates in. *)
Module Map.

Definition t : Type := list (string * Conversation.t).

Fixpoint get (key : string) (m : t) : option Conversation.t :=
  match m with
  | [] => None
  | (k, v) :: rest => if String.eqb k key then Some v else get key rest
  end.

Definition has (key : string) (m : t) : bool :=
  match get key m with Some _ => true | None => false end.

(** Replace the value stored under [key], keeping its position. *)
Fixpoint replace (key : string) (value : Conversation.t) (m : t) : t :=
  match m with
  | [] => []
  | (k, v) :: rest =>
      if String.eqb k key then (k, value) :: rest
      else (k, v) :: replace key value rest
  end.

(** [m.set(key, value)]: an existing key keeps its place, a new one goes
    last. *)
Definition set (key : string) (value : Conversation.t) (m : t) : t :=
  if has key m then replace key value m else (m ++ [(key, value)])%list.

(** [m.delete(key)]. *)
Definition delete (key : string) (m : t) : t :=
  filter (fun kv => negb (String.eqb (fst kv) key)) m.

Definition values (m : t) : list Conversation.t := map snd m.

Definition keys (m : t) : list string := map fst m.

Definition size (m : t) : nat := List.length m.

Definition clear : t := [].

End Map.

(** The state of a [ConversationMemory] instance. *)
Record ConversationMemory : Type := mkMemory
  { conversations : Map.t;
    currentConversationId : option string }.

Definition STORAGE_KEY : string := "mod_ai_conversations".
Definition MAX_CONVERSATIONS : nat := 50.
Definition MAX_MESSAGES_PER_CONVERSATION : nat := 100.

(** What one call reads from the host: [Date.now()], the text of
    [Math.random().toString(36).substr(2, 9)], and the two [new Date()]
    in program order. *)
Record Host : Type := mkHost
  { dateNow : Z;
    random36 : string;
    newDate1 : Z;
    newDate2 : Z }.

(** The store right after construction when nothing was persisted. *)
Definition emptyMemory : ConversationMemory :=
  {| conversations := Map.clear; currentConversationId := None |}.

(* ================================================================== *)
(** ** lib/conversation-memory: operations

    Each method is a function of the state before the call, and returns
    its result with the state after it.  [createConversation],
    [addMessage], [deleteConversation], [clearAllConversations] and a
    successful [importConversations] end with [saveToStorage], which
    writes to the browser's storage; no method reads the storage back
    after construction, so the call leaves the state as it is and does
    not appear in the functions below. *)

Definition compare_updatedAt_asc (a b : Conversation.t) : Z :=
  time_diff (Conversation.updatedAt a) (Conversation.updatedAt b).

Definition compare_updatedAt_desc (a b : Conversation.t) : Z :=
  time_diff (Conversation.updatedAt b) (Conversation.updatedAt a).

Definition createConversation (h : Host) (model : string) (s : ConversationMemory)
  : string * ConversationMemory :=
  let id := "conv_" ++ decimal (dateNow h) ++ "_" ++ random36 h in
  let conversation :=
    {| Conversation.id := id;
       Conversation.title := "New Conversation";
       Conversation.messages := [];
       Conversation.model := model;
       Conversation.createdAt := Some (newDate1 h);
       Conversation.updatedAt := Some (newDate2 h) |} in
  let conversations1 := Map.set id conversation (conversations s) in
  let conversations2 :=
    if (MAX_CONVERSATIONS <? Map.size conversations1)%nat then
      match sort compare_updatedAt_asc (Map.values conversations1) with
      | oldest :: _ => Map.delete (Conversation.id oldest) conversations1
      | [] => conversations1
      end
    else conversations1 in
  (id, {| conversations := conversations2; currentConversationId := Some id |}).

(** The title written by the first user message. *)
Definition titleOf (content : string) : string :=
  substring 0 50 content ++ (if (50 <? String.length content)%nat then "..." else "").

(** The body of [addMessage] on the conversation found under the id: the
    object is updated in place. *)
Definition appendMessage (h : Host) (message : MessageInput.t) (conversation : Conversation.t)
  : Conversation.t :=
  let newMessage :=
    {| ConversationMessage.id := "msg_" ++ decimal (dateNow h) ++ "_" ++ random36 h;
       ConversationMessage.content := MessageInput.content message;
       ConversationMessage.role := MessageInput.role message;
       ConversationMessage.timestamp := Some (newDate1 h);
       ConversationMessage.model := MessageInput.model message;
       ConversationMessage.metadata := MessageInput.metadata message |} in
  let messages1 := (Conversation.messages conversation ++ [newMessage])%list in
  let title1 :=
    match List.length messages1, MessageInput.role message with
    | 1%nat, user => titleOf (MessageInput.content message)
    | _, _ => Conversation.title conversation
    end in
  let messages2 :=
    if (MAX_MESSAGES_PER_CONVERSATION <? List.length messages1)%nat
    then slice_last MAX_MESSAGES_PER_CONVERSATION messages1
    else messages1 in
  {| Conversation.id := Conversation.id conversation;
     Conversation.title := title1;
     Conversation.messages := messages2;
     Conversation.model := Conversation.model conversation;
     Conversation.createdAt := Conversation.createdAt conversation;
     Conversation.updatedAt := Some (newDate2 h) |}.

Definition addMessage (h : Host) (conversationId : string) (message : MessageInput.t)
  (s : ConversationMemory) : ConversationMemory :=
  match Map.get conversationId (conversations s) with
  | None => s
  | Some conversation =>
      {| conversations :=
           Map.replace conversationId (appendMessage h message conversation)
             (conversations s);
         currentConversationId := currentConversationId s |}
  end.

Definition getConversation (id : string) (s : ConversationMemory)
  : option Conversation.t :=
  Map.get id (conversations s).

Definition getAllConversations (s : ConversationMemory) : list Conversation.t :=
  sort compare_updatedAt_desc (Map.values (conversations s)).

Definition deleteConversation (id : string) (s : ConversationMemory)
  : ConversationMemory :=
  {| conversations := Map.delete id (conversations s);
     currentConversationId :=
       match currentConversationId s with
       | Some cur => if String.eqb cur id then None else Some cur
       | None => None
       end |}.

Definition setCurrentConversation (id : string) (s : ConversationMemory)
  : ConversationMemory :=
  {| conversations := conversations s; currentConversationId := Some id |}.

Definition getCurrentConversationId (s : ConversationMemory) : option string :=
  currentConversationId s.

Definition clearAllConversations (s : ConversationMemory) : ConversationMemory :=
  {| conversations := Map.clear; currentConversationId := None |}.

(** [Math.ceil(message.content.length / 4)]. *)
Definition estimatedTokens (message : ConversationMessage.t) : Z :=
  (Z.of_nat (String.length (ConversationMessage.content message)) + 3) / 4.

(** The loop of [getContextMessages], [i] running from the last index
    down: [newest_first] holds [messages[i], messages[i-1], ..., messages[0]]. *)
Fixpoint contextLoop (maxTokens : Z) (newest_first : list ConversationMessage.t)
  (totalTokens : Z) (contextMessages : list ConversationMessage.t)
  : list ConversationMessage.t :=
  match newest_first with
  | [] => contextMessages
  | message :: older =>
      if (totalTokens + estimatedTokens message >? maxTokens)
         && (0 <? List.length contextMessages)%nat
      then contextMessages
      else contextLoop maxTokens older
             (totalTokens + estimatedTokens message) (message :: contextMessages)
  end.

Definition DEFAULT_MAX_TOKENS : Z := 4000.

(** [maxTokens] is the token budget of the call, an integer ([None]: the
    argument is omitted).  The estimates being integers, a fractional
    budget selects what the greatest integer below it selects. *)
Definition getContextMessages (conversationId : string) (maxTokens : option Z)
  (s : ConversationMemory) : list ConversationMessage.t :=
  match Map.get conversationId (conversations s) with
  | None => []
  | Some conversation =>
      let budget :=
        match maxTokens with Some b => b | None => DEFAULT_MAX_TOKENS end in
      contextLoop budget (rev (Conversation.messages conversation)) 0 []
  end.

(* ================================================================== *)
(** ** lib/conversation-memory: snapshots

    [exportConversations] writes a string with [JSON.stringify] and
    [importConversations] reads one with [JSON.parse].  A snapshot string
    is represented by what [JSON.parse] makes of it: the parsed value, or
    the fact that parsing throws.  [JSON.stringify] of a value is then the
    snapshot that parses to the value's JSON image ([toJSON] applied to
    dates, absent optional fields left out). *)

Inductive snapshot : Type :=
| Unparseable
| Parsed (data : json).

Section Snapshots.

(** [Date.parse], whose result on strings outside the ISO format is left
    to the host, and [Date.prototype.toISOString]. *)
Variable Date_parse : string -> Date.
Variable Date_toISOString : Z -> string.

(** [new Date(v)] for a property value [v] ([None]: the property is
    missing).  Arrays and objects go through their string conversion and
    are not followed. *)
Definition newDate (v : option json) : result Date :=
  match v with
  | None => Ok None
  | Some JNull => Ok (Some 0)
  | Some (JBool b) => Ok (Some (if b then 1 else 0))
  | Some (JNum q) => Ok (timeClip q)
  | Some (JString s) => Ok (Date_parse s)
  | Some (JArray _) => Untyped
  | Some (JObject _) => Untyped
  end.

(** [Date.prototype.toJSON]. *)
Definition dateToJSON (d : Date) : json :=
  match d with
  | Some t => JString (Date_toISOString t)
  | None => JNull
  end.

Definition asString (v : option json) : result string :=
  match v with
  | Some (JString s) => Ok s
  | _ => Untyped
  end.

Definition asOptionalString (v : option json) : result (option string) :=
  match v with
  | None => Ok None
  | Some (JString s) => Ok (Some s)
  | _ => Untyped
  end.

Definition asRole (v : option json) : result Role :=
  match v with
  | Some (JString s) =>
      if String.eqb s "user" then Ok user
      else if String.eqb s "assistant" then Ok assistant
      else Untyped
  | _ => Untyped
  end.

(** [{ ...msg, timestamp: new Date(msg.timestamp) }]: reading a property
    of [null] throws. *)
Definition reviveMessage (msg : json) : result ConversationMessage.t :=
  match msg with
  | JNull => Throw
  | JObject fields =>
      id <- asString (prop "id" fields) ;;
      content <- asString (prop "content" fields) ;;
      role <- asRole (prop "role" fields) ;;
      model <- asOptionalString (prop "model" fields) ;;
      timestamp <- newDate (prop "timestamp" fields) ;;
      Ok {| ConversationMessage.id := id;
            ConversationMessage.content := content;
            ConversationMessage.role := role;
            ConversationMessage.timestamp := timestamp;
            ConversationMessage.model := model;
            ConversationMessage.metadata := prop "metadata" fields |}
  | _ => Untyped
  end.

(** The object literal passed to [conversations.set] for one element of
    the parsed array.  It throws when [conv] is [null], when
    [conv.messages] has no [map] method (only arrays have one after
    [JSON.parse]), or when a message is [null]; nothing is stored for that
    element then.  Properties beyond those of the interface are copied by
    the spread and read by no method; the record keeps the interface's. *)
Definition reviveConversation (conv : json) : result Conversation.t :=
  match conv with
  | JObject fields =>
      match prop "messages" fields with
      | Some (JArray msgs) =>
          if existsb is_null msgs then Throw
          else
            id <- asString (prop "id" fields) ;;
            title <- asString (prop "title" fields) ;;
            model <- asString (prop "model" fields) ;;
            createdAt <- newDate (prop "createdAt" fields) ;;
            updatedAt <- newDate (prop "updatedAt" fields) ;;
            messages <- mapM reviveMessage msgs ;;
            Ok {| Conversation.id := id;
                  Conversation.title := title;
                  Conversation.messages := messages;
                  Conversation.model := model;
                  Conversation.createdAt := createdAt;
                  Conversation.updatedAt := updatedAt |}
      | _ => Throw
      end
  | _ => Throw
  end.

(** [data.forEach(conv => this.conversations.set(conv.id, ...))]: the map
    reached when the loop ends or throws, and how it ended. *)
Fixpoint restoreAll (data : list json) (m : Map.t) : Map.t * result unit :=
  match data with
  | [] => (m, Ok tt)
  | conv :: rest =>
      match reviveConversation conv with
      | Ok c => restoreAll rest (Map.set (Conversation.id c) c m)
      | Throw => (m, Throw)
      | Untyped => (m, Untyped)
      end
  end.

(** [importConversations(jsonData)].  The result is [None] when the
    snapshot holds a value outside the declared interfaces. *)
Definition importConversations (jsonData : snapshot) (s : ConversationMemory)
  : option (bool * ConversationMemory) :=
  match jsonData with
  | Unparseable => Some (false, s)
  | Parsed (JArray data) =>
      match restoreAll data Map.clear with
      | (m, Ok _) =>
          Some (true, {| conversations := m;
                         currentConversationId := currentConversationId s |})
      | (m, Throw) =>
          Some (false, {| conversations := m;
                          currentConversationId := currentConversationId s |})
      | (_, Untyped) => None
      end
  | Parsed _ => Some (false, s)
  end.

(** [loadFromStorage], run by the constructor on the empty store:
    [stored] is the item read from storage, [None] when there is no
    window, no item or an empty one.  A parsed value that is not an array
    has no [forEach]; the error is caught. *)
Definition loadFromStorage (stored : option snapshot) (s : ConversationMemory)
  : option ConversationMemory :=
  match stored with
  | Some (Parsed (JArray data)) =>
      match restoreAll data (conversations s) with
      | (_, Untyped) => None
      | (m, _) =>
          Some {| conversations := m;
                  currentConversationId := currentConversationId s |}
      end
  | _ => Some s
  end.

Definition roleToJSON (r : Role) : json :=
  match r with
  | user => JString "user"
  | assistant => JString "assistant"
  end.

Definition optionalField (name : string) (v : option json) : list (string * json) :=
  match v with
  | Some j => [(name, j)]
  | None => []
  end.

Definition messageToJSON (m : ConversationMessage.t) : json :=
  JObject
    ([("content", JString (ConversationMessage.content m));
      ("role", roleToJSON (ConversationMessage.role m))]
     ++ optionalField "model" (option_map JString (ConversationMessage.model m))
     ++ optionalField "metadata" (ConversationMessage.metadata m)
     ++ [("id", JString (ConversationMessage.id m));
         ("timestamp", dateToJSON (ConversationMessage.timestamp m))])%list.

Definition conversationToJSON (c : Conversation.t) : json :=
  JObject
    [("id", JString (Conversation.id c));
     ("title", JString (Conversation.title c));
     ("messages", JArray (map messageToJSON (Conversation.messages c)));
     ("model", JString (Conversation.model c));
     ("createdAt", dateToJSON (Conversation.createdAt c));
     ("updatedAt", dateToJSON (Conversation.updatedAt c))].

(** [exportConversations()]. *)
Definition exportConversations (s : ConversationMemory) : snapshot :=
  Parsed (JArray (map conversationToJSON (Map.values (conversations s)))).

(** [saveToStorage]: the item written under [STORAGE_KEY] when there is a
    window and the write does not throw.  It is the exported text without
    its indentation, and parses to the same value. *)
Definition saveToStorage (s : ConversationMemory) : snapshot :=
  Parsed (JArray (map conversationToJSON (Map.values (conversations s)))).

End Snapshots.

(* ================================================================== *)
(** ** lib/conversation-memory: sequences of calls *)

(** One call of a public method that changes the store. *)
Inductive operation : Type :=
| CreateConversation (h : Host) (model : string)
| AddMessage (h : Host) (conversationId : string) (message : MessageInput.t)
| DeleteConversation (id : string)
| SetCurrentConversation (id : string)
| ImportConversations (jsonData : snapshot)
| ClearAllConversations.

Definition isImport (op : operation) : bool :=
  match op with
  | ImportConversations _ => true
  | _ => false
  end.

Section Runs.

Variable Date_parse : string -> Date.

(** The state after one call; [None] as for [importConversations]. *)
Definition perform (op : operation) (s : ConversationMemory)
  : option ConversationMemory :=
  match op with
  | CreateConversation h model => Some (snd (createConversation h model s))
  | AddMessage h conversationId message =>
      Some (addMessage h conversationId message s)
  | DeleteConversation id => Some (deleteConversation id s)
  | SetCurrentConversation id => Some (setCurrentConversation id s)
  | ImportConversations jsonData =>
      option_map snd (importConversations Date_parse jsonData s)
  | ClearAllConversations => Some (clearAllConversations s)
  end.

(** The state after a sequence of calls, first call first. *)
Fixpoint performAll (ops : list operation) (s : ConversationMemory)
  : option ConversationMemory :=
  match ops with
  | [] => Some s
  | op :: rest =>
      match perform op s with
      | Some s' => performAll rest s'
      | None => None
      end
  end.

End Runs.

(** Successive [addMessage] calls on one conversation. *)
Fixpoint addMessages (conversationId : string) (calls : list (Host * MessageInput.t))
  (s : ConversationMemory) : ConversationMemory :=
  match calls with
  | [] => s
  | (h, message) :: rest =>
      addMessages conversationId rest (addMessage h conversationId message s)
  end.

(** The message [addMessage] stores for a call. *)
Definition storedMessage (call : Host * MessageInput.t) : ConversationMessage.t :=
  let (h, message) := call in
  {| ConversationMessage.id := "msg_" ++ decimal (dateNow h) ++ "_" ++ random36 h;
     ConversationMessage.content := MessageInput.content message;
     ConversationMessage.role := MessageInput.role message;
     ConversationMessage.timestamp := Some (newDate1 h);
     ConversationMessage.model := MessageInput.model message;
     ConversationMessage.metadata := MessageInput.metadata message |}.

(** The keys of the map are pairwise distinct and each conversation is
    stored under its own id: what [Map] and the calls of [set] ensure. *)
Definition wellKeyed (m : Map.t) : Prop :=
  NoDup (Map.keys m) /\ forall k c, In (k, c) m -> Conversation.id c = k.

(* ================================================================== *)
(** ** A host for the examples

    The properties below hold for every [Date.parse].  The examples run
    on this one: [toISOString] as the standard defines it, and
    [Date.parse] on the format [toISOString] writes
    ([YYYY-MM-DDTHH:mm:ss.sssZ], the year with four digits or a sign and
    six); every other string is answered NaN here. *)

Module Iso.

(** Days since the epoch to (year, month, day), proleptic Gregorian. *)
Definition civilFromDays (days : Z) : Z * Z * Z :=
  let z := days + 719468 in
  let era := z / 146097 in
  let doe := z - era * 146097 in
  let yoe := (doe - doe / 1460 + doe / 36524 - doe / 146096) / 365 in
  let doy := doe - (365 * yoe + yoe / 4 - yoe / 100) in
  let mp := (5 * doy + 2) / 153 in
  let d := doy - (153 * mp + 2) / 5 + 1 in
  let m := if mp <? 10 then mp + 3 else mp - 9 in
  let y := yoe + era * 400 + (if m <=? 2 then 1 else 0) in
  (y, m, d).

Definition daysFromCivil (y m d : Z) : Z :=
  let y' := if m <=? 2 then y - 1 else y in
  let era := y' / 400 in
  let yoe := y' - era * 400 in
  let doy := (153 * (if 2 <? m then m - 3 else m + 9) + 2) / 5 + d - 1 in
  let doe := yoe * 365 + yoe / 4 - yoe / 100 + doy in
  era * 146097 + doe - 719468.

Fixpoint zeros (k : nat) : string :=
  match k with
  | O => ""
  | S k' => "0" ++ zeros k'
  end.

(** [n >= 0] written with at least [width] digits. *)
Definition padded (width : nat) (n : Z) : string :=
  let digits := decimal n in
  zeros (width - String.length digits) ++ digits.

Definition toISOString (t : Z) : string :=
  let days := t / 86400000 in
  let ms := t mod 86400000 in
  let '(y, m, d) := civilFromDays days in
  let year :=
    if (0 <=? y) && (y <=? 9999) then padded 4 y
    else if y <? 0 then "-" ++ padded 6 (- y) else "+" ++ padded 6 y in
  year ++ "-" ++ padded 2 m ++ "-" ++ padded 2 d ++ "T" ++
  padded 2 (ms / 3600000) ++ ":" ++ padded 2 (ms / 60000 mod 60) ++ ":" ++
  padded 2 (ms / 1000 mod 60) ++ "." ++ padded 3 (ms mod 1000) ++ "Z".

Definition digitValue (c : ascii) : option Z :=
  let n := Z.of_nat (nat_of_ascii c) in
  if (48 <=? n) && (n <=? 57) then Some (n - 48) else None.

Fixpoint digitsValue (s : string) (acc : Z) : option Z :=
  match s with
  | EmptyString => Some acc
  | String c rest =>
      match digitValue c with
      | Some v => digitsValue rest (10 * acc + v)
      | None => None
      end
  end.

Definition number (s : string) : option Z :=
  match s with
  | EmptyString => None
  | _ => digitsValue s 0
  end.

Definition daysInMonth (y m : Z) : Z :=
  daysFromCivil (if m =? 12 then y + 1 else y) (if m =? 12 then 1 else m + 1) 1
  - daysFromCivil y m 1.

(** The part after the year, [-MM-DDTHH:mm:ss.sssZ]. *)
Definition parseFields (year : Z) (rest : string) : Date :=
  match number (substring 1 2 rest), number (substring 4 2 rest),
        number (substring 7 2 rest), number (substring 10 2 rest),
        number (substring 13 2 rest), number (substring 16 3 rest) with
  | Some mo, Some d, Some hh, Some mi, Some ss, Some ms =>
      if String.eqb (substring 0 1 rest) "-" && String.eqb (substring 3 1 rest) "-"
         && String.eqb (substring 6 1 rest) "T" && String.eqb (substring 9 1 rest) ":"
         && String.eqb (substring 12 1 rest) ":" && String.eqb (substring 15 1 rest) "."
         && String.eqb (substring 19 1 rest) "Z" && (String.length rest =? 20)%nat
         && (1 <=? mo) && (mo <=? 12) && (1 <=? d) && (d <=? daysInMonth year mo)
         && ((hh <=? 23) && (mi <=? 59) && (ss <=? 59)
             || (hh =? 24) && (mi =? 0) && (ss =? 0) && (ms =? 0))
      then
        timeClip (inject_Z (daysFromCivil year mo d * 86400000
                            + hh * 3600000 + mi * 60000 + ss * 1000 + ms))
      else None
  | _, _, _, _, _, _ => None
  end.

Definition parse (s : string) : Date :=
  match s with
  | String "+" rest =>
      match number (substring 0 6 rest) with
      | Some y => parseFields y (substring 6 (String.length rest) rest)
      | None => None
      end
  | String "-" rest =>
      match number (substring 0 6 rest) with
      | Some y =>
          if y =? 0 then None
          else parseFields (- y) (substring 6 (String.length rest) rest)
      | None => None
      end
  | _ =>
      match number (substring 0 4 s) with
      | Some y => parseFields y (substring 4 (String.length s) s)
      | None => None
      end
  end.

End Iso.

(* ================================================================== *)
(** ** Numbers of the host *)

Module JsNumber.

(** A Number is an IEEE 754 binary64 value; the product of two Numbers
    is the kernel's correctly rounded [PrimFloat.mul]. *)
Definition number : Type := PrimFloat.float.

(** The Number of a natural number below 2^53, which is exact. *)
Definition ofZ (n : Z) : number := PrimFloat.of_uint63 (Uint63.of_Z n).

(** [Math.floor(x)] as an integer; [None] when [x] is [NaN] or
    infinite. *)
Definition floor (x : number) : option Z :=
  match FloatOps.Prim2SF x with
  | SpecFloat.S754_zero _ => Some 0
  | SpecFloat.S754_finite negative mantissa exponent =>
      let m := if negative then Z.neg mantissa else Z.pos mantissa in
      Some (if 0 <=? exponent then m * 2 ^ exponent else m / 2 ^ (- exponent))
  | _ => None
  end.

End JsNumber.

(* ================================================================== *)
(** ** String functions of the host *)

Module JsString.

(** [s.split(sep)] for a separator of one character. *)
Fixpoint split (sep : ascii) (s : string) : list string :=
  match s with
  | EmptyString => [""]
  | String c rest =>
      if Ascii.eqb c sep then "" :: split sep rest
      else
        match split sep rest with
        | head :: tail => String c head :: tail
        | [] => [String c ""]
        end
  end.

Definition hexDigit (n : nat) : ascii :=
  if (n <? 10)%nat then ascii_of_nat (48 + n) else ascii_of_nat (55 + n).

(** [%XX] for one byte. *)
Definition percent (byte : nat) : string :=
  String "%" (String (hexDigit (byte / 16)) (String (hexDigit (byte mod 16)) "")).

(** The characters [encodeURIComponent] leaves as they are. *)
Definition unreserved (c : ascii) : bool :=
  let n := nat_of_ascii c in
  ((65 <=? n) && (n <=? 90) || (97 <=? n) && (n <=? 122) || (48 <=? n) && (n <=? 57))%nat
  || existsb (Ascii.eqb c) (list_ascii_of_string "-_.!~*'()").

(** [a || b] on optional strings: the empty string is falsy too. *)
Definition orElse (a : option string) (b : string) : string :=
  match a with
  | Some EmptyString => b
  | Some s => s
  | None => b
  end.

(** Truthiness of a parsed value. *)
Definition truthy (j : json) : bool :=
  match j with
  | JNull => false
  | JBool b => b
  | JNum q => negb (Qeq_bool q 0)
  | JString s => negb (String.eqb s "")
  | JArray _ => true
  | JObject _ => true
  end.

(** A string with code units of every value: the list of its UTF-16 code
    units, each from 0 to 65535.  A character outside the Basic
    Multilingual Plane takes two units, a lead surrogate followed by a
    trail surrogate. *)
Definition utf16 : Type := list Z.

(** The values a code unit takes. *)
Definition isUnit (u : Z) : bool := (0 <=? u) && (u <? 65536).

(** A text of this development, whose characters are code units below
    256, as such a string. *)
Definition ofString (s : string) : utf16 :=
  map (fun c => Z.of_nat (nat_of_ascii c)) (list_ascii_of_string s).

(** [a === b] on strings. *)
Fixpoint sameUnits (a b : utf16) : bool :=
  match a, b with
  | [], [] => true
  | u :: a', v :: b' => (u =? v) && sameUnits a' b'
  | _, _ => false
  end.

(** [s.split(sep)] for a separator of one code unit. *)
Fixpoint splitUnits (sep : Z) (s : utf16) : list utf16 :=
  match s with
  | [] => [[]]
  | u :: rest =>
      if u =? sep then [] :: splitUnits sep rest
      else
        match splitUnits sep rest with
        | head :: tail => (u :: head) :: tail
        | [] => [[u]]
        end
  end.

(** The surrogates: U+D800 to U+DBFF lead, U+DC00 to U+DFFF trail. *)
Definition isLeadSurrogate (u : Z) : bool := (55296 <=? u) && (u <=? 56319).

Definition isTrailSurrogate (u : Z) : bool := (56320 <=? u) && (u <=? 57343).

(** [s.isWellFormed()]: no surrogate stands alone. *)
Fixpoint isWellFormed (s : utf16) : bool :=
  match s with
  | [] => true
  | u :: rest =>
      if isLeadSurrogate u then
        match rest with
        | v :: rest' => isTrailSurrogate v && isWellFormed rest'
        | [] => false
        end
      else negb (isTrailSurrogate u) && isWellFormed rest
  end.

(** The code point of a surrogate pair. *)
Definition codePoint (lead trail : Z) : Z :=
  65536 + (lead - 55296) * 1024 + (trail - 56320).

(** The UTF-8 bytes of a code point. *)
Definition utf8 (cp : Z) : list Z :=
  if cp <? 128 then [cp]
  else if cp <? 2048 then [192 + cp / 64; 128 + cp mod 64]
  else if cp <? 65536 then
    [224 + cp / 4096; 128 + (cp / 64) mod 64; 128 + cp mod 64]
  else
    [240 + cp / 262144; 128 + (cp / 4096) mod 64; 128 + (cp / 64) mod 64;
     128 + cp mod 64].

Definition percentBytes (bytes : list Z) : string :=
  fold_right (fun byte rest => percent (Z.to_nat byte) ++ rest) "" bytes.

Definition unreservedUnit (u : Z) : bool :=
  (0 <=? u) && (u <? 128) && unreserved (ascii_of_nat (Z.to_nat u)).

(** [encodeURIComponent(s)]: an unreserved character stays, every other
    code point is written as its UTF-8 bytes, percent-encoded.  [None]
    is the [URIError] thrown on a surrogate that stands alone. *)
Fixpoint encodeURIComponent (s : utf16) : option string :=
  match s with
  | [] => Some ""
  | u :: rest =>
      if unreservedUnit u then
        option_map (String (ascii_of_nat (Z.to_nat u))) (encodeURIComponent rest)
      else if isLeadSurrogate u then
        match rest with
        | v :: rest' =>
            if isTrailSurrogate v then
              option_map (append (percentBytes (utf8 (codePoint u v))))
                (encodeURIComponent rest')
            else None
        | [] => None
        end
      else if isTrailSurrogate u then None
      else option_map (append (percentBytes (utf8 u))) (encodeURIComponent rest)
  end.

End JsString.

(* ================================================================== *)
(** ** The image-generation route *)

Module ImageRoute.

(** A property of the request body that the handler destructures with a
    default.  The default replaces a property that is absent, not one
    that is [null].  A value that is neither is given with its fields; a
    number, a string, a boolean or an array has none of the fields
    read. *)
Inductive Defaulted (A : Type) : Type :=
| Absent
| Null
| Given (value : A).

Arguments Absent {A}.
Arguments Null {A}.
Arguments Given {A} value.

(** The value of the body's [prompt]: a string, with all its code units,
    or a parsed value of another kind. *)
Inductive Prompt : Type :=
| PromptText (text : JsString.utf16)
| PromptOther (value : json).

(** The string a prompt is, if it is one. *)
Definition promptText (p : Prompt) : option JsString.utf16 :=
  match p with
  | PromptText text => Some text
  | PromptOther (JString s) => Some (JsString.ofString s)
  | PromptOther _ => None
  end.

(** Truthiness of a prompt. *)
Definition truthyPrompt (p : Prompt) : bool :=
  match p with
  | PromptText [] => false
  | PromptText _ => true
  | PromptOther value => JsString.truthy value
  end.

(** The fields read from [options]; [size] is used as a string, whatever
    value the body gives it. *)
Record Options : Type := mkOptions
  { count : option Z;
    size : option json;
    quality : option string;
    style : option string }.

(** The JSON body of the request, as destructured by the handler. *)
Record RequestBody : Type := mkRequestBody
  { prompt : option Prompt;
    model : option string;
    options : Defaulted Options }.

(** The call made to [https://openrouter.ai/api/v1/images/generations]. *)
Record UpstreamRequest : Type := mkUpstreamRequest
  { authorization : string;
    referer : string;
    xTitle : string;
    upModel : string;
    upPrompt : Prompt;
    n : Z;
    upSize : json;
    upQuality : string;
    upStyle : string }.

(** What [fetch] does: it throws, or answers with a status and a body
    that [response.json()] parses or not. *)
Inductive FetchOutcome : Type :=
| FetchThrows (message : string)
| FetchResponse (ok : bool) (status : Z) (body : snapshot).

(** The process environment. *)
Record Env : Type := mkEnv
  { OPENROUTER_API_KEYS : list string;
    NEXT_PUBLIC_SITE_URL : option string;
    NEXT_PUBLIC_SITE_NAME : option string }.

(** What one request reads from the host: the Number [Math.random()]
    returns, the network, the clock. *)
Record World : Type := mkWorld
  { random : JsNumber.number;
    fetch : UpstreamRequest -> FetchOutcome;
    now : Z }.

Record Image : Type := mkImage
  { url : option json;
    imgPrompt : Prompt;
    imgModel : string }.

(** [timestamp] is the instant whose ISO text is sent. *)
Record Metadata : Type := mkMetadata
  { metaModel : string;
    metaPrompt : Prompt;
    timestamp : Z;
    provider : string;
    metaFallback : option bool }.

Inductive Body : Type :=
| ErrorBody (error : string)
| ImagesBody (images : list Image) (metadata : Metadata)
    (error : option string) (details : option string) (fallback : option bool).

Record Response : Type := mkResponse
  { status : Z;
    body : Body }.

(** [getRandomApiKey] on the configured keys and the value of
    [Math.random()]: [None] when it throws.  The index is the floor of
    the product of two Numbers; an index outside the array reads
    [undefined], which the template literal of the caller writes out. *)
Definition getRandomApiKey (keys : list string) (random : JsNumber.number)
  : option string :=
  match keys with
  | [] => None
  | _ =>
      let product :=
        PrimFloat.mul random (JsNumber.ofZ (Z.of_nat (List.length keys))) in
      match JsNumber.floor product with
      | Some index =>
          if 0 <=? index then Some (nth (Z.to_nat index) keys "undefined")
          else Some "undefined"
      | None => Some "undefined"
      end
  end.

(** [options.size || "1024x1024"]. *)
Definition sizeOf (options : Defaulted Options) : json :=
  match options with
  | Given o =>
      match size o with
      | Some value => if JsString.truthy value then value else JString "1024x1024"
      | None => JString "1024x1024"
      end
  | _ => JString "1024x1024"
  end.

(** [prompt.length > 100 ? prompt.substring(0, 100) + "..." : prompt]. *)
Definition truncatedPrompt (prompt : JsString.utf16) : JsString.utf16 :=
  if (100 <? List.length prompt)%nat
  then (firstn 100 prompt ++ JsString.ofString "...")%list
  else prompt.

Section Placeholder.

(** The text of [`${Number(part)}`]. *)
Variable numberText : string -> string.

(** [s.toLowerCase()], the lower-casing of the host. *)
Variable toLowerCase : JsString.utf16 -> JsString.utf16.

(** [keywords.some((word) => words.includes(word))]. *)
Definition hasKeyword (keywords : list JsString.utf16) (words : list string) : bool :=
  existsb
    (fun word => existsb (fun w => JsString.sameUnits word (JsString.ofString w)) words)
    keywords.

(** [generateAdvancedPlaceholder]; [None] when it throws: the
    [TypeError] of [size.split] on a size that is not a string or of
    [prompt.toLowerCase] on a prompt that is not one, the [URIError] of
    [encodeURIComponent]. *)
Definition generateAdvancedPlaceholder (prompt : Prompt) (size : json) : option string :=
  match size with
  | JString size =>
      let parts := JsString.split "x" size in
      let width :=
        match parts with
        | w :: _ => numberText w
        | [] => "undefined"
        end in
      let height :=
        match parts with
        | _ :: h :: _ => numberText h
        | _ => "undefined"
        end in
      match promptText prompt with
      | Some prompt =>
          let keywords := JsString.splitUnits 32 (toLowerCase prompt) in
          let '(category, color) :=
            if hasKeyword keywords ["person"; "human"; "man"; "woman"; "portrait"]
            then ("portrait", "purple")
            else if hasKeyword keywords ["landscape"; "nature"; "mountain"; "forest"; "ocean"]
            then ("landscape", "green")
            else if hasKeyword keywords ["city"; "building"; "urban"; "street"]
            then ("urban", "gray")
            else if hasKeyword keywords ["animal"; "cat"; "dog"; "bird"; "wildlife"]
            then ("animal", "orange")
            else if hasKeyword keywords ["food"; "cooking"; "meal"; "restaurant"]
            then ("food", "red")
            else ("abstract", "blue") in
          match JsString.encodeURIComponent (truncatedPrompt prompt) with
          | Some encodedPrompt =>
              Some ("/placeholder.svg?height=" ++ height ++ "&width=" ++ width
                    ++ "&text=" ++ encodedPrompt
                    ++ "&category=" ++ category ++ "&color=" ++ color)
          | None => None
          end
      | None => None
      end
  | _ => None
  end.

(** The items of [data.data] when the guard
    [data.data && data.data.length > 0] passes and mapping them does not
    throw.  Every other body ends in the fallback: the guard fails, or a
    [TypeError] is caught ([data] or an item is [null], or [data.data] is
    not an array and has no [map]). *)
Definition imageItems (data : json) : option (list json) :=
  match data with
  | JObject fields =>
      match prop "data" fields with
      | Some (JArray (item :: items)) =>
          if existsb is_null (item :: items) then None else Some (item :: items)
      | _ => None
      end
  | _ => None
  end.

(** [img.url]. *)
Definition urlOf (img : json) : option json :=
  match img with
  | JObject fields => prop "url" fields
  | _ => None
  end.

(** The inner [try]: the items of a successful answer, [None] when
    control reaches the fallback. *)
Definition upstreamItems (outcome : FetchOutcome) : option (list json) :=
  match outcome with
  | FetchThrows _ => None
  | FetchResponse false _ _ => None
  | FetchResponse true _ Unparseable => None
  | FetchResponse true _ (Parsed data) => imageItems data
  end.

(** The url of the outer [catch], whose text has no surrogate. *)
Definition emergencyPlaceholder : string :=
  "/placeholder.svg?height=512&width=512&text="
  ++ match JsString.encodeURIComponent (JsString.ofString "Image Generation Error") with
     | Some encoded => encoded
     | None => ""
     end.

(** The outer [catch].  A [details] of [None] is the message of an error
    the engine composed (a [TypeError], a [URIError]). *)
Definition emergency (w : World) (details : option string) : Response :=
  {| status := 200;
     body :=
       ImagesBody
         [{| url := Some (JString emergencyPlaceholder);
             imgPrompt := PromptText (JsString.ofString "Error generating image");
             imgModel := "fallback" |}]
         {| metaModel := "fallback";
            metaPrompt := PromptText (JsString.ofString "Error generating image");
            timestamp := now w;
            provider := "Emergency Fallback";
            metaFallback := None |}
         (Some "Image generation failed")
         details
         (Some true) |}.

(** The handler: the upstream calls it makes, and its response.
    [request] is the outcome of [request.json()] and of destructuring
    its result: the message of the error thrown, or the body.  With
    [options] [null], reading [options.count] throws inside the inner
    [try], before the call, and reading [options.size] throws after it,
    outside; the call to [generateAdvancedPlaceholder] is outside
    too. *)
Definition POST (env : Env) (w : World) (request : string + RequestBody)
  : list UpstreamRequest * Response :=
  match request with
  | inl message => ([], emergency w (Some message))
  | inr req =>
      match prompt req with
      | None => ([], {| status := 400; body := ErrorBody "Prompt is required" |})
      | Some prompt =>
          if negb (truthyPrompt prompt)
          then ([], {| status := 400; body := ErrorBody "Prompt is required" |})
          else
            let model :=
              match model req with
              | Some m => m
              | None => "black-forest-labs/flux-schnell"
              end in
            match getRandomApiKey (OPENROUTER_API_KEYS env) (random w) with
            | None => ([], emergency w (Some "No OpenRouter API keys configured"))
            | Some apiKey =>
                match options req with
                | Null => ([], emergency w None)
                | _ =>
                    let given :=
                      match options req with
                      | Given o => o
                      | _ => mkOptions None None None None
                      end in
                    let upstream :=
                      {| authorization := "Bearer " ++ apiKey;
                         referer := JsString.orElse (NEXT_PUBLIC_SITE_URL env)
                                      "http://localhost:3000";
                         xTitle := JsString.orElse (NEXT_PUBLIC_SITE_NAME env)
                                     "MOD AI Assistant";
                         upModel := model;
                         upPrompt := prompt;
                         n := match count given with
                              | Some 0 | None => 1
                              | Some k => k
                              end;
                         upSize := sizeOf (options req);
                         upQuality := JsString.orElse (quality given) "standard";
                         upStyle := JsString.orElse (style given) "vivid" |} in
                    match upstreamItems (fetch w upstream) with
                    | Some items =>
                        ([upstream],
                         {| status := 200;
                            body :=
                              ImagesBody
                                (map (fun img =>
                                        {| url := urlOf img;
                                           imgPrompt := prompt;
                                           imgModel := model |}) items)
                                {| metaModel := model;
                                   metaPrompt := prompt;
                                   timestamp := now w;
                                   provider := "OpenRouter";
                                   metaFallback := None |}
                                None None None |})
                    | None =>
                        match generateAdvancedPlaceholder prompt
                                (sizeOf (options req)) with
                        | Some placeholderImageUrl =>
                            ([upstream],
                             {| status := 200;
                                body :=
                                  ImagesBody
                                    [{| url := Some (JString placeholderImageUrl);
                                        imgPrompt := prompt;
                                        imgModel := model |}]
                                    {| metaModel := model;
                                       metaPrompt := prompt;
                                       timestamp := now w;
                                       provider := "MOD AI Placeholder";
                                       metaFallback := Some true |}
                                    None None None |})
                        | None => ([upstream], emergency w None)
                        end
                    end
                end
            end
      end
  end.

End Placeholder.

(** The first image's url and [metadata.fallback] of a response. *)
Definition firstImageUrl (r : Response) : option json :=
  match body r with
  | ImagesBody (img :: _) _ _ _ _ => url img
  | _ => None
  end.

Definition metadataFallback (r : Response) : option bool :=
  match body r with
  | ImagesBody _ metadata _ _ _ => metaFallback metadata
  | ErrorBody _ => None
  end.

Definition topLevelFallback (r : Response) : option bool :=
  match body r with
  | ImagesBody _ _ _ _ fallback => fallback
  | ErrorBody _ => None
  end.

(** The ways the upstream call fails: a transport error, a non-success
    status, a body that does not parse, a parsed body without image
    data. *)
Inductive upstreamFails : FetchOutcome -> Prop :=
| transport_error (message : string) :
    upstreamFails (FetchThrows message)
| http_error (status : Z) (responseBody : snapshot) :
    upstreamFails (FetchResponse false status responseBody)
| unreadable_body (status : Z) :
    upstreamFails (FetchResponse true status Unparseable)
| no_image_data (status : Z) (data : json) :
    imageItems data = None ->
    upstreamFails (FetchResponse true status (Parsed data)).

(** A url that refers to the local placeholder image. *)
Definition isPlaceholderReference (u : option json) : bool :=
  match u with
  | Some (JString s) => prefix "/placeholder.svg?" s
  | _ => false
  end.

End ImageRoute.

(* ================================================================== *)
(** ** The chat route *)

Module ChatRoute.

Import ImageRoute.

Definition groqModels : list string :=
  ["llama-3.3-70b-versatile";
   "llama-3.1-8b-instant";
   "llama3-70b-8192";
   "llama3-8b-8192";
   "gemma2-9b-it"].

(** [groqModels.includes(modelId)]. *)
Definition isGroqModel (modelId : string) : bool :=
  existsb (fun m => String.eqb m modelId) groqModels.

Record ChatMessage : Type := mkChatMessage
  { role : string;
    content : string }.

Record ChatOptions : Type := mkChatOptions
  { temperature : option Q;
    maxTokens : option Z }.

(** The body's [messages]: absent, so that the default [[]] applies; a
    value that is not an array ([null] among them), on which
    [messages.map] throws; or an array, an element of which may be
    [null]. *)
Inductive Messages : Type :=
| NoMessages
| NotAnArray
| MessageArray (items : list (option ChatMessage)).

(** The JSON body of the request, as destructured by the handler. *)
Record ChatRequest : Type := mkChatRequest
  { message : option string;
    messages : Messages;
    model : option string;
    options : Defaulted ChatOptions }.

(** The arguments of [generateText]. *)
Record GroqCall : Type := mkGroqCall
  { groqModel : string;
    groqMessages : list ChatMessage;
    groqTemperature : Q;
    groqMaxTokens : Z }.

(** The call made to [https://openrouter.ai/api/v1/chat/completions]. *)
Record OpenRouterCall : Type := mkOpenRouterCall
  { authorization : string;
    referer : string;
    xTitle : string;
    orModel : string;
    orMessages : list ChatMessage;
    orTemperature : Q;
    max_tokens : Z;
    stream : bool }.

Inductive UpstreamCall : Type :=
| ToGroq (call : GroqCall)
| ToOpenRouter (call : OpenRouterCall).

(** What [generateText] does: it throws, or returns a text. *)
Inductive GenerateOutcome : Type :=
| GenerateThrows (message : string)
| Generated (text : string).

Record ChatEnv : Type := mkChatEnv
  { GROQ_API_KEY : option string;
    keys : Env }.

Record ChatWorld : Type := mkChatWorld
  { random : JsNumber.number;
    generateText : GroqCall -> GenerateOutcome;
    fetch : OpenRouterCall -> FetchOutcome }.

(** The body of a response.  A [details] of [None] is a text composed by
    the engine (the message of a [TypeError] or [SyntaxError], the string
    conversion of a non-string value).  The [metadata] of a success
    (token counts and a cost estimate in floating point) is left out. *)
Inductive ChatBody : Type :=
| Rejected (error : string)
| Failed (error : string) (details : option string)
| Answered (message : option json) (model : string) (provider : string).

Record ChatResponse : Type := mkChatResponse
  { status : Z;
    body : ChatBody }.

Definition systemPrompt : ChatMessage :=
  {| role := "system";
     content := "You are MOD AI Assistant, a helpful and knowledgeable AI assistant. Provide accurate, helpful, and engaging responses to user queries." |}.

(** [v.name] for a parsed value [v] other than [null], and a name that is
    not an index or [length]. *)
Definition field (name : string) (v : json) : option json :=
  match v with
  | JObject fields => prop name fields
  | _ => None
  end.

(** [v[0]]. *)
Definition first (v : json) : option json :=
  match v with
  | JArray (x :: _) => Some x
  | JString (String c _) => Some (JString (String c ""))
  | JObject fields => prop "0" fields
  | _ => None
  end.

Definition truthyField (v : option json) : option json :=
  match v with
  | Some j => if JsString.truthy j then Some j else None
  | None => None
  end.

(** The message of the error thrown on a non-success status:
    [errorData.error?.message || `API error: ${status}`].  [Throw] is the
    [TypeError] of reading [null.error]; [Untyped] a truthy [message]
    that is not a string. *)
Definition upstreamErrorMessage (status : Z) (responseBody : snapshot) : result string :=
  let apiError := "API error: " ++ decimal status in
  match responseBody with
  | Unparseable => Ok apiError
  | Parsed JNull => Throw
  | Parsed errorData =>
      match field "error" errorData with
      | Some (JObject errorFields) =>
          match truthyField (prop "message" errorFields) with
          | Some (JString s) => Ok s
          | Some _ => Untyped
          | None => Ok apiError
          end
      | _ => Ok apiError
      end
  end.

(** [data.choices[0].message.content] after the validity check; [Throw]
    is the [TypeError] on a [null] body, [Ok None] the failed check. *)
Definition completionText (data : json) : result (option (option json)) :=
  match data with
  | JNull => Throw
  | _ =>
      match truthyField (field "choices" data) with
      | Some choices =>
          match truthyField (first choices) with
          | Some choice =>
              match truthyField (field "message" choice) with
              | Some msg => Ok (Some (field "content" msg))
              | None => Ok None
              end
          | None => Ok None
          end
      | None => Ok None
      end
  end.

Definition failure (details : option string) : ChatResponse :=
  {| status := 500; body := Failed "Failed to generate response" details |}.

(** [messages.map(msg => ({ role: msg.role, content: msg.content }))];
    [None] is the [TypeError] thrown on a value without [map] or on a
    [null] element. *)
Fixpoint mapped (items : list (option ChatMessage)) : option (list ChatMessage) :=
  match items with
  | [] => Some []
  | Some msg :: rest => option_map (cons msg) (mapped rest)
  | None :: _ => None
  end.

Definition history (messages : Messages) : option (list ChatMessage) :=
  match messages with
  | NoMessages => Some []
  | NotAnArray => None
  | MessageArray items => mapped items
  end.

(** [options.temperature || 0.7] and [options.maxTokens || 2000]; [None]
    is the [TypeError] thrown on [options] [null]. *)
Definition sampling (options : Defaulted ChatOptions) : option (Q * Z) :=
  match options with
  | Null => None
  | Absent => Some (7 # 10, 2000)
  | Given o =>
      Some (match temperature o with
            | Some t => if Qeq_bool t 0 then 7 # 10 else t
            | None => 7 # 10
            end,
            match maxTokens o with
            | Some 0 | None => 2000
            | Some k => k
            end)
  end.

(** The handler: the upstream calls it makes, and its response.
    [request] is the outcome of [request.json()] and of destructuring
    its result: the message of the error thrown, or the body.  The
    history is mapped before the provider is chosen; [options] is read
    when the arguments of the upstream call are built, after the
    credential check. *)
Definition POST (env : ChatEnv) (w : ChatWorld) (request : string + ChatRequest)
  : list UpstreamCall * ChatResponse :=
  match request with
  | inl error => ([], failure (Some error))
  | inr req =>
      match message req with
      | None | Some EmptyString =>
          ([], {| status := 400; body := Rejected "Message is required" |})
      | Some message =>
          let model :=
            match model req with
            | Some m => m
            | None => "deepseek/deepseek-r1-0528:free"
            end in
          match history (messages req) with
          | None => ([], failure None)
          | Some past =>
              let apiMessages :=
                (systemPrompt :: past ++ [{| role := "user"; content := message |}])%list in
              if isGroqModel model then
                match GROQ_API_KEY env with
                | None | Some EmptyString =>
                    ([], failure (Some "Groq API key not configured"))
                | Some _ =>
                    match sampling (options req) with
                    | None => ([], failure None)
                    | Some (temperature, maxTokens) =>
                        let call :=
                          {| groqModel := model;
                             groqMessages := apiMessages;
                             groqTemperature := temperature;
                             groqMaxTokens := maxTokens |} in
                        match generateText w call with
                        | GenerateThrows error => ([ToGroq call], failure (Some error))
                        | Generated text =>
                            ([ToGroq call],
                             {| status := 200;
                                body := Answered (Some (JString text)) model "Groq" |})
                        end
                    end
                end
              else
                match getRandomApiKey (OPENROUTER_API_KEYS (keys env)) (random w) with
                | None => ([], failure (Some "No OpenRouter API keys configured"))
                | Some apiKey =>
                    match sampling (options req) with
                    | None => ([], failure None)
                    | Some (temperature, maxTokens) =>
                        let call :=
                          {| authorization := "Bearer " ++ apiKey;
                             referer := JsString.orElse (NEXT_PUBLIC_SITE_URL (keys env))
                                          "http://localhost:3000";
                             xTitle := JsString.orElse (NEXT_PUBLIC_SITE_NAME (keys env))
                                         "MOD AI Assistant";
                             orModel := model;
                             orMessages := apiMessages;
                             orTemperature := temperature;
                             max_tokens := maxTokens;
                             stream := false |} in
                        match fetch w call with
                        | FetchThrows error => ([ToOpenRouter call], failure (Some error))
                        | FetchResponse false status responseBody =>
                            ([ToOpenRouter call],
                             match upstreamErrorMessage status responseBody with
                             | Ok text => failure (Some text)
                             | _ => failure None
                             end)
                        | FetchResponse true _ Unparseable =>
                            ([ToOpenRouter call], failure None)
                        | FetchResponse true _ (Parsed data) =>
                            ([ToOpenRouter call],
                             match completionText data with
                             | Ok (Some text) =>
                                 {| status := 200; body := Answered text model "OpenRouter" |}
                             | Ok None => failure (Some "Invalid response format from API")
                             | _ => failure None
                             end)
                        end
                    end
                end
          end
      end
  end.

(** The provider a model identifier is routed to. *)
Definition route (modelId : string) : string :=
  if isGroqModel modelId then "Groq" else "OpenRouter".

(** The provider an upstream call goes to. *)
Definition providerOf (call : UpstreamCall) : string :=
  match call with
  | ToGroq _ => "Groq"
  | ToOpenRouter _ => "OpenRouter"
  end.

(** The model identifier an upstream call carries. *)
Definition modelOf (call : UpstreamCall) : string :=
  match call with
  | ToGroq c => groqModel c
  | ToOpenRouter c => orModel c
  end.

End ChatRoute.

(* ================================================================== *)
(** ** The audio route *)

Module AudioRoute.

Import ImageRoute.

Record File : Type := mkFile
  { fileName : string;
    fileType : string;
    fileBytes : string }.

(** The fields of the request's form, as the handler reads them with
    [formData.get]: [None] is [null]. *)
Record Form : Type := mkForm
  { file : option File;
    action : option string;
    model : option string;
    language : option string;
    temperature : option string }.

(** A value appended to the [FormData] sent upstream. *)
Inductive Entry : Type :=
| FileEntry (f : File)
| TextEntry (text : string).

(** The call made to the Groq audio API: the entries of its form in the
    order they were appended. *)
Record UpstreamCall : Type := mkUpstreamCall
  { endpoint : string;
    authorization : string;
    form : list (string * Entry) }.

Record AudioEnv : Type := mkAudioEnv
  { GROQ_API_KEY : option string }.

Record AudioWorld : Type := mkAudioWorld
  { fetch : UpstreamCall -> FetchOutcome }.

(** The body of a response.  [Refused] carries an [error] only;
    [UpstreamError] the error and the upstream body as [details];
    [Crashed] is written by the [catch], its [details] being [None] for a
    text composed by the engine (the message of a [TypeError],
    [SyntaxError] or [RangeError]). *)
Inductive AudioBody : Type :=
| Refused (error : string)
| UpstreamError (error : json) (details : json)
| Crashed (error : string) (details : option string)
| Transcript (text language duration : option json) (model : string)
    (action : option string).

Record AudioResponse : Type := mkAudioResponse
  { status : Z;
    body : AudioBody }.

Definition TRANSLATIONS : string := "https://api.groq.com/openai/v1/audio/translations".
Definition TRANSCRIPTIONS : string := "https://api.groq.com/openai/v1/audio/transcriptions".

(** [if (value && ...) groqFormData.append(name, value)]. *)
Definition appended (name : string) (value : option string) (keep : string -> bool)
  : list (string * Entry) :=
  match value with
  | None | Some EmptyString => []
  | Some v => if keep v then [(name, TextEntry v)] else []
  end.

(** [errorData.error?.message || `Groq API error: ${status}`]; [None]
    is the [TypeError] of reading [null.error]. *)
Definition upstreamError (status : Z) (errorData : json) : option json :=
  let apiError := JString ("Groq API error: " ++ decimal status) in
  match errorData with
  | JNull => None
  | _ =>
      match ChatRoute.field "error" errorData with
      | Some (JObject errorFields) =>
          match ChatRoute.truthyField (prop "message" errorFields) with
          | Some message => Some message
          | None => Some apiError
          end
      | _ => Some apiError
      end
  end.

(** The statuses the [Response] constructor accepts together with a
    body: 200 to 599, the null-body statuses excepted. *)
Definition acceptsBody (status : Z) : bool :=
  (200 <=? status) && (status <=? 599)
  && negb (existsb (Z.eqb status) [204; 205; 304]).

(** The [catch] of the handler. *)
Definition crashed (details : option string) : AudioResponse :=
  {| status := 500; body := Crashed "Audio processing failed" details |}.

(** The handler: the upstream calls it makes, and its response.
    [request] is the outcome of [request.formData()]: the message of the
    error it throws, or the form. *)
Definition POST (env : AudioEnv) (w : AudioWorld) (request : string + Form)
  : list UpstreamCall * AudioResponse :=
  match GROQ_API_KEY env with
  | None | Some EmptyString =>
      ([], {| status := 500; body := Refused "Groq API key not configured" |})
  | Some key =>
      match request with
      | inl message => ([], crashed (Some message))
      | inr formData =>
          match file formData with
          | None =>
              ([], {| status := 400; body := Refused "No audio file provided" |})
          | Some audioFile =>
              let model := JsString.orElse (model formData) "whisper-large-v3" in
              let groqFormData :=
                ([("file", FileEntry audioFile); ("model", TextEntry model)]
                 ++ appended "language" (language formData)
                      (fun l => negb (String.eqb l "auto"))
                 ++ appended "temperature" (temperature formData) (fun _ => true))%list in
              let call :=
                {| endpoint :=
                     match action formData with
                     | Some a => if String.eqb a "translate" then TRANSLATIONS
                                 else TRANSCRIPTIONS
                     | None => TRANSCRIPTIONS
                     end;
                   authorization := "Bearer " ++ key;
                   form := groqFormData |} in
              match fetch w call with
              | FetchThrows message => ([call], crashed (Some message))
              | FetchResponse false upstreamStatus responseBody =>
                  let errorData :=
                    match responseBody with
                    | Unparseable => JObject [("error", JString "Unknown error")]
                    | Parsed data => data
                    end in
                  ([call],
                   match upstreamError upstreamStatus errorData with
                   | Some error =>
                       if acceptsBody upstreamStatus
                       then {| status := upstreamStatus;
                               body := UpstreamError error errorData |}
                       else crashed None
                   | None => crashed None
                   end)
              | FetchResponse true _ Unparseable => ([call], crashed None)
              | FetchResponse true _ (Parsed JNull) => ([call], crashed None)
              | FetchResponse true _ (Parsed result) =>
                  ([call],
                   {| status := 200;
                      body :=
                        Transcript (ChatRoute.field "text" result)
                          (ChatRoute.field "language" result)
                          (ChatRoute.field "duration" result)
                          model (action formData) |})
              end
          end
      end
  end.

End AudioRoute.

(* ================================================================== *)
(** ** lib/auth: password checks *)

Module Auth.

Definition isLower (c : ascii) : bool :=
  let n := nat_of_ascii c in ((97 <=? n) && (n <=? 122))%nat.

Definition isUpper (c : ascii) : bool :=
  let n := nat_of_ascii c in ((65 <=? n) && (n <=? 90))%nat.

Definition isDigit (c : ascii) : bool :=
  let n := nat_of_ascii c in ((48 <=? n) && (n <=? 57))%nat.

(** [/[class]/.test(s)]: some character of [s] is in the class. *)
Definition test (class : ascii -> bool) (s : string) : bool :=
  existsb class (list_ascii_of_string s).

Record PasswordValidation : Type := mkPasswordValidation
  { isValid : bool;
    errors : list string }.

Definition validatePassword (password : string) : PasswordValidation :=
  let errors :=
    ((if (String.length password <? 6)%nat
      then ["Password must be at least 6 characters long"] else [])
     ++ (if negb (test (fun c => isUpper c || isLower c) password)
         then ["Password must contain at least one letter"] else [])
     ++ (if negb (test isDigit password)
         then ["Password must contain at least one number"] else []))%list in
  {| isValid := (List.length errors =? 0)%nat;
     errors := errors |}.

Inductive Strength : Type := weak | medium | strong.

Definition getPasswordStrength (password : string) : Strength :=
  let score :=
    ((if (8 <=? String.length password)%nat then 1 else 0)
     + (if test isLower password then 1 else 0)
     + (if test isUpper password then 1 else 0)
     + (if test isDigit password then 1 else 0)
     + (if test (fun c => negb (isUpper c || isLower c || isDigit c)) password
        then 1 else 0))%nat in
  if (score <? 3)%nat then weak
  else if (score <? 5)%nat then medium
  else strong.

End Auth.

(* ================================================================== *)
(** ** lib/ai-models: the model catalog *)

Module AiModels.

(** Prices are the decimal literals of the source; the comparisons made
    on them have the same outcome on these rationals as on the literals'
    floating-point values. *)
Record Pricing : Type := mkPricing
  { input : Q;
    output : Q }.

Record AIModel : Type := mkAIModel
  { id : string;
    name : string;
    provider : string;
    description : string;
    contextWindow : Z;
    pricing : Pricing;
    capabilities : list string;
    category : string }.

Definition AI_MODELS : list AIModel :=
  [ mkAIModel "deepseek/deepseek-r1-0528:free" "DeepSeek R1" "DeepSeek"
      "Advanced reasoning model with strong analytical capabilities"
      32768 (mkPricing 0 0)
      ["reasoning"; "analysis"; "math"; "coding"] "reasoning";
    mkAIModel "anthropic/claude-sonnet-4" "Claude Sonnet 4" "Anthropic"
      "Latest Claude model with enhanced reasoning and vision"
      200000 (mkPricing (3 # 1000) (15 # 1000))
      ["reasoning"; "vision"; "coding"; "analysis"] "vision";
    mkAIModel "moonshotai/kimi-vl-a3b-thinking" "Kimi VL A3B Thinking" "Moonshot AI"
      "Vision-language model with thinking capabilities"
      128000 (mkPricing (2 # 1000) (8 # 1000))
      ["vision"; "reasoning"; "multimodal"] "vision";
    mkAIModel "openai/gpt-4o" "GPT-4o" "OpenAI"
      "Multimodal flagship model with vision and reasoning"
      128000 (mkPricing (5 # 1000) (15 # 1000))
      ["reasoning"; "vision"; "coding"; "multimodal"] "vision";
    mkAIModel "google/gemini-pro-1.5" "Gemini Pro 1.5" "Google"
      "Large context window model with multimodal capabilities"
      1000000 (mkPricing (1 # 1000) (3 # 1000))
      ["reasoning"; "vision"; "long-context"] "vision";
    mkAIModel "meta-llama/llama-3.2-90b-vision-instruct" "Llama 3.2 90B Vision" "Meta"
      "Open-source vision model with strong performance"
      128000 (mkPricing (9 # 10000) (9 # 10000))
      ["vision"; "reasoning"; "open-source"] "vision";
    mkAIModel "llama-3.3-70b-versatile" "Llama 3.3 70B Versatile" "Groq"
      "Ultra-fast inference with Groq hardware acceleration"
      32768 (mkPricing (5 # 10000) (8 # 10000))
      ["fast-inference"; "reasoning"; "coding"] "chat";
    mkAIModel "llama-3.1-8b-instant" "Llama 3.1 8B Instant" "Groq"
      "Lightning-fast responses with Groq optimization"
      131072 (mkPricing (1 # 10000) (1 # 10000))
      ["ultra-fast"; "efficient"; "coding"] "chat";
    mkAIModel "llama3-70b-8192" "Llama 3 70B" "Groq"
      "High-performance model with Groq acceleration"
      8192 (mkPricing (5 # 10000) (8 # 10000))
      ["fast-inference"; "reasoning"] "chat";
    mkAIModel "llama3-8b-8192" "Llama 3 8B" "Groq"
      "Efficient model optimized for speed"
      8192 (mkPricing (1 # 10000) (1 # 10000))
      ["ultra-fast"; "efficient"] "chat";
    mkAIModel "gemma2-9b-it" "Gemma 2 9B IT" "Groq"
      "Instruction-tuned model with fast inference"
      8192 (mkPricing (2 # 10000) (2 # 10000))
      ["fast-inference"; "instruction-following"] "chat";
    mkAIModel "anthropic/claude-3.5-haiku" "Claude 3.5 Haiku" "Anthropic"
      "Fast and efficient Claude model"
      200000 (mkPricing (1 # 1000) (5 # 1000))
      ["fast"; "efficient"; "reasoning"] "chat";
    mkAIModel "openai/gpt-4o-mini" "GPT-4o Mini" "OpenAI"
      "Compact version of GPT-4o with good performance"
      128000 (mkPricing (15 # 100000) (6 # 10000))
      ["efficient"; "reasoning"; "coding"] "chat";
    mkAIModel "google/gemini-flash-1.5" "Gemini Flash 1.5" "Google"
      "Fast Gemini model optimized for speed"
      1000000 (mkPricing (75 # 100000) (3 # 1000))
      ["fast"; "long-context"; "multimodal"] "chat";
    mkAIModel "mistralai/mistral-large" "Mistral Large" "Mistral AI"
      "Large-scale model with strong performance"
      128000 (mkPricing (4 # 1000) (12 # 1000))
      ["reasoning"; "multilingual"; "coding"] "chat";
    mkAIModel "cohere/command-r-plus" "Command R+" "Cohere"
      "Advanced command-following model"
      128000 (mkPricing (3 # 1000) (15 # 1000))
      ["reasoning"; "tool-use"; "rag"] "chat" ].

(** [list.includes(x)] on strings. *)
Definition includes (x : string) (l : list string) : bool :=
  existsb (String.eqb x) l.

Definition getModelById (id' : string) : option AIModel :=
  find (fun model => String.eqb (id model) id') AI_MODELS.

Definition getModelsByProvider (provider' : string) : list AIModel :=
  filter (fun model => String.eqb (provider model) provider') AI_MODELS.

Definition getModelsByCategory (category' : string) : list AIModel :=
  filter (fun model => String.eqb (category model) category') AI_MODELS.

Definition getFastestModels : list AIModel :=
  filter (fun model =>
            includes "fast-inference" (capabilities model)
            || includes "ultra-fast" (capabilities model)
            || String.eqb (provider model) "Groq")
         AI_MODELS.

Definition getCheapestModels : list AIModel :=
  filter (fun model =>
            Qle_bool (input (pricing model)) (1 # 1000)
            && Qle_bool (output (pricing model)) (1 # 1000))
         AI_MODELS.

Definition getVisionModels : list AIModel :=
  filter (fun model =>
            includes "vision" (capabilities model)
            || includes "multimodal" (capabilities model))
         AI_MODELS.

End AiModels.

(* ================================================================== *)
(** ** app/page: the handlers that use the store

    The component's state is the record [State]; a handler is a function
    of the state and the store.  An [async] handler runs without
    interruption up to its [await] of the network and again from the
    arrival of the answer: it is given as the part that runs first, which
    returns the request it leaves pending, and the part that runs when
    the request is answered.  The values a handler closes over
    ([currentConversationId], [imagePrompt]) are arguments of the second
    part; state updates of the form [setMessages(prev => ...)] apply to
    the state at the time they run. *)

Module Page.

(** The interface [Message] of the page has the fields of
    [ConversationMessage]. *)
Definition Message : Type := ConversationMessage.t.

(** The text of an error shown to the user; [EngineText] is the message
    of an error raised by the engine. *)
Inductive ErrorText : Type :=
| Text (text : string)
| EngineText.

Record State : Type := mkState
  { messages : list Message;
    input : string;
    isLoading : bool;
    error : option ErrorText;
    selectedModel : string;
    currentConversationId : option string;
    isSidebarOpen : bool;
    isImageMode : bool;
    imagePrompt : string;
    generatedImages : list (option json) }.

Definition App : Type := (State * ConversationMemory)%type.

Definition setMessages (v : list Message) (p : State) : State :=
  mkState v (input p) (isLoading p) (error p) (selectedModel p)
    (currentConversationId p) (isSidebarOpen p) (isImageMode p) (imagePrompt p)
    (generatedImages p).

Definition setInput (v : string) (p : State) : State :=
  mkState (messages p) v (isLoading p) (error p) (selectedModel p)
    (currentConversationId p) (isSidebarOpen p) (isImageMode p) (imagePrompt p)
    (generatedImages p).

Definition setIsLoading (v : bool) (p : State) : State :=
  mkState (messages p) (input p) v (error p) (selectedModel p)
    (currentConversationId p) (isSidebarOpen p) (isImageMode p) (imagePrompt p)
    (generatedImages p).

Definition setError (v : option ErrorText) (p : State) : State :=
  mkState (messages p) (input p) (isLoading p) v (selectedModel p)
    (currentConversationId p) (isSidebarOpen p) (isImageMode p) (imagePrompt p)
    (generatedImages p).

Definition setSelectedModel (v : string) (p : State) : State :=
  mkState (messages p) (input p) (isLoading p) (error p) v
    (currentConversationId p) (isSidebarOpen p) (isImageMode p) (imagePrompt p)
    (generatedImages p).

Definition setCurrentConversationId (v : option string) (p : State) : State :=
  mkState (messages p) (input p) (isLoading p) (error p) (selectedModel p)
    v (isSidebarOpen p) (isImageMode p) (imagePrompt p) (generatedImages p).

Definition setIsSidebarOpen (v : bool) (p : State) : State :=
  mkState (messages p) (input p) (isLoading p) (error p) (selectedModel p)
    (currentConversationId p) v (isImageMode p) (imagePrompt p) (generatedImages p).

Definition setIsImageMode (v : bool) (p : State) : State :=
  mkState (messages p) (input p) (isLoading p) (error p) (selectedModel p)
    (currentConversationId p) (isSidebarOpen p) v (imagePrompt p) (generatedImages p).

Definition setImagePrompt (v : string) (p : State) : State :=
  mkState (messages p) (input p) (isLoading p) (error p) (selectedModel p)
    (currentConversationId p) (isSidebarOpen p) (isImageMode p) v (generatedImages p).

Definition setGeneratedImages (v : list (option json)) (p : State) : State :=
  mkState (messages p) (input p) (isLoading p) (error p) (selectedModel p)
    (currentConversationId p) (isSidebarOpen p) (isImageMode p) (imagePrompt p) v.

(** [setMessages((prev) => [...prev, message])]. *)
Definition pushMessage (message : Message) (p : State) : State :=
  setMessages (messages p ++ [message])%list p.

(** The state of the component when it is mounted. *)
Definition initialState : State :=
  {| messages := [];
     input := "";
     isLoading := false;
     error := None;
     selectedModel := "deepseek/deepseek-r1-0528:free";
     currentConversationId := None;
     isSidebarOpen := false;
     isImageMode := false;
     imagePrompt := "";
     generatedImages := [] |}.

(** White space and line terminators among the code units below 256. *)
Definition whiteSpace (c : ascii) : bool :=
  let n := nat_of_ascii c in
  ((9 <=? n) && (n <=? 13) || (n =? 32) || (n =? 160))%nat.

Fixpoint trimStart (s : string) : string :=
  match s with
  | EmptyString => ""
  | String c rest => if whiteSpace c then trimStart rest else s
  end.

Definition reverse (s : string) : string :=
  string_of_list_ascii (rev (list_ascii_of_string s)).

(** [s.trim()]. *)
Definition trim (s : string) : string :=
  reverse (trimStart (reverse (trimStart s))).

Definition WELCOME : string :=
  "Hello! I'm MOD AI Assistant with access to 15+ advanced AI models including Claude Sonnet 4, GPT-4o, and ultra-fast Groq models. I can help with coding, writing, analysis, image generation, and much more. What would you like to explore today?".

Definition APOLOGY : string :=
  "I apologize, but I'm having trouble processing your request. Please try again or switch to a different model.".

(** The clock and [Math.random] as the calls of a handler read them. *)
Record StartHost : Type := mkStartHost
  { created : Host;
    welcomed : Z;
    welcomeStored : Host }.

Record SubmitHost : Type := mkSubmitHost
  { submittedNow : Z;
    submittedDate : Z;
    userStored : Host }.

Record ReplyHost : Type := mkReplyHost
  { repliedNow : Z;
    repliedDate : Z;
    replyStored : Host }.

Definition startNewConversation (h : StartHost) (app : App) : App :=
  let (p, s) := app in
  let (conversationId, s1) := createConversation (created h) (selectedModel p) s in
  let p1 := setCurrentConversationId (Some conversationId) p in
  let welcomeMessage : Message :=
    {| ConversationMessage.id := "welcome";
       ConversationMessage.content := WELCOME;
       ConversationMessage.role := assistant;
       ConversationMessage.timestamp := Some (welcomed h);
       ConversationMessage.model := Some (selectedModel p);
       ConversationMessage.metadata := None |} in
  let p2 := setMessages [welcomeMessage] p1 in
  let s2 :=
    addMessage (welcomeStored h) conversationId
      {| MessageInput.content := ConversationMessage.content welcomeMessage;
         MessageInput.role := ConversationMessage.role welcomeMessage;
         MessageInput.model := Some (selectedModel p);
         MessageInput.metadata := None |} s1 in
  (p2, s2).

(** The effect run when the component is mounted. *)
Definition initConversation (h : StartHost) (app : App) : App :=
  let (p, s) := app in
  match getAllConversations s with
  | latest :: _ =>
      (setSelectedModel (Conversation.model latest)
         (setMessages (Conversation.messages latest)
            (setCurrentConversationId (Some (Conversation.id latest)) p)),
       s)
  | [] => startNewConversation h app
  end.

Definition handleConversationSelect (conversationId : string) (app : App) : App :=
  let (p, s) := app in
  match getConversation conversationId s with
  | Some conversation =>
      (setIsSidebarOpen false
         (setSelectedModel (Conversation.model conversation)
            (setMessages (Conversation.messages conversation)
               (setCurrentConversationId (Some conversationId) p))),
       setCurrentConversation conversationId s)
  | None => (setIsSidebarOpen false p, s)
  end.

(** The request a handler has sent when it stops at its [await]. *)
Inductive Pending : Type :=
| NothingPending
| ChatPending (conversationId : string) (request : ChatRoute.ChatRequest)
| ImagePending (conversationId : option string) (prompt : string)
    (request : ImageRoute.RequestBody).

Definition roleText (r : Role) : string :=
  match r with
  | user => "user"
  | assistant => "assistant"
  end.

(** A stored message as the chat route reads it in the request body. *)
Definition toChatMessage (m : ConversationMessage.t) : ChatRoute.ChatMessage :=
  {| ChatRoute.role := roleText (ConversationMessage.role m);
     ChatRoute.content := ConversationMessage.content m |}.

(** [handleImageGeneration] up to its [await fetch]. *)
Definition handleImageGeneration (app : App) : App * Pending :=
  let (p, s) := app in
  if String.eqb (trim (imagePrompt p)) "" then (app, NothingPending)
  else
    ((setError None (setIsLoading true p), s),
     ImagePending (currentConversationId p) (imagePrompt p)
       {| ImageRoute.prompt :=
            Some (ImageRoute.PromptText (JsString.ofString (imagePrompt p)));
          ImageRoute.model := Some "black-forest-labs/flux-schnell";
          ImageRoute.options :=
            ImageRoute.Given
              {| ImageRoute.count := Some 1;
                 ImageRoute.size := Some (JString "1024x1024");
                 ImageRoute.quality := None;
                 ImageRoute.style := None |} |}).

(** [handleSubmit] up to its [await fetch]. *)
Definition handleSubmit (hs : StartHost) (h : SubmitHost) (app : App) : App * Pending :=
  let (p, s) := app in
  if (String.eqb (trim (input p)) "" && negb (isImageMode p)) || isLoading p
  then (app, NothingPending)
  else
    match currentConversationId p with
    | None | Some EmptyString => (startNewConversation hs app, NothingPending)
    | Some conversationId =>
        if isImageMode p then handleImageGeneration app
        else
          let userMessage : Message :=
            {| ConversationMessage.id := decimal (submittedNow h);
               ConversationMessage.content := input p;
               ConversationMessage.role := user;
               ConversationMessage.timestamp := Some (submittedDate h);
               ConversationMessage.model := None;
               ConversationMessage.metadata := None |} in
          let p1 := pushMessage userMessage p in
          let s1 :=
            addMessage (userStored h) conversationId
              {| MessageInput.content := input p;
                 MessageInput.role := user;
                 MessageInput.model := None;
                 MessageInput.metadata := None |} s in
          let currentInput := input p in
          let p2 := setError None (setIsLoading true (setInput "" p1)) in
          let contextMessages := getContextMessages conversationId (Some 4000) s1 in
          ((p2, s1),
           ChatPending conversationId
             {| ChatRoute.message := Some currentInput;
                ChatRoute.messages :=
                  ChatRoute.MessageArray
                    (map (fun m => Some (toChatMessage m)) contextMessages);
                ChatRoute.model := Some (selectedModel p);
                ChatRoute.options :=
                  ImageRoute.Given
                    {| ChatRoute.temperature := Some (7 # 10);
                       ChatRoute.maxTokens := Some 2000 |} |})
    end.

(** The [catch] and [finally] of [handleSubmit]. *)
Definition submitFailed (h : ReplyHost) (text : ErrorText) (app : App) : App :=
  let (p, s) := app in
  let errorMessage : Message :=
    {| ConversationMessage.id := decimal (repliedNow h + 1);
       ConversationMessage.content := APOLOGY;
       ConversationMessage.role := assistant;
       ConversationMessage.timestamp := Some (repliedDate h);
       ConversationMessage.model := None;
       ConversationMessage.metadata := None |} in
  (setIsLoading false (pushMessage errorMessage (setError (Some text) p)), s).

(** [handleSubmit] from the answer to [fetch("/api/chat")] on.
    [outcome] is what [fetch] and [response.json()] give; the result is
    [None] when the body holds a value the handler's types exclude (a
    [message] that is not a string, say). *)
Definition handleSubmit_resumed (h : ReplyHost) (conversationId : string)
  (outcome : ImageRoute.FetchOutcome) (app : App) : option App :=
  let (p, s) := app in
  match outcome with
  | ImageRoute.FetchThrows message => Some (submitFailed h (Text message) app)
  | ImageRoute.FetchResponse _ _ Unparseable => Some (submitFailed h EngineText app)
  | ImageRoute.FetchResponse _ _ (Parsed JNull) => Some (submitFailed h EngineText app)
  | ImageRoute.FetchResponse false status (Parsed data) =>
      match ChatRoute.truthyField (ChatRoute.field "error" data) with
      | Some (JString text) => Some (submitFailed h (Text text) app)
      | Some _ => None
      | None =>
          Some (submitFailed h (Text ("HTTP error! status: " ++ decimal status)) app)
      end
  | ImageRoute.FetchResponse true _ (Parsed data) =>
      match ChatRoute.field "message" data, asOptionalString (ChatRoute.field "model" data) with
      | Some (JString text), Ok model =>
          let assistantMessage : Message :=
            {| ConversationMessage.id := decimal (repliedNow h + 1);
               ConversationMessage.content := text;
               ConversationMessage.role := assistant;
               ConversationMessage.timestamp := Some (repliedDate h);
               ConversationMessage.model := model;
               ConversationMessage.metadata := ChatRoute.field "metadata" data |} in
          Some (setIsLoading false (pushMessage assistantMessage p),
                addMessage (replyStored h) conversationId
                  {| MessageInput.content := text;
                     MessageInput.role := assistant;
                     MessageInput.model := model;
                     MessageInput.metadata := ChatRoute.field "metadata" data |} s)
      | _, _ => None
      end
  end.

(** The [catch] and [finally] of [handleImageGeneration]. *)
Definition imageFailed (text : ErrorText) (app : App) : App :=
  let (p, s) := app in
  (setIsLoading false (setError (Some text) p), s).

Definition quote : string := String (ascii_of_nat 34) "".

(** [handleImageGeneration] from the answer to
    [fetch("/api/image-generation")] on; [None] as for
    [handleSubmit_resumed] (an [images] that is an object and not an
    array).  A null image, or a non-empty string for [images], which has
    a positive [length] and no [map], ends in the [catch]. *)
Definition handleImageGeneration_resumed (h : ReplyHost) (conversationId : option string)
  (prompt : string) (outcome : ImageRoute.FetchOutcome) (app : App) : option App :=
  let (p, s) := app in
  match outcome with
  | ImageRoute.FetchThrows message => Some (imageFailed (Text message) app)
  | ImageRoute.FetchResponse _ _ Unparseable => Some (imageFailed EngineText app)
  | ImageRoute.FetchResponse _ _ (Parsed JNull) => Some (imageFailed EngineText app)
  | ImageRoute.FetchResponse false _ (Parsed data) =>
      match ChatRoute.truthyField (ChatRoute.field "error" data) with
      | Some (JString text) => Some (imageFailed (Text text) app)
      | Some _ => None
      | None => Some (imageFailed (Text "Failed to generate image") app)
      end
  | ImageRoute.FetchResponse true _ (Parsed data) =>
      match ChatRoute.field "images" data with
      | Some (JArray (img :: imgs)) =>
          if existsb is_null (img :: imgs) then Some (imageFailed EngineText app)
          else
            let p1 := setGeneratedImages (map ImageRoute.urlOf (img :: imgs)) p in
            let imageMessage : Message :=
              {| ConversationMessage.id := decimal (repliedNow h);
                 ConversationMessage.content :=
                   "Generated image for: " ++ quote ++ prompt ++ quote;
                 ConversationMessage.role := assistant;
                 ConversationMessage.timestamp := Some (repliedDate h);
                 ConversationMessage.model := Some "flux-schnell";
                 ConversationMessage.metadata := None |} in
            let p2 := pushMessage imageMessage p1 in
            let s1 :=
              match conversationId with
              | None | Some EmptyString => s
              | Some id =>
                  addMessage (replyStored h) id
                    {| MessageInput.content := ConversationMessage.content imageMessage;
                       MessageInput.role := assistant;
                       MessageInput.model := Some "flux-schnell";
                       MessageInput.metadata := None |} s
              end in
            Some (setIsLoading false (setImagePrompt "" p2), s1)
      | Some (JString (String _ _)) => Some (imageFailed EngineText app)
      | Some (JObject _) => None
      | _ => Some (setIsLoading false (setImagePrompt "" p), s)
      end
  end.

End Page.

(* ================================================================== *)
(** ** components/conversation-sidebar *)

Module Sidebar.

Section Labels.

(** [date.toLocaleDateString()], which depends on the locale. *)
Variable toLocaleDateString : Date -> string.

(** [formatDate(date)] when [new Date()] reads [now].  The time values
    being integers, the comparisons of [diffInHours] with 1, 24 and 168
    and the two [Math.floor] give on the floating-point quotients what
    they give on the exact ones, which is what is computed here, in
    milliseconds.  Every comparison with the NaN of an invalid date is
    false. *)
Definition formatDate (now : Z) (date : Date) : string :=
  match date with
  | None => toLocaleDateString date
  | Some t =>
      let diff := now - t in
      if diff <? 3600000 then "Just now"
      else if diff <? 24 * 3600000 then decimal (diff / 3600000) ++ "h ago"
      else if diff <? 168 * 3600000 then decimal (diff / (24 * 3600000)) ++ "d ago"
      else toLocaleDateString date
  end.

End Labels.

Definition getMessageCount (conversation : Conversation.t) : nat :=
  List.length (Conversation.messages conversation).

Definition getLastMessage (conversation : Conversation.t) : string :=
  match rev (Conversation.messages conversation) with
  | [] => "No messages"
  | lastMessage :: _ =>
      let content :=
        if (50 <? String.length (ConversationMessage.content lastMessage))%nat
        then substring 0 50 (ConversationMessage.content lastMessage) ++ "..."
        else ConversationMessage.content lastMessage in
      (match ConversationMessage.role lastMessage with
       | user => "You"
       | assistant => "AI"
       end) ++ ": " ++ content
  end.

(** [handleDeleteConversation(id)] in a sidebar whose props are the
    page's [currentConversationId] and [startNewConversation]: the list
    the sidebar shows next, and the page and the store. *)
Definition handleDeleteConversation (h : Page.StartHost) (id : string) (app : Page.App)
  : list Conversation.t * Page.App :=
  let (p, s) := app in
  let s1 := deleteConversation id s in
  let conversations' := getAllConversations s1 in
  match Page.currentConversationId p with
  | Some current =>
      if String.eqb current id
      then (conversations', Page.startNewConversation h (p, s1))
      else (conversations', (p, s1))
  | None => (conversations', (p, s1))
  end.

End Sidebar.

(* ================================================================== *)
(** ** Vocabulary of the properties *)

(** The estimate of a list of messages. *)
Definition totalEstimate (l : list ConversationMessage.t) : Z :=
  fold_right (fun m acc => estimatedTokens m + acc) 0 l.

(** A selection respects the budget, or is the single message that is
    taken whatever the budget. *)
Definition withinBudget (maxTokens : Z) (l : list ConversationMessage.t) : Prop :=
  l = [] \/ List.length l = 1%nat \/ totalEstimate l <= maxTokens.

(** The conversation object after successive [addMessage] calls on it. *)
Definition appendAll (calls : list (Host * MessageInput.t)) (c : Conversation.t)
  : Conversation.t :=
  fold_left (fun acc call => appendMessage (fst call) (snd call) acc) calls c.

(** The conversation object [createConversation] builds. *)
Definition freshConversation (h : Host) (model : string) : Conversation.t :=
  {| Conversation.id := "conv_" ++ decimal (dateNow h) ++ "_" ++ random36 h;
     Conversation.title := "New Conversation";
     Conversation.messages := [];
     Conversation.model := model;
     Conversation.createdAt := Some (newDate1 h);
     Conversation.updatedAt := Some (newDate2 h) |}.

(** The conversation a sort by ascending [updatedAt] puts first: the
    earliest in the list among those the comparator ranks lowest. *)
Fixpoint leastRecentlyUpdated (l : list Conversation.t) : option Conversation.t :=
  match l with
  | [] => None
  | c :: rest =>
      match leastRecentlyUpdated rest with
      | None => Some c
      | Some o => if compare_updatedAt_asc c o <=? 0 then Some c else Some o
      end
  end.

(** Both retention limits hold. *)
Definition withinCaps (s : ConversationMemory) : Prop :=
  (Map.size (conversations s) <= 50)%nat /\
  forall k c, In (k, c) (conversations s) ->
    (List.length (Conversation.messages c) <= 100)%nat.

(** The states a [ConversationMemory] instance goes through: the one its
    constructor leaves, and those reached by calls of its methods. *)
Inductive reachable (Date_parse : string -> Date) : ConversationMemory -> Prop :=
| reachable_constructed (stored : option snapshot) (s : ConversationMemory) :
    loadFromStorage Date_parse stored emptyMemory = Some s ->
    reachable Date_parse s
| reachable_call (op : operation) (s s' : ConversationMemory) :
    reachable Date_parse s ->
    perform Date_parse op s = Some s' ->
    reachable Date_parse s'.

(** A message without its timestamp and its metadata. *)
Definition messageSansDate (m : ConversationMessage.t)
  : string * string * Role * option string :=
  (ConversationMessage.id m, ConversationMessage.content m,
   ConversationMessage.role m, ConversationMessage.model m).

(** Two conversations agree on their id, title, model and messages. *)
Definition sameUpToDates (c c' : Conversation.t) : Prop :=
  Conversation.id c = Conversation.id c' /\
  Conversation.title c = Conversation.title c' /\
  Conversation.model c = Conversation.model c' /\
  map messageSansDate (Conversation.messages c) =
  map messageSansDate (Conversation.messages c').

(** What a date becomes when it is written by [toJSON] and read back by
    [new Date]: an invalid date is written as [null], which reads as the
    epoch. *)
Definition rereadDate (Date_parse : string -> Date) (Date_toISOString : Z -> string)
  (d : Date) : Date :=
  match d with
  | Some t => Date_parse (Date_toISOString t)
  | None => Some 0
  end.

Definition rereadMessage (Date_parse : string -> Date) (Date_toISOString : Z -> string)
  (m : ConversationMessage.t) : ConversationMessage.t :=
  {| ConversationMessage.id := ConversationMessage.id m;
     ConversationMessage.content := ConversationMessage.content m;
     ConversationMessage.role := ConversationMessage.role m;
     ConversationMessage.timestamp :=
       rereadDate Date_parse Date_toISOString (ConversationMessage.timestamp m);
     ConversationMessage.model := ConversationMessage.model m;
     ConversationMessage.metadata := ConversationMessage.metadata m |}.

Definition rereadConversation (Date_parse : string -> Date)
  (Date_toISOString : Z -> string) (c : Conversation.t) : Conversation.t :=
  {| Conversation.id := Conversation.id c;
     Conversation.title := Conversation.title c;
     Conversation.messages :=
       map (rereadMessage Date_parse Date_toISOString) (Conversation.messages c);
     Conversation.model := Conversation.model c;
     Conversation.createdAt :=
       rereadDate Date_parse Date_toISOString (Conversation.createdAt c);
     Conversation.updatedAt :=
       rereadDate Date_parse Date_toISOString (Conversation.updatedAt c) |}.

(** [a] was updated no earlier than [b], both dates being valid. *)
Definition updatedNoEarlier (a b : Conversation.t) : Prop :=
  match Conversation.updatedAt a, Conversation.updatedAt b with
  | Some ta, Some tb => tb <= ta
  | _, _ => False
  end.

(** The conversation was last updated at instant [t]. *)
Definition updatedAtIs (t : Z) (c : Conversation.t) : bool :=
  match Conversation.updatedAt c with
  | Some u => u =? t
  | None => false
  end.

(** The conversations a list of revived conversations leaves in a map:
    [set] is called for each in turn. *)
Definition setAll (cs : list Conversation.t) (m : Map.t) : Map.t :=
  fold_left (fun acc c => Map.set (Conversation.id c) c acc) cs m.

(** The last conversation of a list that carries the id. *)
Definition lastWithId (id : string) (cs : list Conversation.t) : option Conversation.t :=
  find (fun c => String.eqb (Conversation.id c) id) (rev cs).

(** The messages an upstream call of the chat route carries. *)
Definition messagesOf (call : ChatRoute.UpstreamCall) : list ChatRoute.ChatMessage :=
  match call with
  | ChatRoute.ToGroq c => ChatRoute.groqMessages c
  | ChatRoute.ToOpenRouter c => ChatRoute.orMessages c
  end.

(** The characters of a string. *)
Definition chars (s : string) : list ascii := list_ascii_of_string s.

(** A character of the output of [encodeURIComponent]: one the function
    leaves as it is, or the percent sign. *)
Definition encoded (c : ascii) : Prop :=
  JsString.unreserved c = true \/ c = "%"%char.

(** A bound on the characters [encodeURIComponent] writes for a string:
    one for an unreserved character, nine for another code unit. *)
Definition encodedLength (s : JsString.utf16) : nat :=
  list_sum (map (fun u => if JsString.unreservedUnit u then 1%nat else 9%nat) s).

(** What happens to the page: the effect run when it is mounted, the
    clicks and edits of the user, and the arrival of the answer to a
    pending request.  An answer is handled with the values its handler
    closed over when it sent the request; any values are admitted here. *)
Inductive event : Type :=
| Mounted (h : Page.StartHost)
| NewConversationClicked (h : Page.StartHost)
| ConversationSelected (id : string)
| DeleteClicked (h : Page.StartHost) (id : string)
| Submitted (hs : Page.StartHost) (h : Page.SubmitHost)
| ChatAnswered (h : Page.ReplyHost) (conversationId : string)
    (outcome : ImageRoute.FetchOutcome)
| ImageAnswered (h : Page.ReplyHost) (conversationId : option string)
    (prompt : string) (outcome : ImageRoute.FetchOutcome)
| InputChanged (v : string)
| ModelChanged (v : string)
| ImageModeChanged (v : bool)
| ImagePromptChanged (v : string)
| SidebarToggled (v : bool).

(** The page and the store after an event; [None] as for
    [Page.handleSubmit_resumed]. *)
Definition handle (e : event) (app : Page.App) : option Page.App :=
  match e with
  | Mounted h => Some (Page.initConversation h app)
  | NewConversationClicked h => Some (Page.startNewConversation h app)
  | ConversationSelected id => Some (Page.handleConversationSelect id app)
  | DeleteClicked h id => Some (snd (Sidebar.handleDeleteConversation h id app))
  | Submitted hs h => Some (fst (Page.handleSubmit hs h app))
  | ChatAnswered h conversationId outcome =>
      Page.handleSubmit_resumed h conversationId outcome app
  | ImageAnswered h conversationId prompt outcome =>
      Page.handleImageGeneration_resumed h conversationId prompt outcome app
  | InputChanged v => Some (Page.setInput v (fst app), snd app)
  | ModelChanged v => Some (Page.setSelectedModel v (fst app), snd app)
  | ImageModeChanged v => Some (Page.setIsImageMode v (fst app), snd app)
  | ImagePromptChanged v => Some (Page.setImagePrompt v (fst app), snd app)
  | SidebarToggled v => Some (Page.setIsSidebarOpen v (fst app), snd app)
  end.

Fixpoint handleAll (events : list event) (app : Page.App) : option Page.App :=
  match events with
  | [] => Some app
  | e :: rest =>
      match handle e app with
      | Some app' => handleAll rest app'
      | None => None
      end
  end.

(** Every stored conversation carries the title it was created with and
    holds a message. *)
Definition untitled (s : ConversationMemory) : Prop :=
  forall id c, getConversation id s = Some c ->
    Conversation.title c = "New Conversation" /\ Conversation.messages c <> [].

(* ================================================================== *)
(** ** Sample data *)

(** A host whose clock reads [t] throughout a call. *)
Definition hostAt (t : Z) (random : string) : Host :=
  {| dateNow := t; random36 := random; newDate1 := t; newDate2 := t |}.

Definition sampleMessage (n : nat) : ConversationMessage.t :=
  {| ConversationMessage.id := "msg_" ++ decimal (Z.of_nat n) ++ "_s";
     ConversationMessage.content := "message " ++ decimal (Z.of_nat n);
     ConversationMessage.role := if Nat.even n then user else assistant;
     ConversationMessage.timestamp := Some (Z.of_nat n);
     ConversationMessage.model := None;
     ConversationMessage.metadata := None |}.

(** Conversation number [n], with [count] messages, updated at [t]. *)
Definition sampleConversation (n count : nat) (t : Z) : Conversation.t :=
  {| Conversation.id := "c" ++ decimal (Z.of_nat n);
     Conversation.title := "Sample";
     Conversation.messages := map sampleMessage (seq 0 count);
     Conversation.model := "llama3-8b-8192";
     Conversation.createdAt := Some t;
     Conversation.updatedAt := Some t |}.

(** A store of [size] conversations, all updated at [t]. *)
Definition sampleMemory (size count : nat) (t : Z) : ConversationMemory :=
  {| conversations :=
       map (fun n => ("c" ++ decimal (Z.of_nat n), sampleConversation n count t))
           (seq 0 size);
     currentConversationId := None |}.

(** The snapshot such a store exports: a JSON array of [size]
    conversation objects of [count] messages each. *)
Definition sampleSnapshot (size count : nat) (t : Z) : snapshot :=
  exportConversations Iso.toISOString (sampleMemory size count t).

Definition sampleCalls (count : nat) : list (Host * MessageInput.t) :=
  map (fun n =>
         (hostAt (Z.of_nat n) "r",
          {| MessageInput.content := "message " ++ decimal (Z.of_nat n);
             MessageInput.role := if Nat.even n then user else assistant;
             MessageInput.model := None;
             MessageInput.metadata := None |}))
      (seq 0 count).

(** [`${Number(part)}`] on strings of decimal digits (below 1e21) and on
    the empty string; every other string is answered NaN here. *)
Definition sampleNumberText (part : string) : string :=
  match Iso.digitsValue part 0 with
  | Some v => decimal v
  | None => "NaN"
  end.

(** [toLowerCase] on A-Z and on the accented capitals U+00C0-U+00DE, the
    multiplication sign excepted; every other code unit is left as it is
    here. *)
Definition sampleLowerCase (s : JsString.utf16) : JsString.utf16 :=
  map (fun u =>
         if (65 <=? u) && (u <=? 90) || (192 <=? u) && (u <=? 222) && negb (u =? 215)
         then u + 32
         else u) s.

(** The Number 0.5. *)
Definition sampleRandom : JsNumber.number :=
  PrimFloat.div (JsNumber.ofZ 1) (JsNumber.ofZ 2).

Definition sampleEnv (keys : list string) : ImageRoute.Env :=
  {| ImageRoute.OPENROUTER_API_KEYS := keys;
     ImageRoute.NEXT_PUBLIC_SITE_URL := None;
     ImageRoute.NEXT_PUBLIC_SITE_NAME := None |}.

(** A world whose upstream answers every call with [outcome]. *)
Definition sampleWorld (outcome : ImageRoute.FetchOutcome) : ImageRoute.World :=
  {| ImageRoute.random := sampleRandom;
     ImageRoute.fetch := fun _ => outcome;
     ImageRoute.now := 1704067200000 |}.

Definition sampleImageRequest (prompt : string) : string + ImageRoute.RequestBody :=
  inr {| ImageRoute.prompt := Some (ImageRoute.PromptText (JsString.ofString prompt));
         ImageRoute.model := None;
         ImageRoute.options := ImageRoute.Absent |}.

(** A request with the given prompt and options, for the default model. *)
Definition sampleImageBody (prompt : ImageRoute.Prompt)
  (options : ImageRoute.Defaulted ImageRoute.Options) : string + ImageRoute.RequestBody :=
  inr {| ImageRoute.prompt := Some prompt;
         ImageRoute.model := None;
         ImageRoute.options := options |}.

(** A prompt of 102 code units: 99 letters, the two surrogates of
    U+1F600 and a letter.  Cut after 100 code units it ends with the lead
    surrogate alone. *)
Definition sampleSplitPrompt : JsString.utf16 :=
  (repeat 97 99 ++ [55357; 56832; 98])%list.

(** A conversation is created and two messages are appended to it. *)
Definition sampleOps : list operation :=
  [CreateConversation (hostAt 1704067200000 "k3x9q2m1z") "llama3-8b-8192";
   AddMessage (hostAt 1704067200500 "a") "conv_1704067200000_k3x9q2m1z"
     (MessageInput.mk "Hello" user None None);
   AddMessage (hostAt 1704067201000 "b") "conv_1704067200000_k3x9q2m1z"
     (MessageInput.mk "Hi there" assistant (Some "llama3-8b-8192") None)].

(** Fifty conversations are created, at instants 0 to 49. *)
Definition sampleCreations : list operation :=
  map (fun n => CreateConversation (hostAt (Z.of_nat n) "r") "m") (seq 0 50).

(** The store these creations leave. *)
Definition sampleFull : ConversationMemory :=
  {| conversations :=
       map (fun n =>
              ("conv_" ++ decimal (Z.of_nat n) ++ "_r",
               freshConversation (hostAt (Z.of_nat n) "r") "m"))
           (seq 0 50);
     currentConversationId := Some "conv_49_r" |}.

(** A snapshot of fifty conversations updated on 2025-01-01, imported
    before a conversation is created on 2024-01-01. *)
Definition sampleLaterDated : list operation :=
  [ImportConversations (sampleSnapshot 50 0 1735689600000);
   CreateConversation (hostAt 1704067200000 "k3x9q2m1z") "llama3-8b-8192"].

(** Three conversations, the first and the third updated at instant 30
    and the second at instant 10. *)
Definition sampleDated : ConversationMemory :=
  {| conversations :=
       [("c0", sampleConversation 0 1 30);
        ("c1", sampleConversation 1 1 10);
        ("c2", sampleConversation 2 1 30)];
     currentConversationId := None |}.

(** The store after [sampleOps] on the empty store. *)
Definition sampleTalk : ConversationMemory :=
  match performAll Iso.parse sampleOps emptyMemory with
  | Some s => s
  | None => emptyMemory
  end.

(** A snapshot whose second and third element carry the same id. *)
Definition sampleRepeated : snapshot :=
  Parsed (JArray
    [conversationToJSON Iso.toISOString (sampleConversation 0 1 1704067200000);
     conversationToJSON Iso.toISOString (sampleConversation 1 1 1704067200000);
     conversationToJSON Iso.toISOString (sampleConversation 1 2 1704067300000)]).

(** An upstream answering every chat call with a rate-limit error. *)
Definition sampleLimited : ChatRoute.ChatWorld :=
  {| ChatRoute.random := sampleRandom;
     ChatRoute.generateText := fun _ => ChatRoute.GenerateThrows "unreachable";
     ChatRoute.fetch := fun _ =>
       ImageRoute.FetchResponse false 429
         (Parsed (JObject
            [("error", JObject [("message", JString "Rate limit exceeded");
                                ("code", JNum (inject_Z 429))])])) |}.

Definition sampleChatRequest (model : string) : ChatRoute.ChatRequest :=
  {| ChatRoute.message := Some "Hi";
     ChatRoute.messages := ChatRoute.NoMessages;
     ChatRoute.model := Some model;
     ChatRoute.options := ImageRoute.Absent |}.

(** The call the chat route makes for [sampleChatRequest "openai/gpt-4o"]
    under the key "sk-or-1". *)
Definition sampleOpenRouterCall : ChatRoute.OpenRouterCall :=
  {| ChatRoute.authorization := "Bearer sk-or-1";
     ChatRoute.referer := "http://localhost:3000";
     ChatRoute.xTitle := "MOD AI Assistant";
     ChatRoute.orModel := "openai/gpt-4o";
     ChatRoute.orMessages :=
       [ChatRoute.systemPrompt;
        {| ChatRoute.role := "user"; ChatRoute.content := "Hi" |}];
     ChatRoute.orTemperature := 7 # 10;
     ChatRoute.max_tokens := 2000;
     ChatRoute.stream := false |}.

(** A recording sent for translation, its language left to the server. *)
Definition sampleForm : AudioRoute.Form :=
  {| AudioRoute.file := Some (AudioRoute.mkFile "memo.webm" "audio/webm" "RIFF");
     AudioRoute.action := Some "translate";
     AudioRoute.model := None;
     AudioRoute.language := Some "auto";
     AudioRoute.temperature := Some "0" |}.

Definition sampleAudioCall : AudioRoute.UpstreamCall :=
  {| AudioRoute.endpoint := AudioRoute.TRANSLATIONS;
     AudioRoute.authorization := "Bearer gsk";
     AudioRoute.form :=
       [("file", AudioRoute.FileEntry (AudioRoute.mkFile "memo.webm" "audio/webm" "RIFF"));
        ("model", AudioRoute.TextEntry "whisper-large-v3");
        ("temperature", AudioRoute.TextEntry "0")] |}.

(** An upstream answering every audio call with a rate-limit error. *)
Definition sampleAudioLimited : AudioRoute.AudioWorld :=
  {| AudioRoute.fetch := fun _ =>
       ImageRoute.FetchResponse false 429
         (Parsed (JObject
            [("error", JObject [("message", JString "Rate limit exceeded")])])) |}.

(** An upstream delivering one image. *)
Definition sampleDelivered : ImageRoute.FetchOutcome :=
  ImageRoute.FetchResponse true 200
    (Parsed (JObject
       [("data", JArray [JObject [("url", JString "https://img.example/1.png")]])])).

Definition sampleStart (t : Z) : Page.StartHost :=
  {| Page.created := hostAt t "k3x9q2m1z";
     Page.welcomed := t;
     Page.welcomeStored := hostAt t "w" |}.

Definition sampleSubmit (t : Z) : Page.SubmitHost :=
  {| Page.submittedNow := t;
     Page.submittedDate := t;
     Page.userStored := hostAt t "u" |}.

Definition sampleReply (t : Z) : Page.ReplyHost :=
  {| Page.repliedNow := t;
     Page.repliedDate := t;
     Page.replyStored := hostAt t "a" |}.

(** The page is mounted on an empty store; the user types a message and
    submits it; the chat route answers. *)
Definition sampleSession : list event :=
  [Mounted (sampleStart 1704067200000);
   InputChanged "What is a monad?";
   Submitted (sampleStart 1704067201000) (sampleSubmit 1704067201000);
   ChatAnswered (sampleReply 1704067203000) "conv_1704067200000_k3x9q2m1z"
     (ImageRoute.FetchResponse true 200
        (Parsed (JObject
           [("message", JString "A monoid in the category of endofunctors.");
            ("model", JString "deepseek/deepseek-r1-0528:free");
            ("provider", JString "OpenRouter")])))].

(** The page showing conversation "c0" of [sampleDated], with a message
    typed in. *)
Definition sampleTyped : Page.State :=
  Page.setInput "And then?"
    (Page.setCurrentConversationId (Some "c0") Page.initialState).

(* ================================================================== *)
(** * Properties *)

(** ** Lists *)

Lemma last_app_nonempty {A : Type} (l1 l2 : list A) (d : A) :
  l2 <> [] -> last (l1 ++ l2)%list d = last l2 d.
Proof.
  intros Hne. induction l1 as [|x l1 IH]; [reflexivity|].
  simpl. rewrite IH.
  destruct (l1 ++ l2)%list eqn:E; [|reflexivity].
  apply app_eq_nil in E as [_ E]. contradiction.
Qed.

Lemma Some_eq_inv {A : Type} (a b : A) : Some a = Some b -> a = b.
Proof. congruence. Qed.

(** ** The context window: [getContextMessages] *)

(** The estimate is the ceiling of a quarter of the content's length. *)
Lemma estimatedTokens_ceiling (m : ConversationMessage.t) :
  let n := Z.of_nat (String.length (ConversationMessage.content m)) in
  4 * (estimatedTokens m - 1) < n <= 4 * estimatedTokens m.
Proof.
  cbv zeta. unfold estimatedTokens.
  set (n := Z.of_nat _).
  pose proof (Z.div_mod (n + 3) 4 ltac:(lia)).
  pose proof (Z.mod_pos_bound (n + 3) 4 ltac:(lia)). lia.
Qed.

(** The loop from any point of the walk.  [newest_first] is still to
    visit, [ctx] is selected already and [totalTokens] is its estimate.
    The messages still to visit split, in chronological order, into those
    [skipped] by the break and those [taken] before it. *)
Lemma contextLoop_inv (maxTokens : Z) :
  forall (newest_first ctx : list ConversationMessage.t),
    withinBudget maxTokens ctx ->
    exists skipped taken : list ConversationMessage.t,
      rev newest_first = (skipped ++ taken)%list /\
      contextLoop maxTokens newest_first (totalEstimate ctx) ctx = (taken ++ ctx)%list /\
      withinBudget maxTokens (taken ++ ctx)%list /\
      (newest_first <> [] -> (taken ++ ctx)%list <> []) /\
      (skipped = [] \/
       exists older next, skipped = (older ++ [next])%list /\
         totalEstimate (taken ++ ctx)%list + estimatedTokens next > maxTokens).
Proof.
  induction newest_first as [|m older IH]; intros ctx Hctx.
  - exists [], []. simpl. repeat split; auto.
  - simpl contextLoop.
    destruct ((totalEstimate ctx + estimatedTokens m >? maxTokens)
              && (0 <? List.length ctx)%nat) eqn:Hbreak.
    + apply andb_true_iff in Hbreak as [Hover Hne].
      apply Z.gtb_lt in Hover. apply Nat.ltb_lt in Hne.
      exists (rev (m :: older)), []. simpl.
      rewrite app_nil_r. repeat split; auto.
      * intros _ ->. simpl in Hne. lia.
      * right. exists (rev older), m. split; [reflexivity | lia].
    + assert (Hctx' : withinBudget maxTokens (m :: ctx)).
      { apply andb_false_iff in Hbreak as [Hfit | Hempty].
        - right; right. simpl. rewrite Z.gtb_ltb, Z.ltb_ge in Hfit. lia.
        - apply Nat.ltb_ge in Hempty. destruct ctx; simpl in Hempty; [|lia].
          right; left. reflexivity. }
      replace (totalEstimate ctx + estimatedTokens m)
        with (totalEstimate (m :: ctx)) by (simpl; lia).
      destruct (IH (m :: ctx) Hctx') as (skipped & taken & Hsplit & Hres & Hin & _ & Hstop).
      exists skipped, (taken ++ [m])%list.
      rewrite <- !app_assoc. simpl.
      repeat split; auto.
      * rewrite Hsplit, <- app_assoc. reflexivity.
      * intros _ H. apply app_eq_nil in H as [_ H]. discriminate.
Qed.

Lemma getContextMessages_unknown (s : ConversationMemory) (conversationId : string)
  (maxTokens : option Z) :
  getConversation conversationId s = None ->
  getContextMessages conversationId maxTokens s = [].
Proof. unfold getConversation, getContextMessages. intros ->. reflexivity. Qed.

Lemma getContextMessages_empty (s : ConversationMemory) (conversationId : string)
  (maxTokens : option Z) (conversation : Conversation.t) :
  getConversation conversationId s = Some conversation ->
  Conversation.messages conversation = [] ->
  getContextMessages conversationId maxTokens s = [].
Proof.
  unfold getConversation, getContextMessages. intros -> ->. reflexivity.
Qed.

(** C1.  For every store, conversation id and token budget (given or
    defaulted), when the id names a conversation with at least one message
    the result of [getContextMessages] is a non-empty suffix of the
    conversation's messages, in their stored (chronological) order and
    ending with the most recent one.  It is the suffix the walk from the
    most recent message selects: either it is that single message, which
    is taken whatever the budget, or its estimate, with
    ceil(length(content)/4) per message, is within the budget; and when a
    message was left out, adding the newest of those left out would exceed
    the budget. *)
Theorem getContextMessages_suffix_within_budget
  (s : ConversationMemory) (conversationId : string) (maxTokens : option Z)
  (conversation : Conversation.t) :
  Map.get conversationId (conversations s) = Some conversation ->
  Conversation.messages conversation <> [] ->
  let budget := match maxTokens with Some b => b | None => 4000 end in
  let result := getContextMessages conversationId maxTokens s in
  exists dropped : list ConversationMessage.t,
    Conversation.messages conversation = (dropped ++ result)%list /\
    result <> [] /\
    (forall d, last result d = last (Conversation.messages conversation) d) /\
    (forall m,
       4 * (estimatedTokens m - 1)
         < Z.of_nat (String.length (ConversationMessage.content m))
         <= 4 * estimatedTokens m) /\
    (List.length result = 1%nat \/ totalEstimate result <= budget) /\
    (dropped = [] \/
     exists older next, dropped = (older ++ [next])%list /\
       totalEstimate result + estimatedTokens next > budget).
Proof.
  intros Hget Hne budget result.
  assert (Hw : withinBudget budget []) by (left; reflexivity).
  destruct (contextLoop_inv budget (rev (Conversation.messages conversation)) [] Hw)
    as (skipped & taken & Hsplit & Hres & Hin & Hnonempty & Hstop).
  rewrite rev_involutive in Hsplit. rewrite app_nil_r in *.
  assert (Hresult : result = taken).
  { unfold result, getContextMessages. rewrite Hget. exact Hres. }
  rewrite Hresult.
  assert (Htaken : taken <> []).
  { apply Hnonempty. intros H. apply Hne.
    rewrite <- (rev_involutive (Conversation.messages conversation)), H.
    reflexivity. }
  exists skipped. repeat split.
  - exact Hsplit.
  - exact Htaken.
  - intros d. rewrite Hsplit. symmetry. apply last_app_nonempty. exact Htaken.
  - apply estimatedTokens_ceiling.
  - apply estimatedTokens_ceiling.
  - destruct Hin as [H | H]; [contradiction | exact H].
  - exact Hstop.
Qed.

(** ** The map of conversations *)

Lemma slice_last_short {A : Type} (n : nat) (l : list A) :
  (List.length l <= n)%nat -> slice_last n l = l.
Proof.
  intros H. unfold slice_last.
  replace (List.length l - n)%nat with 0%nat by lia. reflexivity.
Qed.

Lemma slice_last_length {A : Type} (n : nat) (l : list A) :
  List.length (slice_last n l) = Nat.min n (List.length l).
Proof. unfold slice_last. rewrite length_skipn. lia. Qed.

(** The elements a slice leaves out come first, the slice follows. *)
Lemma slice_last_suffix {A : Type} (n : nat) (l : list A) :
  l = (firstn (List.length l - n) l ++ slice_last n l)%list.
Proof. unfold slice_last. symmetry. apply firstn_skipn. Qed.

Lemma slice_last_app_long {A : Type} (n : nat) (l1 l2 : list A) :
  (n <= List.length l2)%nat -> slice_last n (l1 ++ l2)%list = slice_last n l2.
Proof.
  intros H. unfold slice_last.
  rewrite skipn_app, length_app.
  rewrite skipn_all2 by lia. simpl. f_equal. lia.
Qed.

(** Slicing before appending more does not change the final slice. *)
Lemma slice_last_app_slice {A : Type} (n : nat) (l1 l2 : list A) :
  slice_last n (slice_last n l1 ++ l2)%list = slice_last n (l1 ++ l2)%list.
Proof.
  destruct (Nat.le_gt_cases (List.length l1) n) as [Hshort | Hlong].
  - rewrite (slice_last_short n l1) by exact Hshort. reflexivity.
  - rewrite (slice_last_suffix n l1) at 2.
    rewrite <- app_assoc.
    set (kept := (slice_last n l1 ++ l2)%list).
    assert (Hkept : (n <= List.length kept)%nat).
    { unfold kept. rewrite length_app, slice_last_length. lia. }
    symmetry. apply slice_last_app_long. exact Hkept.
Qed.

Lemma get_replace_same (key : string) (value : Conversation.t) (m : Map.t) :
  Map.get key m <> None -> Map.get key (Map.replace key value m) = Some value.
Proof.
  induction m as [|[k v] m IH]; simpl; intros H; [contradiction|].
  destruct (String.eqb k key) eqn:E; simpl; rewrite E; auto.
Qed.

Lemma get_replace_other (key key' : string) (value : Conversation.t) (m : Map.t) :
  key' <> key -> Map.get key' (Map.replace key value m) = Map.get key' m.
Proof.
  intros Hneq. induction m as [|[k v] m IH]; simpl; [reflexivity|].
  destruct (String.eqb k key) eqn:E; simpl.
  - apply String.eqb_eq in E. subst k.
    destruct (String.eqb key key') eqn:E'; [|reflexivity].
    apply String.eqb_eq in E'. congruence.
  - rewrite IH. reflexivity.
Qed.

Lemma keys_replace (key : string) (value : Conversation.t) (m : Map.t) :
  Map.keys (Map.replace key value m) = Map.keys m.
Proof.
  unfold Map.keys.
  induction m as [|[k v] m IH]; simpl; [reflexivity|].
  destruct (String.eqb k key); simpl; [reflexivity|].
  f_equal. exact IH.
Qed.

Lemma length_replace (key : string) (value : Conversation.t) (m : Map.t) :
  List.length (Map.replace key value m) = List.length m.
Proof.
  rewrite <- (length_map fst (Map.replace key value m)), <- (length_map fst m).
  f_equal. apply keys_replace.
Qed.

Lemma get_In (key : string) (c : Conversation.t) (m : Map.t) :
  Map.get key m = Some c -> In (key, c) m.
Proof.
  induction m as [|[k v] m IH]; simpl; [discriminate|].
  destruct (String.eqb k key) eqn:E.
  - apply String.eqb_eq in E. intros [= ->]. left. congruence.
  - intros H. right. auto.
Qed.

Lemma get_None_keys (key : string) (m : Map.t) :
  Map.get key m = None <-> ~ In key (Map.keys m).
Proof.
  induction m as [|[k v] m IH]; simpl; [tauto|].
  destruct (String.eqb k key) eqn:E.
  - apply String.eqb_eq in E. split; [discriminate | intros H; exfalso; auto].
  - apply String.eqb_neq in E. rewrite IH. unfold Map.keys. tauto.
Qed.

Lemma get_app (key : string) (m1 m2 : Map.t) :
  Map.get key (m1 ++ m2)%list =
  match Map.get key m1 with
  | Some c => Some c
  | None => Map.get key m2
  end.
Proof.
  induction m1 as [|[k v] m1 IH]; simpl; [reflexivity|].
  destruct (String.eqb k key); [reflexivity | exact IH].
Qed.

Lemma get_set_same (key : string) (value : Conversation.t) (m : Map.t) :
  Map.get key (Map.set key value m) = Some value.
Proof.
  unfold Map.set, Map.has.
  destruct (Map.get key m) eqn:Hget.
  - apply get_replace_same. rewrite Hget. discriminate.
  - rewrite get_app, Hget. simpl. rewrite String.eqb_refl. reflexivity.
Qed.

Lemma get_set_other (key key' : string) (value : Conversation.t) (m : Map.t) :
  key' <> key -> Map.get key' (Map.set key value m) = Map.get key' m.
Proof.
  intros Hneq. unfold Map.set.
  destruct (Map.has key m).
  - apply get_replace_other. exact Hneq.
  - rewrite get_app. destruct (Map.get key' m); [reflexivity|].
    simpl. destruct (String.eqb key key') eqn:E; [|reflexivity].
    apply String.eqb_eq in E. congruence.
Qed.

Lemma get_delete (key key' : string) (m : Map.t) :
  Map.get key' (Map.delete key m) =
  if String.eqb key' key then None else Map.get key' m.
Proof.
  unfold Map.delete.
  induction m as [|[k v] m IH]; simpl.
  - destruct (String.eqb key' key); reflexivity.
  - destruct (String.eqb k key) eqn:Ek; simpl.
    + apply String.eqb_eq in Ek. subst k. rewrite IH.
      rewrite (String.eqb_sym key key').
      destruct (String.eqb key' key); reflexivity.
    + destruct (String.eqb k key') eqn:Ek'.
      * apply String.eqb_eq in Ek'. subst k. rewrite Ek. reflexivity.
      * exact IH.
Qed.

(** ** Appending messages: [addMessage] *)

Lemma appendMessage_messages (h : Host) (message : MessageInput.t) (c : Conversation.t) :
  Conversation.messages (appendMessage h message c) =
  slice_last MAX_MESSAGES_PER_CONVERSATION
    (Conversation.messages c ++ [storedMessage (h, message)])%list.
Proof.
  unfold appendMessage, storedMessage. cbn [Conversation.messages].
  match goal with
  | |- context [Nat.ltb ?a ?b] => destruct (Nat.ltb_spec a b) as [Hlong | Hshort]
  end.
  - reflexivity.
  - symmetry. apply slice_last_short. exact Hshort.
Qed.

Lemma appendMessage_title (h : Host) (message : MessageInput.t) (c : Conversation.t) :
  Conversation.title (appendMessage h message c) =
  match Conversation.messages c, MessageInput.role message with
  | [], user => titleOf (MessageInput.content message)
  | _, _ => Conversation.title c
  end.
Proof.
  unfold appendMessage. cbn [Conversation.title].
  rewrite length_app. simpl List.length.
  destruct (Conversation.messages c) as [|m0 rest]; simpl.
  - reflexivity.
  - rewrite Nat.add_1_r. destruct rest; reflexivity.
Qed.

Lemma addMessage_get (h : Host) (id : string) (message : MessageInput.t)
  (s : ConversationMemory) (c : Conversation.t) :
  Map.get id (conversations s) = Some c ->
  Map.get id (conversations (addMessage h id message s)) =
  Some (appendMessage h message c).
Proof.
  intros Hget. unfold addMessage. rewrite Hget. simpl.
  apply get_replace_same. rewrite Hget. discriminate.
Qed.

Lemma addMessages_get (id : string) (calls : list (Host * MessageInput.t)) :
  forall (s : ConversationMemory) (c : Conversation.t),
    Map.get id (conversations s) = Some c ->
    Map.get id (conversations (addMessages id calls s)) = Some (appendAll calls c).
Proof.
  induction calls as [|[h message] rest IH]; intros s c Hget; simpl.
  - exact Hget.
  - apply IH. apply addMessage_get. exact Hget.
Qed.

Lemma appendAll_messages (calls : list (Host * MessageInput.t)) :
  forall c : Conversation.t,
    calls <> [] ->
    Conversation.messages (appendAll calls c) =
    slice_last MAX_MESSAGES_PER_CONVERSATION
      (Conversation.messages c ++ map storedMessage calls)%list.
Proof.
  induction calls as [|[h message] rest IH]; intros c Hne; [contradiction|].
  unfold appendAll. simpl fold_left. fold (appendAll rest (appendMessage h message c)).
  destruct rest as [|call rest'].
  - simpl. apply appendMessage_messages.
  - rewrite IH by discriminate.
    rewrite appendMessage_messages, slice_last_app_slice, <- app_assoc.
    reflexivity.
Qed.

(** Later appends leave the title alone. *)
Lemma appendAll_title_nonempty (calls : list (Host * MessageInput.t)) :
  forall c : Conversation.t,
    Conversation.messages c <> [] ->
    Conversation.title (appendAll calls c) = Conversation.title c.
Proof.
  induction calls as [|[h message] rest IH]; intros c Hne; [reflexivity|].
  unfold appendAll. simpl fold_left. fold (appendAll rest (appendMessage h message c)).
  rewrite IH.
  - rewrite appendMessage_title.
    destruct (Conversation.messages c); [contradiction | reflexivity].
  - rewrite appendMessage_messages. intros H.
    apply (f_equal (@List.length _)) in H.
    rewrite slice_last_length, length_app in H.
    unfold MAX_MESSAGES_PER_CONVERSATION in H. cbn [List.length] in H. lia.
Qed.

Lemma substring_all (n : nat) (s : string) :
  (String.length s <= n)%nat -> substring 0 n s = s.
Proof.
  revert n. induction s as [|ch s IH]; intros n Hlen.
  - destruct n; reflexivity.
  - destruct n; simpl in *; [lia|]. rewrite IH by lia. reflexivity.
Qed.

Lemma append_empty_r (s : string) : s ++ "" = s.
Proof. induction s as [|ch s IH]; simpl; [|rewrite IH]; reflexivity. Qed.

Lemma titleOf_short (content : string) :
  (String.length content <= 50)%nat -> titleOf content = content.
Proof.
  intros H. unfold titleOf.
  destruct (Nat.ltb_spec 50 (String.length content)); [lia|].
  rewrite substring_all by exact H. apply append_empty_r.
Qed.

Lemma titleOf_long (content : string) :
  (50 < String.length content)%nat ->
  titleOf content = substring 0 50 content ++ "...".
Proof.
  intros H. unfold titleOf.
  destruct (Nat.ltb_spec 50 (String.length content)); [reflexivity | lia].
Qed.

(** C2.  For every store, every conversation in it and every non-empty
    sequence of [addMessage] calls on that conversation: after each of
    the calls the conversation holds at most 100 messages; after all of
    them its messages are the tail of what it held before followed by the
    appended messages, in that order; and once 100 or more messages have
    been appended, they are exactly the last 100 appended messages, in
    append order. *)
Theorem addMessage_keeps_most_recent
  (s : ConversationMemory) (id : string) (c : Conversation.t)
  (calls : list (Host * MessageInput.t)) :
  Map.get id (conversations s) = Some c ->
  calls <> [] ->
  exists c' : Conversation.t,
    Map.get id (conversations (addMessages id calls s)) = Some c' /\
    (forall n, (1 <= n <= List.length calls)%nat ->
       exists cn,
         Map.get id (conversations (addMessages id (firstn n calls) s)) = Some cn /\
         (List.length (Conversation.messages cn) <= 100)%nat) /\
    (exists dropped,
       (Conversation.messages c ++ map storedMessage calls)%list =
       (dropped ++ Conversation.messages c')%list /\
       List.length (Conversation.messages c') =
       Nat.min 100 (List.length (Conversation.messages c) + List.length calls)) /\
    ((100 <= List.length calls)%nat ->
     exists dropped,
       map storedMessage calls = (dropped ++ Conversation.messages c')%list /\
       List.length (Conversation.messages c') = 100%nat).
Proof.
  intros Hget Hne.
  exists (appendAll calls c).
  split; [apply addMessages_get; exact Hget|].
  split.
  { intros n Hn. exists (appendAll (firstn n calls) c).
    split; [apply addMessages_get; exact Hget|].
    rewrite appendAll_messages.
    - rewrite slice_last_length. unfold MAX_MESSAGES_PER_CONVERSATION. lia.
    - destruct n; [lia|]. destruct calls; [contradiction | discriminate]. }
  rewrite (appendAll_messages calls c Hne).
  unfold MAX_MESSAGES_PER_CONVERSATION.
  split.
  - eexists. split; [apply slice_last_suffix|].
    rewrite slice_last_length, length_app, length_map. reflexivity.
  - intros Hlong.
    rewrite slice_last_app_long by (rewrite length_map; exact Hlong).
    eexists. split; [apply slice_last_suffix|].
    rewrite slice_last_length, length_map. lia.
Qed.

(** ** The title *)

Lemma createConversation_id (h : Host) (model : string) (s : ConversationMemory) :
  fst (createConversation h model s) = Conversation.id (freshConversation h model).
Proof. reflexivity. Qed.

(** Whatever is stored under the returned id after the call is the new
    conversation. *)
Lemma createConversation_get (h : Host) (model : string) (s : ConversationMemory)
  (c : Conversation.t) :
  Map.get (fst (createConversation h model s))
          (conversations (snd (createConversation h model s))) = Some c ->
  c = freshConversation h model.
Proof.
  unfold createConversation. cbn [fst snd conversations].
  fold (freshConversation h model).
  set (id := "conv_" ++ decimal (dateNow h) ++ "_" ++ random36 h).
  set (m1 := Map.set id (freshConversation h model) (conversations s)).
  assert (H1 : Map.get id m1 = Some (freshConversation h model))
    by apply get_set_same.
  destruct (MAX_CONVERSATIONS <? Map.size m1)%nat.
  - destruct (sort compare_updatedAt_asc (Map.values m1)) as [|oldest rest].
    + rewrite H1. congruence.
    + rewrite get_delete.
      destruct (String.eqb id (Conversation.id oldest)); [discriminate|].
      rewrite H1. congruence.
  - rewrite H1. congruence.
Qed.

(** The conversation [createConversation] stores has the title "New
    Conversation".  After any non-empty sequence of [addMessage] calls on
    it, its title is decided by the first call alone: for role user, the
    first 50 characters of the content followed by "..." when the content
    is longer than 50 characters and the whole content otherwise; for role
    assistant, still "New Conversation".  No later call changes it. *)
Lemma title_written_by_first_user_message
  (h : Host) (model : string) (s : ConversationMemory)
  (first : Host * MessageInput.t) (later : list (Host * MessageInput.t))
  (c0 : Conversation.t) :
  let id := fst (createConversation h model s) in
  let s1 := snd (createConversation h model s) in
  Map.get id (conversations s1) = Some c0 ->
  Conversation.title c0 = "New Conversation" /\
  exists c : Conversation.t,
    Map.get id (conversations (addMessages id (first :: later) s1)) = Some c /\
    Conversation.title c =
    match MessageInput.role (snd first) with
    | user =>
        let content := MessageInput.content (snd first) in
        if (50 <? String.length content)%nat
        then substring 0 50 content ++ "..."
        else content
    | assistant => "New Conversation"
    end.
Proof.
  intros id s1 Hget.
  pose proof (createConversation_get h model s c0 Hget) as ->.
  split; [reflexivity|].
  exists (appendAll (first :: later) (freshConversation h model)).
  split; [apply addMessages_get; exact Hget|].
  destruct first as [h1 message]. unfold appendAll. simpl fold_left.
  fold (appendAll later (appendMessage h1 message (freshConversation h model))).
  rewrite appendAll_title_nonempty.
  - rewrite appendMessage_title. cbn [Conversation.messages freshConversation snd].
    destruct (MessageInput.role message); [|reflexivity].
    cbv zeta.
    destruct (Nat.ltb_spec 50 (String.length (MessageInput.content message))).
    + apply titleOf_long. assumption.
    + apply titleOf_short. assumption.
  - rewrite appendMessage_messages. cbn [Conversation.messages freshConversation].
    discriminate.
Qed.

(** C7.  The title is written by the first [addMessage] call on a
    conversation or not at all, the test being [messages.length === 1].
    When the first message appended to a new conversation is from the
    assistant, the user message that follows it does not write the
    title: after it, and after every later append, the title is still
    "New Conversation", and so it differs from the title the first user
    message would give whenever that is not the placeholder itself. *)
Theorem user_message_after_assistant_leaves_title
  (h : Host) (model : string) (s : ConversationMemory)
  (greeting question : Host * MessageInput.t) (later : list (Host * MessageInput.t))
  (c0 : Conversation.t) :
  let id := fst (createConversation h model s) in
  let s1 := snd (createConversation h model s) in
  Map.get id (conversations s1) = Some c0 ->
  MessageInput.role (snd greeting) = assistant ->
  MessageInput.role (snd question) = user ->
  exists c : Conversation.t,
    Map.get id (conversations (addMessages id (greeting :: question :: later) s1))
    = Some c /\
    Conversation.title c = "New Conversation" /\
    (titleOf (MessageInput.content (snd question)) <> "New Conversation" ->
     Conversation.title c <> titleOf (MessageInput.content (snd question))).
Proof.
  intros id s1 Hget Hgreeting _.
  destruct (title_written_by_first_user_message h model s greeting (question :: later)
              c0 Hget) as (_ & c & Hc & Htitle).
  rewrite Hgreeting in Htitle.
  exists c. split; [exact Hc|]. split; [exact Htitle|].
  intros Hne. rewrite Htitle. congruence.
Qed.

(** ** Keys of the map *)

Lemma In_replace (key : string) (value : Conversation.t) (m : Map.t)
  (k : string) (c : Conversation.t) :
  In (k, c) (Map.replace key value m) -> (k = key /\ c = value) \/ In (k, c) m.
Proof.
  induction m as [|[k0 v0] m IH]; simpl; [tauto|].
  destruct (String.eqb k0 key) eqn:E; simpl.
  - apply String.eqb_eq in E. subst k0.
    intros [[= <- <-] | H]; auto.
  - intros [H | H]; auto. destruct (IH H); auto.
Qed.

Lemma keys_delete (key : string) (m : Map.t) :
  Map.keys (Map.delete key m) =
  filter (fun k => negb (String.eqb k key)) (Map.keys m).
Proof.
  unfold Map.keys, Map.delete.
  induction m as [|[k v] m IH]; simpl; [reflexivity|].
  destruct (String.eqb k key); simpl; [|f_equal]; exact IH.
Qed.

Lemma In_delete (key : string) (m : Map.t) (k : string) (c : Conversation.t) :
  In (k, c) (Map.delete key m) -> In (k, c) m.
Proof. unfold Map.delete. intros H. apply filter_In in H. tauto. Qed.

Lemma has_keys (key : string) (m : Map.t) :
  Map.has key m = false <-> ~ In key (Map.keys m).
Proof.
  rewrite <- get_None_keys. unfold Map.has.
  destruct (Map.get key m); split; congruence.
Qed.

Lemma wellKeyed_nil : wellKeyed [].
Proof. split; [constructor | intros k c []]. Qed.

Lemma wellKeyed_replace (key : string) (value : Conversation.t) (m : Map.t) :
  Conversation.id value = key -> wellKeyed m -> wellKeyed (Map.replace key value m).
Proof.
  intros Hid [Hnd Hids]. split.
  - rewrite keys_replace. exact Hnd.
  - intros k c Hin. apply In_replace in Hin as [[-> ->] | Hin]; auto.
Qed.

Lemma wellKeyed_set (key : string) (value : Conversation.t) (m : Map.t) :
  Conversation.id value = key -> wellKeyed m -> wellKeyed (Map.set key value m).
Proof.
  intros Hid Hwk. unfold Map.set.
  destruct (Map.has key m) eqn:Hhas.
  - apply wellKeyed_replace; assumption.
  - apply has_keys in Hhas. destruct Hwk as [Hnd Hids]. split.
    + unfold Map.keys in *. rewrite map_app. simpl.
      apply NoDup_app; [exact Hnd | repeat constructor; simpl; tauto |].
      intros k Hk [<- | []]. contradiction.
    + intros k c Hin. apply in_app_or in Hin as [Hin | [[= <- <-] | []]]; auto.
Qed.

Lemma wellKeyed_delete (key : string) (m : Map.t) :
  wellKeyed m -> wellKeyed (Map.delete key m).
Proof.
  intros [Hnd Hids]. split.
  - rewrite keys_delete. apply NoDup_filter. exact Hnd.
  - intros k c Hin. apply In_delete in Hin. auto.
Qed.

Lemma length_set (key : string) (value : Conversation.t) (m : Map.t) :
  List.length (Map.set key value m) =
  if Map.has key m then List.length m else S (List.length m).
Proof.
  unfold Map.set. destruct (Map.has key m).
  - apply length_replace.
  - rewrite length_app. simpl. lia.
Qed.

(** Deleting a key that is present removes one entry. *)
Lemma length_delete_present (key : string) (m : Map.t) :
  NoDup (Map.keys m) -> In key (Map.keys m) ->
  S (List.length (Map.delete key m)) = List.length m.
Proof.
  unfold Map.delete, Map.keys.
  induction m as [|[k v] m IH]; simpl; intros Hnd Hin; [contradiction|].
  inversion Hnd as [|? ? Hnotin Hnd']; subst.
  destruct (String.eqb k key) eqn:E; simpl.
  - apply String.eqb_eq in E. subst k. f_equal.
    clear IH Hin Hnd Hnd'. induction m as [|[k' v'] m IH]; simpl; [reflexivity|].
    simpl in Hnotin.
    destruct (String.eqb k' key) eqn:E'; simpl.
    + apply String.eqb_eq in E'. tauto.
    + f_equal. apply IH. tauto.
  - f_equal. apply IH; [exact Hnd'|].
    destruct Hin as [-> | Hin]; [|exact Hin].
    rewrite String.eqb_refl in E. discriminate.
Qed.

(** ** The sort and the conversation it puts first *)

Lemma sort_insert_hd (x : Conversation.t) (sorted : list Conversation.t) :
  hd_error (sort_insert compare_updatedAt_asc x sorted) =
  match hd_error sorted with
  | None => Some x
  | Some y => if compare_updatedAt_asc x y <=? 0 then Some x else Some y
  end.
Proof.
  destruct sorted as [|y rest]; simpl; [reflexivity|].
  destruct (compare_updatedAt_asc x y <=? 0); reflexivity.
Qed.

Lemma sort_hd (l : list Conversation.t) :
  hd_error (sort compare_updatedAt_asc l) = leastRecentlyUpdated l.
Proof.
  induction l as [|c rest IH]; simpl; [reflexivity|].
  rewrite sort_insert_hd, IH. reflexivity.
Qed.

Lemma leastRecentlyUpdated_In (l : list Conversation.t) (o : Conversation.t) :
  leastRecentlyUpdated l = Some o -> In o l.
Proof.
  revert o. induction l as [|c rest IH]; simpl; intros o; [discriminate|].
  destruct (leastRecentlyUpdated rest) as [o'|].
  - destruct (compare_updatedAt_asc c o' <=? 0); intros [= <-]; auto.
  - intros [= <-]. auto.
Qed.

Lemma leastRecentlyUpdated_nonempty (l : list Conversation.t) :
  l <> [] -> leastRecentlyUpdated l <> None.
Proof.
  destruct l as [|c rest]; [contradiction|]. intros _. simpl.
  destruct (leastRecentlyUpdated rest) as [o|]; [|discriminate].
  destruct (compare_updatedAt_asc c o <=? 0); discriminate.
Qed.

(** The map [createConversation] leaves, in terms of
    [leastRecentlyUpdated]. *)
Lemma createConversation_conversations (h : Host) (model : string)
  (s : ConversationMemory) :
  let m1 := Map.set (Conversation.id (freshConversation h model))
              (freshConversation h model) (conversations s) in
  conversations (snd (createConversation h model s)) =
  if (50 <? Map.size m1)%nat then
    match leastRecentlyUpdated (Map.values m1) with
    | Some oldest => Map.delete (Conversation.id oldest) m1
    | None => m1
    end
  else m1.
Proof.
  cbv zeta. unfold createConversation. cbn [snd conversations].
  fold (freshConversation h model).
  change ("conv_" ++ decimal (dateNow h) ++ "_" ++ random36 h)
    with (Conversation.id (freshConversation h model)).
  set (m1 := Map.set _ _ _).
  change MAX_CONVERSATIONS with 50%nat.
  destruct (50 <? Map.size m1)%nat; [|reflexivity].
  rewrite <- sort_hd.
  destruct (sort compare_updatedAt_asc (Map.values m1)); reflexivity.
Qed.

(** ** Invariants of the calls *)

Lemma In_set (key : string) (value : Conversation.t) (m : Map.t)
  (k : string) (c : Conversation.t) :
  In (k, c) (Map.set key value m) -> (k = key /\ c = value) \/ In (k, c) m.
Proof.
  unfold Map.set. destruct (Map.has key m).
  - apply In_replace.
  - intros H. apply in_app_or in H as [H | [[= <- <-] | []]]; auto.
Qed.

Lemma In_values_keys (c : Conversation.t) (m : Map.t) :
  wellKeyed m -> In c (Map.values m) -> In (Conversation.id c, c) m.
Proof.
  intros [_ Hids] Hin. unfold Map.values in Hin.
  apply in_map_iff in Hin as ([k c'] & Heq & Hin). simpl in Heq. subst c'.
  rewrite (Hids k c Hin). exact Hin.
Qed.

Lemma appendMessage_id (h : Host) (message : MessageInput.t) (c : Conversation.t) :
  Conversation.id (appendMessage h message c) = Conversation.id c.
Proof. reflexivity. Qed.

Lemma createConversation_invariant (h : Host) (model : string) (s : ConversationMemory) :
  wellKeyed (conversations s) -> withinCaps s ->
  wellKeyed (conversations (snd (createConversation h model s))) /\
  withinCaps (snd (createConversation h model s)).
Proof.
  intros Hwk [Hsize Hmsgs]. unfold withinCaps.
  rewrite createConversation_conversations. cbv zeta.
  set (fresh := freshConversation h model).
  set (m1 := Map.set (Conversation.id fresh) fresh (conversations s)).
  assert (Hwk1 : wellKeyed m1) by (apply wellKeyed_set; [reflexivity | exact Hwk]).
  assert (Hsize1 : (Map.size m1 <= 51)%nat).
  { unfold m1, Map.size in *. rewrite length_set.
    destruct (Map.has _ _); lia. }
  assert (Hmsgs1 : forall k c, In (k, c) m1 ->
            (List.length (Conversation.messages c) <= 100)%nat).
  { intros k c Hin. apply In_set in Hin as [[_ ->] | Hin]; [simpl; lia|].
    eapply Hmsgs; exact Hin. }
  destruct (Nat.ltb_spec 50 (Map.size m1)) as [Hfull | Hroom].
  - destruct (leastRecentlyUpdated (Map.values m1)) as [oldest|] eqn:Hold.
    + split; [apply wellKeyed_delete; exact Hwk1|]. split.
      * apply leastRecentlyUpdated_In in Hold.
        apply (In_values_keys _ _ Hwk1) in Hold.
        pose proof (length_delete_present (Conversation.id oldest) m1
                      (proj1 Hwk1)) as Hlen.
        unfold Map.size in *. rewrite <- Hlen in Hsize1; [lia|].
        apply (in_map fst) in Hold. exact Hold.
      * intros k c Hin. apply In_delete in Hin. eauto.
    + exfalso. revert Hold. apply leastRecentlyUpdated_nonempty.
      unfold Map.values, Map.size in *. destruct m1; simpl in *; [lia | discriminate].
  - split; [exact Hwk1|]. split; [exact Hroom | exact Hmsgs1].
Qed.

Lemma addMessage_invariant (h : Host) (id : string) (message : MessageInput.t)
  (s : ConversationMemory) :
  wellKeyed (conversations s) -> withinCaps s ->
  wellKeyed (conversations (addMessage h id message s)) /\
  withinCaps (addMessage h id message s).
Proof.
  intros Hwk [Hsize Hmsgs]. unfold addMessage, withinCaps.
  destruct (Map.get id (conversations s)) as [c|] eqn:Hget; [|auto].
  cbn [conversations]. split; [|split].
  - apply wellKeyed_replace; [|exact Hwk].
    rewrite appendMessage_id. apply get_In in Hget.
    exact (proj2 Hwk _ _ Hget).
  - unfold Map.size in *. rewrite length_replace. exact Hsize.
  - intros k c' Hin. apply In_replace in Hin as [[_ ->] | Hin]; [|eauto].
    rewrite appendMessage_messages, slice_last_length.
    unfold MAX_MESSAGES_PER_CONVERSATION. lia.
Qed.

Lemma deleteConversation_invariant (id : string) (s : ConversationMemory) :
  wellKeyed (conversations s) -> withinCaps s ->
  wellKeyed (conversations (deleteConversation id s)) /\
  withinCaps (deleteConversation id s).
Proof.
  intros Hwk [Hsize Hmsgs]. unfold withinCaps. cbn [deleteConversation conversations].
  split; [apply wellKeyed_delete; exact Hwk|]. split.
  - unfold Map.size, Map.delete in *.
    pose proof (filter_length_le
                  (fun kv : string * Conversation.t => negb (String.eqb (fst kv) id))
                  (conversations s)). lia.
  - intros k c Hin. apply In_delete in Hin. eauto.
Qed.

Lemma perform_invariant (Date_parse : string -> Date) (op : operation)
  (s s' : ConversationMemory) :
  isImport op = false ->
  perform Date_parse op s = Some s' ->
  wellKeyed (conversations s) -> withinCaps s ->
  wellKeyed (conversations s') /\ withinCaps s'.
Proof.
  intros Hop Hstep Hwk Hcaps.
  destruct op; simpl in Hop, Hstep; try discriminate; injection Hstep as <-.
  - apply createConversation_invariant; assumption.
  - apply addMessage_invariant; assumption.
  - apply deleteConversation_invariant; assumption.
  - split; [exact Hwk | exact Hcaps].
  - split; [apply wellKeyed_nil|]. split; [simpl; lia | intros k c []].
Qed.

Lemma performAll_invariant (Date_parse : string -> Date) (ops : list operation) :
  forall s s' : ConversationMemory,
    forallb (fun op => negb (isImport op)) ops = true ->
    performAll Date_parse ops s = Some s' ->
    wellKeyed (conversations s) -> withinCaps s ->
    wellKeyed (conversations s') /\ withinCaps s'.
Proof.
  induction ops as [|op rest IH]; simpl; intros s s' Hops Hrun Hwk Hcaps.
  - injection Hrun as <-. auto.
  - apply andb_true_iff in Hops as [Hop Hrest].
    apply negb_true_iff in Hop.
    destruct (perform Date_parse op s) as [s1|] eqn:Hstep; [|discriminate].
    destruct (perform_invariant _ _ _ _ Hop Hstep Hwk Hcaps) as [Hwk1 Hcaps1].
    eapply IH; eassumption.
Qed.

(** C3, as amended.  In every state reached from the empty store by
    calls of [createConversation], [addMessage], [deleteConversation],
    [setCurrentConversation] and [clearAllConversations], the store holds
    at most 50 conversations and each conversation holds at most 100
    messages. *)
Theorem caps_hold_without_import
  (Date_parse : string -> Date) (ops : list operation) (s : ConversationMemory) :
  forallb (fun op => negb (isImport op)) ops = true ->
  performAll Date_parse ops emptyMemory = Some s ->
  (Map.size (conversations s) <= 50)%nat /\
  forall id c, getConversation id s = Some c ->
    (List.length (Conversation.messages c) <= 100)%nat.
Proof.
  intros Hops Hrun.
  destruct (performAll_invariant Date_parse ops emptyMemory s Hops Hrun)
    as [_ [Hsize Hmsgs]].
  - apply wellKeyed_nil.
  - split; [simpl; lia | intros k c []].
  - split; [exact Hsize|].
    intros id c Hget. apply get_In in Hget. eauto.
Qed.

(** ** Eviction in [createConversation] *)

Lemma compare_updatedAt_asc_valid (a b : Conversation.t) (ta tb : Z) :
  Conversation.updatedAt a = Some ta ->
  Conversation.updatedAt b = Some tb ->
  compare_updatedAt_asc a b = ta - tb.
Proof. unfold compare_updatedAt_asc. intros -> ->. reflexivity. Qed.

(** With valid dates, the conversation the sort puts first splits the
    list: strictly later dates before it, dates at least as late after. *)
Lemma leastRecentlyUpdated_split (l : list Conversation.t) :
  (forall c, In c l -> Conversation.updatedAt c <> None) ->
  forall o, leastRecentlyUpdated l = Some o ->
  exists before after t,
    l = (before ++ o :: after)%list /\
    Conversation.updatedAt o = Some t /\
    (forall c u, In c before -> Conversation.updatedAt c = Some u -> t < u) /\
    (forall c u, In c after -> Conversation.updatedAt c = Some u -> t <= u).
Proof.
  induction l as [|c rest IH]; intros Hvalid o; simpl; [discriminate|].
  assert (Hc : exists tc, Conversation.updatedAt c = Some tc).
  { destruct (Conversation.updatedAt c) as [tc|] eqn:E; [eauto|].
    exfalso. apply (Hvalid c); simpl; auto. }
  destruct Hc as [tc Hc].
  destruct (leastRecentlyUpdated rest) as [o'|] eqn:Hrest.
  - destruct (IH (fun x Hx => Hvalid x (or_intror Hx)) o' eq_refl)
      as (before & after & t' & Hsplit & Ht' & Hbefore & Hafter).
    rewrite (compare_updatedAt_asc_valid c o' tc t' Hc Ht').
    destruct (Z.leb_spec (tc - t') 0) as [Hle | Hgt]; intros [= <-].
    + exists [], rest, tc. simpl. repeat split; auto; [intros ? ? []|].
      intros x u Hx Hu. rewrite Hsplit in Hx.
      apply in_app_or in Hx as [Hx | [<- | Hx]].
      * specialize (Hbefore x u Hx Hu). lia.
      * rewrite Ht' in Hu. injection Hu as <-. lia.
      * specialize (Hafter x u Hx Hu). lia.
    + exists (c :: before), after, t'. rewrite Hsplit. simpl.
      repeat split; auto.
      intros x u [<- | Hx] Hu; [|eauto].
      rewrite Hc in Hu. injection Hu as <-. lia.
  - intros [= <-]. destruct rest as [|c' rest'].
    + exists [], [], tc. simpl. repeat split; auto; intros ? ? [].
    + exfalso. revert Hrest. apply leastRecentlyUpdated_nonempty. discriminate.
Qed.

(** A conversation appended last does not come first in the sort when no
    other one is ranked after it. *)
Lemma leastRecentlyUpdated_app_last (l : list Conversation.t) (x : Conversation.t) :
  l <> [] ->
  (forall c, In c l -> compare_updatedAt_asc c x <= 0) ->
  leastRecentlyUpdated (l ++ [x])%list = leastRecentlyUpdated l.
Proof.
  induction l as [|c rest IH]; intros Hne Hle; [contradiction|].
  destruct rest as [|c' rest'].
  - simpl. destruct (Z.leb_spec (compare_updatedAt_asc c x) 0) as [_ | Hgt];
      [reflexivity|].
    specialize (Hle c (or_introl eq_refl)). lia.
  - change (leastRecentlyUpdated ((c :: c' :: rest') ++ [x])%list)
      with (match leastRecentlyUpdated ((c' :: rest') ++ [x])%list with
            | None => Some c
            | Some o => if compare_updatedAt_asc c o <=? 0 then Some c else Some o
            end).
    rewrite IH; [reflexivity | discriminate | intros y Hy; apply Hle; right; exact Hy].
Qed.

Lemma delete_absent (key : string) (m : Map.t) :
  ~ In key (Map.keys m) -> Map.delete key m = m.
Proof.
  unfold Map.delete, Map.keys.
  induction m as [|[k v] m IH]; simpl; intros Hnotin; [reflexivity|].
  destruct (String.eqb k key) eqn:E.
  - apply String.eqb_eq in E. tauto.
  - simpl. f_equal. apply IH. tauto.
Qed.

Lemma delete_app (key : string) (m1 m2 : Map.t) :
  Map.delete key (m1 ++ m2)%list = (Map.delete key m1 ++ Map.delete key m2)%list.
Proof. unfold Map.delete. apply filter_app. Qed.

(** ** The states of the store *)

Section ReachableStates.

Variable Date_parse : string -> Date.

Lemma wellKeyed_restoreAll (data : list json) :
  forall m : Map.t, wellKeyed m -> wellKeyed (fst (restoreAll Date_parse data m)).
Proof.
  induction data as [|conv rest IH]; intros m Hwk; simpl; [exact Hwk|].
  destruct (reviveConversation Date_parse conv) as [c| |]; simpl; [|exact Hwk..].
  apply IH. apply wellKeyed_set; [reflexivity | exact Hwk].
Qed.

Lemma importConversations_wellKeyed (jsonData : snapshot) (s s' : ConversationMemory)
  (ok : bool) :
  wellKeyed (conversations s) ->
  importConversations Date_parse jsonData s = Some (ok, s') ->
  wellKeyed (conversations s').
Proof.
  intros Hwk. unfold importConversations.
  destruct jsonData as [|data]; [intros [= _ <-]; exact Hwk|].
  destruct data; try (intros [= _ <-]; exact Hwk).
  pose proof (wellKeyed_restoreAll items Map.clear wellKeyed_nil) as Hr.
  destruct (restoreAll Date_parse items Map.clear) as [m [[]| |]];
    simpl in Hr; intros [= _ <-]; exact Hr.
Qed.

Lemma perform_wellKeyed (op : operation) (s s' : ConversationMemory) :
  wellKeyed (conversations s) ->
  perform Date_parse op s = Some s' ->
  wellKeyed (conversations s').
Proof.
  intros Hwk Hstep. destruct op; cbn [perform] in Hstep.
  - apply Some_eq_inv in Hstep. subst s'.
    rewrite createConversation_conversations. cbv zeta.
    set (m1 := Map.set _ _ _).
    assert (Hwk1 : wellKeyed m1) by (apply wellKeyed_set; [reflexivity | exact Hwk]).
    destruct (50 <? Map.size m1)%nat; [|exact Hwk1].
    destruct (leastRecentlyUpdated (Map.values m1)); [|exact Hwk1].
    apply wellKeyed_delete. exact Hwk1.
  - injection Hstep as <-. unfold addMessage.
    destruct (Map.get conversationId (conversations s)) as [c|] eqn:Hget; [|exact Hwk].
    apply wellKeyed_replace; [|exact Hwk].
    rewrite appendMessage_id. apply get_In in Hget. exact (proj2 Hwk _ _ Hget).
  - injection Hstep as <-. apply wellKeyed_delete. exact Hwk.
  - injection Hstep as <-. exact Hwk.
  - destruct (importConversations Date_parse jsonData s) as [[ok s1]|] eqn:Himp;
      [|discriminate].
    injection Hstep as <-. eapply importConversations_wellKeyed; eassumption.
  - injection Hstep as <-. apply wellKeyed_nil.
Qed.

Lemma reachable_wellKeyed (s : ConversationMemory) :
  reachable Date_parse s -> wellKeyed (conversations s).
Proof.
  induction 1 as [stored s Hload | op s s' _ IH Hstep].
  - unfold loadFromStorage in Hload.
    destruct stored as [[|data]|]; try (injection Hload as <-; apply wellKeyed_nil).
    destruct data; try (injection Hload as <-; apply wellKeyed_nil).
    pose proof (wellKeyed_restoreAll items (conversations emptyMemory) wellKeyed_nil) as Hr.
    destruct (restoreAll Date_parse items (conversations emptyMemory)) as [m [[]| |]];
      simpl in Hr; try discriminate; injection Hload as <-; exact Hr.
  - eapply perform_wellKeyed; eassumption.
Qed.

Lemma emptyMemory_reachable : reachable Date_parse emptyMemory.
Proof. apply (reachable_constructed Date_parse None). reflexivity. Qed.

Lemma performAll_reachable (ops : list operation) :
  forall s s' : ConversationMemory,
    reachable Date_parse s ->
    performAll Date_parse ops s = Some s' ->
    reachable Date_parse s'.
Proof.
  induction ops as [|op rest IH]; simpl; intros s s' Hreach Hrun.
  - apply Some_eq_inv in Hrun. subst s'. exact Hreach.
  - destruct (perform Date_parse op s) as [s1|] eqn:Hstep; [|discriminate].
    apply (IH s1 s'); [|exact Hrun].
    eapply reachable_call; eassumption.
Qed.

End ReachableStates.

(** C4, as amended.  When [createConversation] is called in a state of
    the store that holds 50 conversations, none of them under the id
    generated for the new one and none with an [updatedAt] that is invalid
    or later than the new conversation's, exactly one conversation is
    evicted: the earliest-inserted among those with the oldest [updatedAt]
    present before the call.  The other 49 remain in their order, followed
    by the new conversation. *)
Theorem createConversation_evicts_least_recently_updated
  (Date_parse : string -> Date) (h : Host) (model : string) (s : ConversationMemory) :
  reachable Date_parse s ->
  Map.size (conversations s) = 50%nat ->
  getConversation (fst (createConversation h model s)) s = None ->
  (forall k c, In (k, c) (conversations s) ->
     exists u, Conversation.updatedAt c = Some u /\ u <= newDate2 h) ->
  exists before evicted after t,
    conversations s = (before ++ (Conversation.id evicted, evicted) :: after)%list /\
    Conversation.updatedAt evicted = Some t /\
    (forall k c u, In (k, c) before -> Conversation.updatedAt c = Some u -> t < u) /\
    (forall k c u, In (k, c) after -> Conversation.updatedAt c = Some u -> t <= u) /\
    conversations (snd (createConversation h model s)) =
      (before ++ after ++
       [(fst (createConversation h model s), freshConversation h model)])%list /\
    Map.size (conversations (snd (createConversation h model s))) = 50%nat.
Proof.
  intros Hreach Hsize Hfresh Hdates.
  pose proof (reachable_wellKeyed Date_parse s Hreach) as Hwk.
  unfold getConversation in Hfresh.
  rewrite createConversation_id in *.
  set (fresh := freshConversation h model) in *.
  rewrite createConversation_conversations. cbv zeta. fold fresh.
  assert (Hnotin : ~ In (Conversation.id fresh) (Map.keys (conversations s)))
    by (apply get_None_keys; exact Hfresh).
  assert (Hset : Map.set (Conversation.id fresh) fresh (conversations s) =
                 (conversations s ++ [(Conversation.id fresh, fresh)])%list).
  { unfold Map.set. apply has_keys in Hnotin. rewrite Hnotin. reflexivity. }
  rewrite Hset.
  assert (Hfull : (50 <? Map.size (conversations s ++ [(Conversation.id fresh, fresh)])%list)%nat
                  = true).
  { apply Nat.ltb_lt. unfold Map.size in *. rewrite length_app. simpl. lia. }
  rewrite Hfull.
  unfold Map.values. rewrite map_app. simpl map.
  fold (Map.values (conversations s)).
  assert (Hvals : forall c, In c (Map.values (conversations s)) ->
            exists u, Conversation.updatedAt c = Some u /\ u <= newDate2 h).
  { intros c Hc. apply (Hdates (Conversation.id c)).
    apply In_values_keys; assumption. }
  rewrite leastRecentlyUpdated_app_last.
  2:{ unfold Map.values, Map.size in *. destruct (conversations s); [discriminate Hsize|].
      discriminate. }
  2:{ intros c Hc. destruct (Hvals c Hc) as (u & Hu & Hle).
      rewrite (compare_updatedAt_asc_valid c fresh u (newDate2 h) Hu eq_refl). lia. }
  destruct (leastRecentlyUpdated (Map.values (conversations s))) as [o|] eqn:Hold.
  2:{ exfalso. revert Hold. apply leastRecentlyUpdated_nonempty.
      unfold Map.values, Map.size in *. destruct (conversations s); [discriminate Hsize|].
      discriminate. }
  destruct (leastRecentlyUpdated_split (Map.values (conversations s))) with (o := o)
    as (vbefore & vafter & t & Hsplit & Ht & Hbefore & Hafter); [|exact Hold|].
  { intros c Hc Hnone. destruct (Hvals c Hc) as (u & Hu & _). congruence. }
  unfold Map.values in Hsplit.
  apply map_eq_app in Hsplit as (before & rest & Hm & Hmb & Hrest).
  apply map_eq_cons in Hrest as ([k o'] & after & Hrest & Ho & Hma).
  simpl in Ho. subst o' rest.
  assert (Hk : Conversation.id o = k).
  { apply (proj2 Hwk). rewrite Hm. apply in_or_app. right. left. reflexivity. }
  subst k.
  exists before, o, after, t.
  split; [exact Hm|]. split; [exact Ht|].
  split.
  { intros k c u Hin. apply Hbefore. rewrite <- Hmb.
    apply (in_map snd) in Hin. exact Hin. }
  split.
  { intros k c u Hin. apply Hafter. rewrite <- Hma.
    apply (in_map snd) in Hin. exact Hin. }
  assert (Hnd : NoDup (Map.keys (conversations s))) by exact (proj1 Hwk).
  rewrite Hm in Hnd, Hnotin. unfold Map.keys in Hnd, Hnotin.
  rewrite map_app in Hnd, Hnotin. simpl in Hnd, Hnotin.
  pose proof (NoDup_remove_2 _ _ _ Hnd) as Hout.
  assert (Hdel : Map.delete (Conversation.id o)
                   (conversations s ++ [(Conversation.id fresh, fresh)])%list =
                 (before ++ after ++ [(Conversation.id fresh, fresh)])%list).
  { rewrite Hm, <- app_assoc. simpl.
    rewrite delete_app.
    rewrite delete_absent by (intros H; apply Hout; apply in_or_app; auto).
    f_equal. unfold Map.delete at 1. simpl. rewrite String.eqb_refl. simpl.
    fold (Map.delete (Conversation.id o) (after ++ [(Conversation.id fresh, fresh)])%list).
    apply delete_absent. unfold Map.keys. rewrite map_app. simpl.
    intros H. apply in_app_or in H as [H | [H | []]].
    - apply Hout. apply in_or_app. auto.
    - apply Hnotin. apply in_or_app. right. left. symmetry. exact H. }
  rewrite Hdel. split; [reflexivity|].
  unfold Map.size in *. rewrite Hm in Hsize.
  rewrite !length_app in *. simpl in *. lia.
Qed.

(** ** Snapshots: [exportConversations] and [importConversations] *)

Section SnapshotFacts.

Variable Date_parse : string -> Date.
Variable Date_toISOString : Z -> string.

Lemma newDate_dateToJSON (d : Date) :
  newDate Date_parse (Some (dateToJSON Date_toISOString d)) =
  Ok (rereadDate Date_parse Date_toISOString d).
Proof. destruct d; reflexivity. Qed.

Lemma asRole_roleToJSON (r : Role) : asRole (Some (roleToJSON r)) = Ok r.
Proof. destruct r; reflexivity. Qed.

Lemma reviveMessage_messageToJSON (m : ConversationMessage.t) :
  reviveMessage Date_parse (messageToJSON Date_toISOString m) =
  Ok (rereadMessage Date_parse Date_toISOString m).
Proof.
  destruct m as [id content role timestamp model metadata].
  unfold messageToJSON, reviveMessage, rereadMessage.
  cbn [ConversationMessage.id ConversationMessage.content ConversationMessage.role
       ConversationMessage.timestamp ConversationMessage.model
       ConversationMessage.metadata].
  destruct model as [model|], metadata as [metadata|];
    cbn [option_map optionalField app prop String.eqb Ascii.eqb Bool.eqb
         asString asOptionalString bind];
    rewrite asRole_roleToJSON; cbn [bind];
    rewrite newDate_dateToJSON; reflexivity.
Qed.

Lemma mapM_reviveMessage (ms : list ConversationMessage.t) :
  mapM (reviveMessage Date_parse) (map (messageToJSON Date_toISOString) ms) =
  Ok (map (rereadMessage Date_parse Date_toISOString) ms).
Proof.
  induction ms as [|m ms IH]; [reflexivity|].
  cbn [map mapM]. rewrite reviveMessage_messageToJSON, IH. reflexivity.
Qed.

Lemma no_null_message (ms : list ConversationMessage.t) :
  existsb is_null (map (messageToJSON Date_toISOString) ms) = false.
Proof. induction ms as [|m ms IH]; [reflexivity | exact IH]. Qed.

Lemma reviveConversation_conversationToJSON (c : Conversation.t) :
  reviveConversation Date_parse (conversationToJSON Date_toISOString c) =
  Ok (rereadConversation Date_parse Date_toISOString c).
Proof.
  destruct c as [id title messages model createdAt updatedAt].
  unfold conversationToJSON, reviveConversation, rereadConversation.
  cbn [Conversation.id Conversation.title Conversation.messages Conversation.model
       Conversation.createdAt Conversation.updatedAt].
  cbn [prop String.eqb Ascii.eqb Bool.eqb asString bind].
  rewrite no_null_message. cbn [bind].
  rewrite !newDate_dateToJSON. cbn [bind].
  rewrite mapM_reviveMessage. reflexivity.
Qed.

Lemma reread_sameUpToDates (c : Conversation.t) :
  sameUpToDates c (rereadConversation Date_parse Date_toISOString c).
Proof.
  unfold sameUpToDates, rereadConversation. simpl.
  repeat split. rewrite map_map. reflexivity.
Qed.

(** Restoring exported conversations whose ids are new to the map and
    pairwise distinct appends them in order. *)
Lemma restoreAll_exported (l : list Conversation.t) :
  forall m : Map.t,
    NoDup (Map.keys m ++ map Conversation.id l)%list ->
    restoreAll Date_parse (map (conversationToJSON Date_toISOString) l) m =
    ((m ++ map (fun c => (Conversation.id c,
                          rereadConversation Date_parse Date_toISOString c)) l)%list,
     Ok tt).
Proof.
  induction l as [|c l IH]; intros m Hnd; cbn [map restoreAll].
  - rewrite app_nil_r. reflexivity.
  - rewrite reviveConversation_conversationToJSON.
    change (Conversation.id (rereadConversation Date_parse Date_toISOString c))
      with (Conversation.id c).
    assert (Hnotin : ~ In (Conversation.id c) (Map.keys m)).
    { intros Hin. apply NoDup_remove_2 in Hnd. apply Hnd.
      apply in_or_app. left. exact Hin. }
    unfold Map.set. apply has_keys in Hnotin. rewrite Hnotin.
    rewrite IH.
    + rewrite <- app_assoc. reflexivity.
    + unfold Map.keys in *. rewrite map_app, <- app_assoc. exact Hnd.
Qed.

Lemma wellKeyed_values_ids (m : Map.t) :
  wellKeyed m -> map Conversation.id (Map.values m) = Map.keys m.
Proof.
  intros [_ Hids]. unfold Map.values, Map.keys. rewrite map_map.
  apply map_ext_in. intros [k c] Hin. simpl. auto.
Qed.

(** Importing what a well-keyed store exports, into any store. *)
Lemma import_of_export (s target : ConversationMemory) :
  wellKeyed (conversations s) ->
  importConversations Date_parse (exportConversations Date_toISOString s) target =
  Some (true,
        {| conversations :=
             map (fun c => (Conversation.id c,
                            rereadConversation Date_parse Date_toISOString c))
                 (Map.values (conversations s));
           currentConversationId := currentConversationId target |}).
Proof.
  intros Hwk. unfold importConversations, exportConversations.
  rewrite restoreAll_exported.
  - reflexivity.
  - simpl. rewrite wellKeyed_values_ids by exact Hwk. exact (proj1 Hwk).
Qed.

(** What [saveToStorage] writes is what a later construction loads. *)
Lemma load_of_save (s : ConversationMemory) :
  wellKeyed (conversations s) ->
  loadFromStorage Date_parse (Some (saveToStorage Date_toISOString s)) emptyMemory =
  Some {| conversations :=
            map (fun c => (Conversation.id c,
                           rereadConversation Date_parse Date_toISOString c))
                (Map.values (conversations s));
          currentConversationId := None |}.
Proof.
  intros Hwk. unfold loadFromStorage, saveToStorage.
  rewrite restoreAll_exported.
  - reflexivity.
  - simpl. rewrite wellKeyed_values_ids by exact Hwk. exact (proj1 Hwk).
Qed.

(** C5.  For every state [s] the store can be in and every store
    [target], importing into [target] the snapshot that [s] exports
    returns [true] and leaves in [target] the conversations of [s]: the
    same ids in the same order, each with the same title, model and
    messages (ids, contents, roles and models, in the same order), dates
    being read back from their exported text.  The snapshot does not
    depend on the current-conversation marker of [s], and the import
    keeps the marker of [target]. *)
Theorem import_export_roundtrip (s target : ConversationMemory) :
  reachable Date_parse s ->
  exists s' : ConversationMemory,
    importConversations Date_parse (exportConversations Date_toISOString s) target =
    Some (true, s') /\
    Forall2 (fun e e' => fst e = fst e' /\ sameUpToDates (snd e) (snd e'))
      (conversations s) (conversations s') /\
    currentConversationId s' = currentConversationId target /\
    forall marker,
      exportConversations Date_toISOString
        {| conversations := conversations s; currentConversationId := marker |} =
      exportConversations Date_toISOString s.
Proof.
  intros Hreach. apply reachable_wellKeyed in Hreach.
  eexists. split; [apply import_of_export; exact Hreach|].
  cbn [conversations currentConversationId].
  split; [|split; reflexivity].
  destruct Hreach as [_ Hids]. unfold Map.values.
  induction (conversations s) as [|[k c] m IH]; simpl; constructor.
  - simpl. split; [symmetry; apply Hids; left; reflexivity|].
    apply reread_sameUpToDates.
  - apply IH. intros k' c' Hin. apply Hids. right. exact Hin.
Qed.

End SnapshotFacts.

(** ** [importConversations]: outcomes *)

Section ImportFacts.

Variable Date_parse : string -> Date.

Lemma importConversations_unparseable (s : ConversationMemory) :
  importConversations Date_parse Unparseable s = Some (false, s).
Proof. reflexivity. Qed.

Lemma importConversations_not_array (data : json) (s : ConversationMemory) :
  (forall items, data <> JArray items) ->
  importConversations Date_parse (Parsed data) s = Some (false, s).
Proof.
  intros Hdata. destruct data; try reflexivity.
  exfalso. apply (Hdata items). reflexivity.
Qed.

(** A successful import installs what the snapshot alone determines. *)
Lemma importConversations_true (jsonData : snapshot) (s s' : ConversationMemory) :
  importConversations Date_parse jsonData s = Some (true, s') ->
  exists data,
    jsonData = Parsed (JArray data) /\
    restoreAll Date_parse data Map.clear = (conversations s', Ok tt) /\
    currentConversationId s' = currentConversationId s.
Proof.
  unfold importConversations.
  destruct jsonData as [|data]; [discriminate|].
  destruct data; try discriminate.
  destruct (restoreAll Date_parse items Map.clear) as [m [[]| |]] eqn:Hr;
    try discriminate.
  intros [= <-]. exists items. auto.
Qed.

Lemma importConversations_marker (jsonData : snapshot) (s s' : ConversationMemory)
  (ok : bool) :
  importConversations Date_parse jsonData s = Some (ok, s') ->
  currentConversationId s' = currentConversationId s.
Proof.
  unfold importConversations.
  destruct jsonData as [|data]; [intros [= _ <-]; reflexivity|].
  destruct data; try (intros [= _ <-]; reflexivity).
  destruct (restoreAll Date_parse items Map.clear) as [m [[]| |]];
    try discriminate; intros [= _ <-]; reflexivity.
Qed.

Lemma restoreAll_throw (good : list json) (bad : json) (rest : list json) :
  forall m m' : Map.t,
    restoreAll Date_parse good m = (m', Ok tt) ->
    reviveConversation Date_parse bad = Throw ->
    restoreAll Date_parse (good ++ bad :: rest)%list m = (m', Throw).
Proof.
  induction good as [|conv good IH]; intros m m' Hgood Hbad; simpl in *.
  - injection Hgood as <-. rewrite Hbad. reflexivity.
  - destruct (reviveConversation Date_parse conv) as [c| |]; try discriminate.
    apply IH; assumption.
Qed.

Lemma bind_Throw {A B : Type} (r : result A) (k : A -> result B) :
  bind r k = Throw -> r = Throw \/ exists a, r = Ok a /\ k a = Throw.
Proof. destruct r as [a| |]; simpl; intros H; eauto; discriminate. Qed.

Lemma newDate_not_Throw (v : option json) : newDate Date_parse v <> Throw.
Proof. destruct v as [[]|]; discriminate. Qed.

Lemma asString_not_Throw (v : option json) : asString v <> Throw.
Proof. destruct v as [[]|]; discriminate. Qed.

Lemma asOptionalString_not_Throw (v : option json) : asOptionalString v <> Throw.
Proof. destruct v as [[]|]; discriminate. Qed.

Lemma asRole_not_Throw (v : option json) : asRole v <> Throw.
Proof.
  destruct v as [[| | |s| |]|]; try discriminate. simpl.
  destruct (String.eqb s "user"); [discriminate|].
  destruct (String.eqb s "assistant"); discriminate.
Qed.

Lemma reviveMessage_Throw (msg : json) :
  reviveMessage Date_parse msg = Throw -> msg = JNull.
Proof.
  destruct msg as [| | | | |fields]; simpl; try discriminate; [reflexivity|].
  intros H. exfalso.
  apply bind_Throw in H as [H | (id & _ & H)]; [exact (asString_not_Throw _ H)|].
  apply bind_Throw in H as [H | (content & _ & H)]; [exact (asString_not_Throw _ H)|].
  apply bind_Throw in H as [H | (role & _ & H)]; [exact (asRole_not_Throw _ H)|].
  apply bind_Throw in H as [H | (model & _ & H)];
    [exact (asOptionalString_not_Throw _ H)|].
  apply bind_Throw in H as [H | (timestamp & _ & H)];
    [exact (newDate_not_Throw _ H) | discriminate].
Qed.

Lemma mapM_reviveMessage_Throw (msgs : list json) :
  mapM (reviveMessage Date_parse) msgs = Throw -> existsb is_null msgs = true.
Proof.
  induction msgs as [|msg msgs IH]; simpl; [discriminate|].
  intros H. apply bind_Throw in H as [H | (m & _ & H)].
  - apply reviveMessage_Throw in H. subst msg. reflexivity.
  - apply bind_Throw in H as [H | (ms & _ & H)]; [|discriminate].
    rewrite (IH H). apply orb_true_r.
Qed.

(** The elements that make the object literal throw. *)
Lemma reviveConversation_throws (conv : json) :
  reviveConversation Date_parse conv = Throw <->
  match conv with
  | JObject fields =>
      match prop "messages" fields with
      | Some (JArray msgs) => existsb is_null msgs = true
      | _ => True
      end
  | _ => True
  end.
Proof.
  destruct conv as [| | | | |fields]; simpl; try tauto.
  destruct (prop "messages" fields) as [[| | | |msgs|]|]; try tauto.
  destruct (existsb is_null msgs) eqn:Hnull; [tauto|].
  split; [|discriminate].
  intros H. exfalso.
  apply bind_Throw in H as [H | (id & _ & H)]; [exact (asString_not_Throw _ H)|].
  apply bind_Throw in H as [H | (title & _ & H)]; [exact (asString_not_Throw _ H)|].
  apply bind_Throw in H as [H | (model & _ & H)]; [exact (asString_not_Throw _ H)|].
  apply bind_Throw in H as [H | (createdAt & _ & H)];
    [exact (newDate_not_Throw _ H)|].
  apply bind_Throw in H as [H | (updatedAt & _ & H)];
    [exact (newDate_not_Throw _ H)|].
  apply bind_Throw in H as [H | (messages & _ & H)]; [|discriminate].
  apply mapM_reviveMessage_Throw in H. congruence.
Qed.

(** C6, at its failing inputs.  When the parsed snapshot is an array
    whose elements restore up to one that throws (an element that is
    [null] or not an object, whose [messages] is not an array, or one of
    whose messages is [null]), [importConversations] returns [false] and
    the store holds the conversations restored from the elements before
    that one and nothing of what it held before the call: the map is
    cleared before the elements are read. *)
Theorem importConversations_false_after_clear
  (good : list json) (bad : json) (rest : list json) (restored : Map.t)
  (s : ConversationMemory) :
  restoreAll Date_parse good Map.clear = (restored, Ok tt) ->
  reviveConversation Date_parse bad = Throw ->
  importConversations Date_parse (Parsed (JArray (good ++ bad :: rest)%list)) s =
  Some (false, {| conversations := restored;
                  currentConversationId := currentConversationId s |}).
Proof.
  intros Hgood Hbad. unfold importConversations.
  rewrite (restoreAll_throw good bad rest Map.clear restored Hgood Hbad).
  reflexivity.
Qed.

(** C10.  [setCurrentConversation] stores its argument without looking
    it up, so [getCurrentConversationId] returns it whether or not a
    conversation has that id; [importConversations] keeps the marker,
    which may then name a conversation the store no longer holds; and a
    call that takes the marker from an id to none is
    [clearAllConversations] or [deleteConversation] of that id, both of
    which always do so. *)
Theorem current_marker_is_unchecked :
  (forall id s,
     getCurrentConversationId (setCurrentConversation id s) = Some id) /\
  (forall jsonData s ok s',
     importConversations Date_parse jsonData s = Some (ok, s') ->
     getCurrentConversationId s' = getCurrentConversationId s) /\
  (forall id c s,
     getConversation id s = Some c ->
     exists s',
       importConversations Date_parse (Parsed (JArray []))
         (setCurrentConversation id s) = Some (true, s') /\
       getCurrentConversationId s' = Some id /\
       getConversation id s' = None) /\
  (forall op s s' id,
     perform Date_parse op s = Some s' ->
     getCurrentConversationId s = Some id ->
     getCurrentConversationId s' = None ->
     op = ClearAllConversations \/ op = DeleteConversation id) /\
  (forall s, getCurrentConversationId (clearAllConversations s) = None) /\
  (forall id s,
     getCurrentConversationId s = Some id ->
     getCurrentConversationId (deleteConversation id s) = None).
Proof.
  unfold getCurrentConversationId.
  split; [reflexivity|].
  split; [intros jsonData s ok s'; apply importConversations_marker|].
  split; [intros id c s _; eexists; repeat split|].
  split.
  - intros op s s' id Hstep Hcur Hnone. destruct op; cbn [perform] in Hstep.
    + apply Some_eq_inv in Hstep. subst s'. discriminate Hnone.
    + apply Some_eq_inv in Hstep. subst s'. unfold addMessage in Hnone.
      destruct (Map.get conversationId (conversations s)); simpl in Hnone; congruence.
    + apply Some_eq_inv in Hstep. subst s'. right. f_equal.
      unfold deleteConversation in Hnone. cbn [currentConversationId] in Hnone.
      rewrite Hcur in Hnone.
      destruct (String.eqb id id0) eqn:E; [|discriminate].
      apply String.eqb_eq in E. congruence.
    + apply Some_eq_inv in Hstep. subst s'. discriminate Hnone.
    + destruct (importConversations Date_parse jsonData s) as [[ok s1]|] eqn:Himp;
        [|discriminate].
      apply Some_eq_inv in Hstep. simpl in Hstep. subst s1.
      apply importConversations_marker in Himp. congruence.
    + left. reflexivity.
  - split; [reflexivity|].
    intros id s Hcur. unfold deleteConversation. cbn [currentConversationId].
    rewrite Hcur, String.eqb_refl. reflexivity.
Qed.

End ImportFacts.

(** ** Instances *)

(** The context window of a conversation of three messages under a
    budget of 4 tokens: the two most recent messages are selected and the
    oldest is dropped. *)
Lemma getContextMessages_suffix_within_budget_witness :
  let s := addMessages "c0"
             [(hostAt 1 "a", MessageInput.mk "first message, long" user None None);
              (hostAt 2 "b", MessageInput.mk "reply" assistant None None);
              (hostAt 3 "c", MessageInput.mk "again" user None None)]
             (sampleMemory 1 0 0) in
  exists c dropped,
    Map.get "c0" (conversations s) = Some c /\
    Conversation.messages c <> [] /\
    Conversation.messages c = (dropped ++ getContextMessages "c0" (Some 4) s)%list /\
    List.length dropped = 1%nat.
Proof.
  cbv zeta. eexists.
  match goal with
  | |- exists dropped, Map.get ?k (conversations ?s) = Some ?c /\ _ =>
      assert (Hget : Map.get k (conversations s) = Some c) by (vm_compute; reflexivity)
  end.
  match type of Hget with
  | _ = Some ?c =>
      assert (Hne : Conversation.messages c <> []) by (vm_compute; discriminate)
  end.
  destruct (getContextMessages_suffix_within_budget _ "c0" (Some 4) _ Hget Hne)
    as (dropped & Hsplit & _).
  exists dropped. split; [exact Hget|]. split; [exact Hne|]. split; [exact Hsplit|].
  apply (f_equal (@List.length _)) in Hsplit. rewrite length_app in Hsplit.
  match type of Hsplit with
  | ?total = (_ + ?kept)%nat =>
      replace total with 3%nat in Hsplit by (vm_compute; reflexivity);
      replace kept with 2%nat in Hsplit by (vm_compute; reflexivity)
  end.
  lia.
Defined.

(** 101 appends to an empty conversation: 100 messages remain. *)
Lemma addMessage_keeps_most_recent_witness :
  Map.get "c0" (conversations (sampleMemory 1 0 0)) = Some (sampleConversation 0 0 0) /\
  sampleCalls 101 <> [] /\
  exists c',
    Map.get "c0" (conversations (addMessages "c0" (sampleCalls 101) (sampleMemory 1 0 0)))
      = Some c' /\
    (List.length (Conversation.messages c') <= 100)%nat.
Proof.
  split; [reflexivity|]. split; [discriminate|].
  destruct (addMessage_keeps_most_recent (sampleMemory 1 0 0) "c0"
              (sampleConversation 0 0 0) (sampleCalls 101))
    as (c' & Hget & _ & (dropped & _ & Hlen) & _); [reflexivity | discriminate |].
  exists c'. split; [exact Hget|]. rewrite Hlen. apply Nat.le_min_l.
Defined.

(** The limits do not hold across an import: importing into the empty
    store a snapshot of 51 conversations, or of one conversation of 101
    messages, returns [true] and leaves the store beyond them. *)
Lemma import_exceeds_caps :
  (exists s,
     importConversations Iso.parse (sampleSnapshot 51 0 1704067200000) emptyMemory =
       Some (true, s) /\
     performAll Iso.parse [ImportConversations (sampleSnapshot 51 0 1704067200000)]
       emptyMemory = Some s /\
     Map.size (conversations s) = 51%nat) /\
  (exists s c,
     importConversations Iso.parse (sampleSnapshot 1 101 1704067200000) emptyMemory =
       Some (true, s) /\
     performAll Iso.parse [ImportConversations (sampleSnapshot 1 101 1704067200000)]
       emptyMemory = Some s /\
     getConversation "c0" s = Some c /\
     List.length (Conversation.messages c) = 101%nat).
Proof.
  split.
  - eexists. split; [vm_compute; reflexivity|].
    split; [vm_compute; reflexivity | reflexivity].
  - eexists. eexists. split; [vm_compute; reflexivity|].
    split; [vm_compute; reflexivity|].
    split; [vm_compute; reflexivity | reflexivity].
Qed.

(** The limits on a run that creates 51 conversations. *)
Lemma caps_hold_without_import_witness :
  let ops := map (fun n => CreateConversation (hostAt (Z.of_nat n) "r") "m") (seq 0 51) in
  forallb (fun op => negb (isImport op)) ops = true /\
  exists s,
    performAll Iso.parse ops emptyMemory = Some s /\
    (Map.size (conversations s) <= 50)%nat.
Proof.
  cbv zeta. split; [reflexivity|].
  eexists. split; [vm_compute; reflexivity|].
  refine (proj1 (caps_hold_without_import Iso.parse
                   (map (fun n => CreateConversation (hostAt (Z.of_nat n) "r") "m")
                        (seq 0 51)) _ _ _)).
  - reflexivity.
  - vm_compute. reflexivity.
Defined.

(** The eviction can fall on the new conversation: after a snapshot of
    50 conversations updated on 2025-01-01 is imported, a call whose clock
    reads 2024-01-01 evicts the conversation it has just created and keeps
    the 50 others; the id it returns and marks current names no stored
    conversation. *)
Lemma createConversation_evicts_the_new_conversation :
  let imported := sampleMemory 50 0 1735689600000 in
  let created :=
    createConversation (hostAt 1704067200000 "k3x9q2m1z") "llama3-8b-8192" imported in
  performAll Iso.parse sampleLaterDated emptyMemory = Some (snd created) /\
  Map.size (conversations imported) = 50%nat /\
  getConversation (fst created) imported = None /\
  getConversation (fst created) (snd created) = None /\
  conversations (snd created) = conversations imported /\
  getCurrentConversationId (snd created) = Some (fst created).
Proof. cbv zeta. repeat split; vm_compute; reflexivity. Qed.

(** The eviction on the store fifty creations leave and a call at
    instant 1000: the conversation created first is the one evicted. *)
Lemma createConversation_evicts_least_recently_updated_witness :
  let h := hostAt 1000 "k3x9q2m1z" in
  reachable Iso.parse sampleFull /\
  Map.size (conversations sampleFull) = 50%nat /\
  getConversation (fst (createConversation h "m" sampleFull)) sampleFull = None /\
  (forall k c, In (k, c) (conversations sampleFull) ->
     exists u, Conversation.updatedAt c = Some u /\ u <= newDate2 h) /\
  Map.size (conversations (snd (createConversation h "m" sampleFull))) = 50%nat /\
  getConversation "conv_0_r" (snd (createConversation h "m" sampleFull)) = None.
Proof.
  cbv zeta.
  assert (Hreach : reachable Iso.parse sampleFull).
  { apply (performAll_reachable Iso.parse sampleCreations emptyMemory);
      [apply emptyMemory_reachable | vm_compute; reflexivity]. }
  assert (Hdates : forall k c, In (k, c) (conversations sampleFull) ->
            exists u, Conversation.updatedAt c = Some u /\
                      u <= newDate2 (hostAt 1000 "k3x9q2m1z")).
  { intros k c Hin. unfold sampleFull in Hin. cbn [conversations] in Hin.
    apply in_map_iff in Hin as (n & Heq & Hn).
    apply in_seq in Hn. injection Heq as _ <-.
    exists (Z.of_nat n). split; [reflexivity | simpl; lia]. }
  split; [exact Hreach|]. split; [reflexivity|].
  split; [vm_compute; reflexivity|]. split; [exact Hdates|].
  destruct (createConversation_evicts_least_recently_updated Iso.parse
              (hostAt 1000 "k3x9q2m1z") "m" sampleFull Hreach)
    as (before & evicted & after & t & _ & _ & _ & _ & _ & Hsize);
    [reflexivity | vm_compute; reflexivity | exact Hdates |].
  split; [exact Hsize | vm_compute; reflexivity].
Defined.

(** Export and import of the store reached by creating a conversation
    and appending two messages. *)
Lemma import_export_roundtrip_witness :
  exists s,
    performAll Iso.parse sampleOps emptyMemory = Some s /\
    reachable Iso.parse s /\
    exists s',
      importConversations Iso.parse (exportConversations Iso.toISOString s) emptyMemory =
      Some (true, s') /\
      Map.keys (conversations s') = Map.keys (conversations s).
Proof.
  destruct (performAll Iso.parse sampleOps emptyMemory) as [s|] eqn:Hrun;
    [|vm_compute in Hrun; discriminate].
  exists s. split; [reflexivity|].
  assert (Hreach : reachable Iso.parse s).
  { apply (performAll_reachable Iso.parse sampleOps emptyMemory s);
      [apply emptyMemory_reachable | exact Hrun]. }
  split; [exact Hreach|].
  destruct (import_export_roundtrip Iso.parse Iso.toISOString s emptyMemory Hreach)
    as (s' & Himport & Hsame & _).
  exists s'. split; [exact Himport|].
  unfold Map.keys. clear - Hsame.
  induction Hsame as [|e e' m m' [Hkey _] _ IH]; simpl; [reflexivity|].
  rewrite IH, Hkey. reflexivity.
Defined.

(** On that store the dates are read back as they were: the import
    installs the very conversations that were exported. *)
Example import_export_sample :
  option_map
    (fun s => importConversations Iso.parse (exportConversations Iso.toISOString s)
                emptyMemory)
    (performAll Iso.parse sampleOps emptyMemory) =
  option_map
    (fun s => Some (true, {| conversations := conversations s;
                             currentConversationId := None |}))
    (performAll Iso.parse sampleOps emptyMemory).
Proof. vm_compute. reflexivity. Qed.

(** The snapshot [[null]] imported into a store of one conversation: the
    import returns [false] and the conversation is gone. *)
Lemma importConversations_false_after_clear_witness :
  restoreAll Iso.parse [] Map.clear = (Map.clear, Ok tt) /\
  reviveConversation Iso.parse JNull = Throw /\
  getConversation "c0" (sampleMemory 1 2 0) = Some (sampleConversation 0 2 0) /\
  importConversations Iso.parse (Parsed (JArray [JNull])) (sampleMemory 1 2 0) =
  Some (false, emptyMemory).
Proof.
  split; [reflexivity|]. split; [reflexivity|]. split; [reflexivity|].
  exact (importConversations_false_after_clear Iso.parse [] JNull [] Map.clear
           (sampleMemory 1 2 0) eq_refl eq_refl).
Defined.

(** The title after a first user message of 61 characters followed by a
    reply. *)
Lemma title_written_by_first_user_message_witness :
  let h := hostAt 1704067200000 "k3x9q2m1z" in
  let id := fst (createConversation h "m" emptyMemory) in
  let s1 := snd (createConversation h "m" emptyMemory) in
  let first := (hostAt 1704067200500 "a",
                MessageInput.mk
                  "0123456789012345678901234567890123456789012345678901234567890"
                  user None None) in
  let later := [(hostAt 1704067201000 "b", MessageInput.mk "ok" assistant None None)] in
  Map.get id (conversations s1) = Some (freshConversation h "m") /\
  exists c,
    Map.get id (conversations (addMessages id (first :: later) s1)) = Some c /\
    Conversation.title c = "01234567890123456789012345678901234567890123456789...".
Proof.
  cbv zeta. split; [reflexivity|].
  destruct (title_written_by_first_user_message
              (hostAt 1704067200000 "k3x9q2m1z") "m" emptyMemory
              (hostAt 1704067200500 "a",
               MessageInput.mk
                 "0123456789012345678901234567890123456789012345678901234567890"
                 user None None)
              [(hostAt 1704067201000 "b", MessageInput.mk "ok" assistant None None)]
              (freshConversation (hostAt 1704067200000 "k3x9q2m1z") "m") eq_refl)
    as (_ & c & Hget & Htitle).
  exists c. split; [exact Hget | exact Htitle].
Defined.

(** The title after the greeting of the assistant and a first user
    message. *)
Lemma user_message_after_assistant_leaves_title_witness :
  let h := hostAt 1704067200000 "k3x9q2m1z" in
  let id := fst (createConversation h "m" emptyMemory) in
  let s1 := snd (createConversation h "m" emptyMemory) in
  let greeting := (hostAt 1704067200500 "a",
                   MessageInput.mk "Welcome" assistant None None) in
  let question := (hostAt 1704067201000 "b", MessageInput.mk "Hello" user None None) in
  Map.get id (conversations s1) = Some (freshConversation h "m") /\
  titleOf "Hello" = "Hello" /\
  exists c,
    Map.get id (conversations (addMessages id [greeting; question] s1)) = Some c /\
    Conversation.title c = "New Conversation" /\
    Conversation.title c <> "Hello".
Proof.
  cbv zeta. split; [reflexivity|]. split; [reflexivity|].
  destruct (user_message_after_assistant_leaves_title
              (hostAt 1704067200000 "k3x9q2m1z") "m" emptyMemory
              (hostAt 1704067200500 "a", MessageInput.mk "Welcome" assistant None None)
              (hostAt 1704067201000 "b", MessageInput.mk "Hello" user None None)
              []
              (freshConversation (hostAt 1704067200000 "k3x9q2m1z") "m")
              eq_refl eq_refl eq_refl)
    as (c & Hget & Htitle & Hdiffers).
  exists c. split; [exact Hget|]. split; [exact Htitle|].
  apply Hdiffers. discriminate.
Defined.

(** The marker on a store whose current conversation is replaced away
    by an import. *)
Lemma current_marker_is_unchecked_witness :
  let s := sampleMemory 1 0 0 in
  getConversation "c0" s = Some (sampleConversation 0 0 0) /\
  getCurrentConversationId (setCurrentConversation "nowhere" s) = Some "nowhere" /\
  exists s',
    importConversations Iso.parse (Parsed (JArray [])) (setCurrentConversation "c0" s)
      = Some (true, s') /\
    getCurrentConversationId s' = Some "c0" /\
    getConversation "c0" s' = None.
Proof.
  cbv zeta. split; [reflexivity|].
  destruct (current_marker_is_unchecked Iso.parse) as (Hset & _ & Hdangling & _).
  split; [apply Hset|].
  apply (Hdangling "c0" (sampleConversation 0 0 0) (sampleMemory 1 0 0)).
  reflexivity.
Defined.

(** ** [encodeURIComponent] and the placeholder *)

Lemma option_map_none {A B : Type} (f : A -> B) (x : option A) :
  option_map f x = None <-> x = None.
Proof. destruct x; cbn; split; congruence. Qed.

Lemma unreservedUnit_not_surrogate (u : Z) :
  JsString.unreservedUnit u = true ->
  JsString.isLeadSurrogate u = false /\ JsString.isTrailSurrogate u = false.
Proof.
  unfold JsString.unreservedUnit, JsString.isLeadSurrogate, JsString.isTrailSurrogate.
  intros H. apply andb_prop in H as [H _]. apply andb_prop in H as [_ H]. lia.
Qed.

(** [encodeURIComponent] throws exactly on a string that is not well
    formed. *)
Lemma encodeURIComponent_throws (s : JsString.utf16) :
  JsString.encodeURIComponent s = None <-> JsString.isWellFormed s = false.
Proof.
  remember (List.length s) as n eqn:Hn. revert s Hn.
  induction n as [n IH] using lt_wf_ind. intros s Hn.
  destruct s as [|u rest]; [cbn; split; discriminate|].
  cbn [JsString.encodeURIComponent JsString.isWellFormed].
  assert (Hrest : JsString.encodeURIComponent rest = None <->
                  JsString.isWellFormed rest = false).
  { apply (IH (List.length rest)); [subst n; cbn; lia | reflexivity]. }
  destruct (JsString.unreservedUnit u) eqn:Hun.
  { destruct (unreservedUnit_not_surrogate u Hun) as [-> ->].
    rewrite option_map_none. cbn [negb andb]. exact Hrest. }
  destruct (JsString.isLeadSurrogate u).
  - destruct rest as [|v rest']; [split; reflexivity|].
    destruct (JsString.isTrailSurrogate v); cbn [andb]; [|split; reflexivity].
    rewrite option_map_none.
    apply (IH (List.length rest')); [subst n; cbn; lia | reflexivity].
  - destruct (JsString.isTrailSurrogate u); cbn [negb andb]; [split; reflexivity|].
    rewrite option_map_none. exact Hrest.
Qed.

Section PlaceholderShape.

Import ImageRoute.

Variable numberText : string -> string.
Variable toLowerCase : JsString.utf16 -> JsString.utf16.

(** The url [generateAdvancedPlaceholder] builds from a size and a
    prompt that are strings. *)
Lemma generateAdvancedPlaceholder_text (p : Prompt) (size : string)
  (text : JsString.utf16) :
  promptText p = Some text ->
  exists height width category color,
    In (category, color)
       [("portrait", "purple"); ("landscape", "green"); ("urban", "gray");
        ("animal", "orange"); ("food", "red"); ("abstract", "blue")] /\
    generateAdvancedPlaceholder numberText toLowerCase p (JString size) =
    option_map
      (fun encodedPrompt =>
         "/placeholder.svg?height=" ++ height ++ "&width=" ++ width
         ++ "&text=" ++ encodedPrompt
         ++ "&category=" ++ category ++ "&color=" ++ color)
      (JsString.encodeURIComponent (truncatedPrompt text)).
Proof.
  intros Htext. unfold generateAdvancedPlaceholder. rewrite Htext.
  do 2 eexists.
  destruct (hasKeyword _ _);
    [exists "portrait", "purple"; split;
       [cbn; tauto | destruct (JsString.encodeURIComponent _); reflexivity]|].
  destruct (hasKeyword _ _);
    [exists "landscape", "green"; split;
       [cbn; tauto | destruct (JsString.encodeURIComponent _); reflexivity]|].
  destruct (hasKeyword _ _);
    [exists "urban", "gray"; split;
       [cbn; tauto | destruct (JsString.encodeURIComponent _); reflexivity]|].
  destruct (hasKeyword _ _);
    [exists "animal", "orange"; split;
       [cbn; tauto | destruct (JsString.encodeURIComponent _); reflexivity]|].
  destruct (hasKeyword _ _);
    [exists "food", "red"; split;
       [cbn; tauto | destruct (JsString.encodeURIComponent _); reflexivity]|].
  exists "abstract", "blue". split;
    [cbn; tauto | destruct (JsString.encodeURIComponent _); reflexivity].
Qed.

(** [generateAdvancedPlaceholder] throws exactly when the size is not a
    string, the prompt is not a string, or the prompt, cut after 100
    code units, is not well formed. *)
Lemma generateAdvancedPlaceholder_throws (p : Prompt) (size : json) :
  generateAdvancedPlaceholder numberText toLowerCase p size = None <->
  (forall s, size <> JString s) \/
  promptText p = None \/
  (exists text,
     promptText p = Some text /\
     JsString.isWellFormed (truncatedPrompt text) = false).
Proof.
  destruct size as [| b | q | s | items | fields];
    try (split; [intros _; left; intros s0; discriminate | reflexivity]).
  destruct (promptText p) as [text|] eqn:Htext.
  - destruct (generateAdvancedPlaceholder_text p s text Htext)
      as (height & width & category & color & _ & ->).
    rewrite option_map_none, encodeURIComponent_throws. split.
    + intros H. right. right. exists text. split; [reflexivity | exact H].
    + intros [H | [H | (text' & [= <-] & H)]]; [|discriminate | exact H].
      exfalso. apply (H s). reflexivity.
  - split; [intros _; right; left; reflexivity|].
    intros _. unfold generateAdvancedPlaceholder. rewrite Htext. reflexivity.
Qed.

Lemma placeholder_is_reference (p : Prompt) (size : json) (placeholder : string) :
  generateAdvancedPlaceholder numberText toLowerCase p size = Some placeholder ->
  prefix "/placeholder.svg?" placeholder = true.
Proof.
  intros H.
  destruct size as [| b | q | s | items | fields]; try discriminate.
  destruct (promptText p) as [text|] eqn:Htext.
  - destruct (generateAdvancedPlaceholder_text p s text Htext)
      as (height & width & category & color & _ & Hshape).
    rewrite Hshape in H.
    destruct (JsString.encodeURIComponent (truncatedPrompt text)); [|discriminate].
    injection H as <-. reflexivity.
  - unfold generateAdvancedPlaceholder in H. rewrite Htext in H. discriminate.
Qed.

Lemma upstreamFails_items (outcome : FetchOutcome) :
  upstreamFails outcome <-> upstreamItems outcome = None.
Proof.
  split.
  - destruct 1; simpl; auto.
  - destruct outcome as [msg | [|] st [|data]]; simpl; intros H; try constructor.
    exact H.
Qed.

End PlaceholderShape.

(** ** The chat route: the runs of the handler *)

Section ChatCases.

Import ChatRoute.

Lemma mapped_all (items : list ChatMessage) :
  mapped (map Some items) = Some items.
Proof.
  induction items as [|msg rest IH]; [reflexivity|].
  cbn [map mapped]. rewrite IH. reflexivity.
Qed.

Lemma sampling_none (o : ImageRoute.Defaulted ChatOptions) :
  sampling o = None <-> o = ImageRoute.Null.
Proof. destruct o; cbn; split; congruence. Qed.

Lemma getRandomApiKey_none (configured : list string) (random : JsNumber.number) :
  ImageRoute.getRandomApiKey configured random = None <-> configured = [].
Proof.
  unfold ImageRoute.getRandomApiKey. destruct configured as [|key rest].
  - split; reflexivity.
  - split; [|discriminate].
    destruct (JsNumber.floor _) as [index|]; [destruct (0 <=? index)|]; discriminate.
Qed.

(** The shapes of a run of the handler on a request with a message: no
    call, with the reason; a call to Groq; a call to OpenRouter. *)
Lemma chat_POST_with_message (env : ChatEnv) (w : ChatWorld) (req : ChatRequest)
  (text : string) :
  message req = Some text ->
  text <> "" ->
  let requested :=
    match model req with
    | Some m => m
    | None => "deepseek/deepseek-r1-0528:free"
    end in
  let result := POST env w (inr req) in
  (fst result = [] /\ status (snd result) = 500 /\
   ((history (messages req) = None /\
     body (snd result) = Failed "Failed to generate response" None) \/
    (history (messages req) <> None /\
     isGroqModel requested = true /\
     (GROQ_API_KEY env = None \/ GROQ_API_KEY env = Some "") /\
     body (snd result) =
       Failed "Failed to generate response" (Some "Groq API key not configured")) \/
    (history (messages req) <> None /\
     isGroqModel requested = false /\
     ImageRoute.OPENROUTER_API_KEYS (keys env) = [] /\
     body (snd result) =
       Failed "Failed to generate response"
         (Some "No OpenRouter API keys configured")) \/
    (history (messages req) <> None /\
     options req = ImageRoute.Null /\
     (if isGroqModel requested
      then exists key, GROQ_API_KEY env = Some key /\ key <> ""
      else ImageRoute.OPENROUTER_API_KEYS (keys env) <> []) /\
     body (snd result) = Failed "Failed to generate response" None))) \/
  (exists call past,
     fst result = [ToGroq call] /\
     isGroqModel requested = true /\
     (exists key, GROQ_API_KEY env = Some key /\ key <> "") /\
     history (messages req) = Some past /\
     options req <> ImageRoute.Null /\
     groqModel call = requested /\
     groqMessages call =
       (systemPrompt :: past ++ [{| role := "user"; content := text |}])%list /\
     match generateText w call with
     | GenerateThrows error => snd result = failure (Some error)
     | Generated answer =>
         snd result =
         {| status := 200; body := Answered (Some (JString answer)) requested "Groq" |}
     end) \/
  (exists call past,
     fst result = [ToOpenRouter call] /\
     isGroqModel requested = false /\
     ImageRoute.OPENROUTER_API_KEYS (keys env) <> [] /\
     history (messages req) = Some past /\
     options req <> ImageRoute.Null /\
     orModel call = requested /\
     orMessages call =
       (systemPrompt :: past ++ [{| role := "user"; content := text |}])%list /\
     match fetch w call with
     | ImageRoute.FetchThrows error => snd result = failure (Some error)
     | ImageRoute.FetchResponse false upstreamStatus responseBody =>
         snd result =
         match upstreamErrorMessage upstreamStatus responseBody with
         | Ok message => failure (Some message)
         | _ => failure None
         end
     | ImageRoute.FetchResponse true _ Unparseable => snd result = failure None
     | ImageRoute.FetchResponse true _ (Parsed data) =>
         snd result =
         match completionText data with
         | Ok (Some answer) =>
             {| status := 200; body := Answered answer requested "OpenRouter" |}
         | Ok None => failure (Some "Invalid response format from API")
         | _ => failure None
         end
     end).
Proof.
  intros Hmessage Htext requested result.
  unfold result, POST. rewrite Hmessage.
  destruct text as [|c text]; [contradiction|].
  fold requested.
  destruct (history (messages req)) as [past|] eqn:Hpast.
  2: { left. cbn. split; [reflexivity|]. split; [reflexivity|].
       left. split; reflexivity. }
  assert (Hsome : Some past <> None) by discriminate.
  destruct (isGroqModel requested) eqn:Hgroq.
  - destruct (GROQ_API_KEY env) as [[|c' key]|] eqn:Hkey.
    + left. cbn. split; [reflexivity|]. split; [reflexivity|].
      right. left. repeat split; auto.
    + destruct (options req) as [| |o] eqn:Hoptions; cbn [sampling].
      * right. left.
        match goal with
        | |- context [generateText w ?c] => exists c, past; destruct (generateText w c)
        end;
          (split; [reflexivity|]; split; [reflexivity|];
           split; [exists (String c' key); split; [reflexivity | discriminate]|];
           split; [reflexivity|]; split; [discriminate|];
           split; [reflexivity|]; split; reflexivity).
      * left. cbn. split; [reflexivity|]. split; [reflexivity|].
        right. right. right. split; [exact Hsome|]. split; [reflexivity|].
        split; [|reflexivity].
        exists (String c' key). split; [reflexivity | discriminate].
      * right. left.
        match goal with
        | |- context [generateText w ?c] => exists c, past; destruct (generateText w c)
        end;
          (split; [reflexivity|]; split; [reflexivity|];
           split; [exists (String c' key); split; [reflexivity | discriminate]|];
           split; [reflexivity|]; split; [discriminate|];
           split; [reflexivity|]; split; reflexivity).
    + left. cbn. split; [reflexivity|]. split; [reflexivity|].
      right. left. repeat split; auto.
  - destruct (ImageRoute.getRandomApiKey (ImageRoute.OPENROUTER_API_KEYS (keys env))
                (random w)) as [apiKey|] eqn:Hkey.
    + assert (Hkeys : ImageRoute.OPENROUTER_API_KEYS (keys env) <> []).
      { intros Hnone. apply getRandomApiKey_none with (random := random w) in Hnone.
        congruence. }
      destruct (options req) as [| |o] eqn:Hoptions; cbn [sampling].
      * right. right.
        match goal with
        | |- context [fetch w ?c] => exists c, past; destruct (fetch w c) as [|[] ? []]
        end;
          (split; [reflexivity|]; split; [reflexivity|]; split; [exact Hkeys|];
           split; [reflexivity|]; split; [discriminate|];
           split; [reflexivity|]; split; reflexivity).
      * left. cbn. split; [reflexivity|]. split; [reflexivity|].
        right. right. right. repeat split; auto.
      * right. right.
        match goal with
        | |- context [fetch w ?c] => exists c, past; destruct (fetch w c) as [|[] ? []]
        end;
          (split; [reflexivity|]; split; [reflexivity|]; split; [exact Hkeys|];
           split; [reflexivity|]; split; [discriminate|];
           split; [reflexivity|]; split; reflexivity).
    + left. cbn. split; [reflexivity|]. split; [reflexivity|].
      right. right. left. apply getRandomApiKey_none in Hkey. repeat split; auto.
Qed.

Lemma failure_status (details : option string) : status (failure details) = 500.
Proof. reflexivity. Qed.

End ChatCases.

(** ** The chat route: provider routing *)

Section ChatRouting.

Import ChatRoute.

Lemma isGroqModel_allow_list (modelId : string) :
  isGroqModel modelId = true <->
  modelId = "llama-3.3-70b-versatile" \/ modelId = "llama-3.1-8b-instant" \/
  modelId = "llama3-70b-8192" \/ modelId = "llama3-8b-8192" \/
  modelId = "gemma2-9b-it".
Proof.
  unfold isGroqModel, groqModels. rewrite existsb_exists. split.
  - intros (m & Hin & Heq). apply String.eqb_eq in Heq. subst m.
    simpl in Hin. intuition.
  - intros H. exists modelId. split; [|apply String.eqb_refl].
    simpl. intuition.
Qed.

(** C8.  The provider is a function of the model identifier alone:
    [route] answers "Groq" on exactly the five identifiers of the
    allow-list and "OpenRouter" on every other one, among them
    "anthropic/claude-sonnet-4".  The handler follows it.  For every
    environment, host behaviour and request, each upstream call it
    makes carries the requested model (or the default one) and goes to
    the provider [route] gives for it, and a success response names that
    provider.  And the call is made: on a request with a message, a
    history that can be mapped and [options] other than [null], with the
    credential of that provider configured, the handler makes exactly
    one upstream call, to that provider, for the requested model and
    with the history followed by the message. *)
Theorem chat_routing_by_allow_list :
  (forall modelId,
     route modelId = "Groq" <->
     modelId = "llama-3.3-70b-versatile" \/ modelId = "llama-3.1-8b-instant" \/
     modelId = "llama3-70b-8192" \/ modelId = "llama3-8b-8192" \/
     modelId = "gemma2-9b-it") /\
  (forall modelId, route modelId <> "Groq" -> route modelId = "OpenRouter") /\
  route "llama-3.3-70b-versatile" = "Groq" /\
  route "anthropic/claude-sonnet-4" = "OpenRouter" /\
  (forall env w req,
     let requested :=
       match model req with
       | Some m => m
       | None => "deepseek/deepseek-r1-0528:free"
       end in
     (forall call, In call (fst (POST env w (inr req))) ->
        modelOf call = requested /\ providerOf call = route requested) /\
     (forall text answeredModel provider,
        body (snd (POST env w (inr req))) = Answered text answeredModel provider ->
        answeredModel = requested /\ provider = route requested) /\
     (forall text past,
        message req = Some text ->
        text <> "" ->
        history (messages req) = Some past ->
        options req <> ImageRoute.Null ->
        (if isGroqModel requested
         then exists key, GROQ_API_KEY env = Some key /\ key <> ""
         else ImageRoute.OPENROUTER_API_KEYS (keys env) <> []) ->
        exists call,
          fst (POST env w (inr req)) = [call] /\
          providerOf call = route requested /\
          modelOf call = requested /\
          match call with
          | ToGroq c => groqMessages c
          | ToOpenRouter c => orMessages c
          end = (systemPrompt :: past ++ [{| role := "user"; content := text |}])%list)).
Proof.
  split.
  { intros modelId. rewrite <- isGroqModel_allow_list. unfold route.
    destruct (isGroqModel modelId); split; congruence. }
  split.
  { intros modelId. unfold route. destruct (isGroqModel modelId); congruence. }
  split; [reflexivity|]. split; [reflexivity|].
  intros env w req requested.
  destruct (message req) as [text|] eqn:Hmessage.
  2: { unfold POST. rewrite Hmessage. cbn [fst snd body].
       split; [intros call []|]. split; [discriminate|]. discriminate. }
  destruct (string_dec text "") as [-> | Htext].
  { unfold POST. rewrite Hmessage. cbn [fst snd body].
    split; [intros call []|]. split; [discriminate|].
    intros text past [= <-] Hne. contradiction. }
  pose proof (chat_POST_with_message env w req text Hmessage Htext) as Hcases.
  cbv zeta in Hcases. fold requested in Hcases. unfold route.
  destruct Hcases
    as [(Hcalls & _ & Hwhy)
       | [(call & past & Hcalls & Hgroq & Hkey & Hpast & Hoptions & Hmodel & Hsent & Hout)
         | (call & past & Hcalls & Hgroq & Hkeys & Hpast & Hoptions & Hmodel & Hsent
            & Hout)]];
    rewrite Hcalls.
  - split; [intros call []|]. split.
    + intros answer m p Hbody.
      destruct Hwhy as [(_ & Hb) | [(_ & _ & _ & Hb) | [(_ & _ & _ & Hb)
                                                       | (_ & _ & _ & Hb)]]];
        rewrite Hb in Hbody; discriminate.
    + intros text' past [= <-] _ Hpast Hoptions Hcredential. exfalso.
      destruct Hwhy as [(Hnone & _) | [(_ & Hg & Hk & _) | [(_ & Hg & Hk & _)
                                                           | (_ & Hnull & _)]]].
      * congruence.
      * rewrite Hg in Hcredential. destruct Hcredential as (key & Hsome & Hne).
        destruct Hk as [Hk | Hk]; rewrite Hk in Hsome; congruence.
      * rewrite Hg in Hcredential. contradiction.
      * contradiction.
  - rewrite Hgroq. split.
    { intros call' [<- | []]. split; [exact Hmodel | reflexivity]. }
    split.
    + intros answer m p Hbody.
      destruct (generateText w call); rewrite Hout in Hbody;
        cbn [body failure] in Hbody; [discriminate|].
      injection Hbody as _ <- <-. split; reflexivity.
    + intros text' past' [= <-] _ Hpast' _ _.
      exists (ToGroq call). split; [reflexivity|]. split; [reflexivity|].
      split; [exact Hmodel|]. cbn. congruence.
  - rewrite Hgroq. split.
    { intros call' [<- | []]. split; [exact Hmodel | reflexivity]. }
    split.
    + intros answer m p Hbody.
      destruct (fetch w call) as [error | [] upstreamStatus [|data]];
        rewrite Hout in Hbody; cbn [body failure] in Hbody; try discriminate.
      * destruct (completionText data) as [[answer'|]| |]; cbn [body failure] in Hbody;
          try discriminate.
        injection Hbody as _ <- <-. split; reflexivity.
      * destruct (upstreamErrorMessage upstreamStatus (Parsed data));
          cbn [body failure] in Hbody; discriminate.
    + intros text' past' [= <-] _ Hpast' _ _.
      exists (ToOpenRouter call). split; [reflexivity|]. split; [reflexivity|].
      split; [exact Hmodel|]. cbn. congruence.
Qed.

(** Routing of a request for an allow-listed model and of one for
    another model: the call each of them makes, and the answer. *)
Lemma chat_routing_by_allow_list_witness :
  let env := mkChatEnv (Some "gsk") (sampleEnv ["sk-or-1"]) in
  let w := mkChatWorld sampleRandom (fun _ => Generated "Hello!")
             (fun _ => ImageRoute.FetchResponse true 200
                (Parsed (JObject
                   [("choices",
                     JArray [JObject [("message",
                                       JObject [("content", JString "Hi")])]])]))) in
  route "gemma2-9b-it" = "Groq" /\
  route "openai/gpt-4o" <> "Groq" /\
  (exists call,
     fst (POST env w (inr (sampleChatRequest "gemma2-9b-it"))) = [call] /\
     providerOf call = "Groq" /\
     modelOf call = "gemma2-9b-it") /\
  fst (POST env w (inr (sampleChatRequest "openai/gpt-4o"))) =
    [ToOpenRouter sampleOpenRouterCall] /\
  snd (POST env w (inr (sampleChatRequest "gemma2-9b-it"))) =
    mkChatResponse 200 (Answered (Some (JString "Hello!")) "gemma2-9b-it" "Groq") /\
  snd (POST env w (inr (sampleChatRequest "openai/gpt-4o"))) =
    mkChatResponse 200 (Answered (Some (JString "Hi")) "openai/gpt-4o" "OpenRouter").
Proof.
  cbv zeta.
  destruct chat_routing_by_allow_list as (Hgroq & Hother & _ & _ & Hhandler).
  split; [apply Hgroq; intuition|].
  split; [vm_compute; discriminate|].
  split.
  { destruct (Hhandler
                (mkChatEnv (Some "gsk") (sampleEnv ["sk-or-1"]))
                (mkChatWorld sampleRandom (fun _ => Generated "Hello!")
                   (fun _ => ImageRoute.FetchThrows "unreachable"))
                (sampleChatRequest "gemma2-9b-it"))
      as (_ & _ & Hcall).
    destruct (Hcall "Hi" [] eq_refl) as (call & Hcalls & Hprovider & Hmodel & _).
    - discriminate.
    - reflexivity.
    - discriminate.
    - exists "gsk". split; [reflexivity | discriminate].
    - exists call. split; [exact Hcalls|]. split; [exact Hprovider | exact Hmodel]. }
  split; [vm_compute; reflexivity|].
  split; vm_compute; reflexivity.
Defined.

End ChatRouting.

(** ** The image route: fallback *)

Section ImageFallback.

Import ImageRoute.

Variable numberText : string -> string.
Variable toLowerCase : JsString.utf16 -> JsString.utf16.

(** C9, as amended.  For a request with a prompt that is not falsy, the
    handler answers 200 with a placeholder reference as first image url
    whenever the upstream path fails, but [metadata.fallback] is true
    only on one of its two ways out.  When a credential is configured
    and [options] is not [null], the handler makes one upstream call;
    when that call fails (a transport error, a non-success status, a
    body that does not parse, or a parsed body without image data) and
    [generateAdvancedPlaceholder] returns, the url is the one it
    generated and [metadata.fallback] is true; when it throws, the
    response is the one of the outer [catch]: the fixed placeholder url,
    the fallback marker true at the top level of the body and [metadata]
    carrying none.  When no credential is configured or [options] is
    [null], the handler makes no call and answers from the outer [catch]
    too.  [generateAdvancedPlaceholder] throws exactly when the size is
    not a string, the prompt is not a string, or the prompt, cut after
    100 code units, has a surrogate standing alone. *)
Theorem image_fallback_response (env : Env) (w : World) (req : RequestBody)
  (p : Prompt) :
  prompt req = Some p ->
  truthyPrompt p = true ->
  let result := POST numberText toLowerCase env w (inr req) in
  (OPENROUTER_API_KEYS env <> [] ->
   options req <> Null ->
   (forall call, In call (fst result) -> upstreamFails (fetch w call)) ->
   List.length (fst result) = 1%nat /\
   status (snd result) = 200 /\
   isPlaceholderReference (firstImageUrl (snd result)) = true /\
   match generateAdvancedPlaceholder numberText toLowerCase p (sizeOf (options req)) with
   | Some placeholder =>
       firstImageUrl (snd result) = Some (JString placeholder) /\
       metadataFallback (snd result) = Some true
   | None =>
       firstImageUrl (snd result) =
         Some (JString
                 "/placeholder.svg?height=512&width=512&text=Image%20Generation%20Error") /\
       metadataFallback (snd result) = None /\
       topLevelFallback (snd result) = Some true
   end) /\
  (OPENROUTER_API_KEYS env = [] \/ options req = Null ->
   fst result = [] /\
   status (snd result) = 200 /\
   firstImageUrl (snd result) =
     Some (JString "/placeholder.svg?height=512&width=512&text=Image%20Generation%20Error") /\
   isPlaceholderReference (firstImageUrl (snd result)) = true /\
   metadataFallback (snd result) = None /\
   topLevelFallback (snd result) = Some true) /\
  (generateAdvancedPlaceholder numberText toLowerCase p (sizeOf (options req)) = None <->
   (forall s, sizeOf (options req) <> JString s) \/
   promptText p = None \/
   (exists text,
      promptText p = Some text /\
      JsString.isWellFormed (truncatedPrompt text) = false)).
Proof.
  intros Hprompt Htruthy result. subst result. unfold POST.
  rewrite Hprompt, Htruthy. cbn [negb].
  split; [|split; [|apply generateAdvancedPlaceholder_throws]].
  - intros Hkeys Hoptions Hfails.
    destruct (getRandomApiKey (OPENROUTER_API_KEYS env) (random w)) as [apiKey|] eqn:Hkey.
    2: { apply getRandomApiKey_none in Hkey. contradiction. }
    destruct (options req) as [| |o] eqn:Eo; [|contradiction|].
    all: match goal with
         | |- context [upstreamItems (fetch ?host ?call)] =>
             set (upstream := call) in *;
             destruct (upstreamItems (fetch host upstream)) as [items|] eqn:Hitems
         end;
         [exfalso; specialize (Hfails upstream (or_introl eq_refl));
          apply upstreamFails_items in Hfails; congruence|].
    all: destruct (generateAdvancedPlaceholder numberText toLowerCase p _)
           as [placeholder|] eqn:Hplaceholder;
         cbn [fst snd status firstImageUrl body url metadataFallback metaFallback
              topLevelFallback isPlaceholderReference List.length emergency];
         [rewrite (placeholder_is_reference _ _ _ _ _ Hplaceholder)|];
         repeat split; reflexivity.
  - intros Hnone.
    destruct (getRandomApiKey (OPENROUTER_API_KEYS env) (random w)) as [apiKey|] eqn:Hkey.
    + destruct Hnone as [Hkeys | Hnull].
      * apply getRandomApiKey_none with (random := random w) in Hkeys. congruence.
      * rewrite Hnull. repeat split; reflexivity.
    + repeat split; reflexivity.
Qed.

End ImageFallback.

(** Three requests with a prompt whose response has status 200 and a
    placeholder url but no [fallback] field in its [metadata], the
    marker being at the top level of the body: with no credential
    configured; with a credential, a failed upstream call and a prompt
    that is cut inside a surrogate pair; with a credential and [options]
    [null]. *)
Lemma image_fallback_without_metadata_marker :
  let failing := sampleWorld (ImageRoute.FetchThrows "fetch failed") in
  let unkeyed :=
    snd (ImageRoute.POST sampleNumberText sampleLowerCase (sampleEnv []) failing
           (sampleImageRequest "a cat on a mat")) in
  let split :=
    snd (ImageRoute.POST sampleNumberText sampleLowerCase (sampleEnv ["sk-or-1"]) failing
           (sampleImageBody (ImageRoute.PromptText sampleSplitPrompt) ImageRoute.Absent)) in
  let nulled :=
    snd (ImageRoute.POST sampleNumberText sampleLowerCase (sampleEnv ["sk-or-1"]) failing
           (sampleImageBody (ImageRoute.PromptText (JsString.ofString "a cat on a mat"))
              ImageRoute.Null)) in
  (ImageRoute.status unkeyed = 200 /\
   ImageRoute.isPlaceholderReference (ImageRoute.firstImageUrl unkeyed) = true /\
   ImageRoute.metadataFallback unkeyed = None /\
   ImageRoute.metadataFallback unkeyed <> Some true /\
   ImageRoute.topLevelFallback unkeyed = Some true) /\
  (ImageRoute.status split = 200 /\
   ImageRoute.isPlaceholderReference (ImageRoute.firstImageUrl split) = true /\
   ImageRoute.metadataFallback split <> Some true /\
   ImageRoute.topLevelFallback split = Some true) /\
  (ImageRoute.status nulled = 200 /\
   ImageRoute.isPlaceholderReference (ImageRoute.firstImageUrl nulled) = true /\
   ImageRoute.metadataFallback nulled <> Some true /\
   ImageRoute.topLevelFallback nulled = Some true).
Proof. cbv zeta. repeat split; vm_compute; try reflexivity; discriminate. Qed.

(** The fallback on a request whose upstream call answers 503. *)
Lemma image_fallback_response_witness :
  let env := sampleEnv ["sk-or-1"; "sk-or-2"] in
  let w := sampleWorld (ImageRoute.FetchResponse false 503 Unparseable) in
  let p := ImageRoute.PromptText (JsString.ofString "a cat on a mat") in
  let req := ImageRoute.mkRequestBody (Some p) None ImageRoute.Absent in
  ImageRoute.prompt req = Some p /\
  ImageRoute.truthyPrompt p = true /\
  ImageRoute.OPENROUTER_API_KEYS env <> [] /\
  ImageRoute.options req <> ImageRoute.Null /\
  ImageRoute.firstImageUrl
    (snd (ImageRoute.POST sampleNumberText sampleLowerCase env w (inr req))) =
    Some (JString
      "/placeholder.svg?height=1024&width=1024&text=a%20cat%20on%20a%20mat&category=animal&color=orange") /\
  ImageRoute.metadataFallback
    (snd (ImageRoute.POST sampleNumberText sampleLowerCase env w (inr req))) =
    Some true.
Proof.
  cbv zeta. split; [reflexivity|]. split; [reflexivity|].
  split; [discriminate|]. split; [discriminate|].
  destruct (image_fallback_response sampleNumberText sampleLowerCase
              (sampleEnv ["sk-or-1"; "sk-or-2"])
              (sampleWorld (ImageRoute.FetchResponse false 503 Unparseable))
              (ImageRoute.mkRequestBody
                 (Some (ImageRoute.PromptText (JsString.ofString "a cat on a mat")))
                 None ImageRoute.Absent)
              (ImageRoute.PromptText (JsString.ofString "a cat on a mat"))
              eq_refl eq_refl)
    as [Hfallback _].
  destruct Hfallback as (_ & _ & _ & Hout).
  - discriminate.
  - discriminate.
  - intros call _. constructor.
  - exact Hout.
Defined.

(* ================================================================== *)
(** * Further properties of the conversation store *)

(** ** Lookup and listing *)

Lemma In_get (key : string) (c : Conversation.t) (m : Map.t) :
  NoDup (Map.keys m) -> In (key, c) m -> Map.get key m = Some c.
Proof.
  induction m as [|[k v] m IH]; simpl; intros Hnd Hin; [contradiction|].
  inversion Hnd as [|? ? Hk Hnd']; subst.
  destruct Hin as [Heq | Hin].
  - injection Heq as -> ->. rewrite String.eqb_refl. reflexivity.
  - destruct (String.eqb_spec k key) as [-> | Hne].
    + exfalso. apply Hk. apply in_map_iff.
      exists (key, c). split; [reflexivity | exact Hin].
    + apply IH; assumption.
Qed.

Lemma sort_insert_perm {A : Type} (comparefn : A -> A -> Z) (x : A) (l : list A) :
  Permutation (x :: l) (sort_insert comparefn x l).
Proof.
  induction l as [|y l IH]; simpl; [apply Permutation_refl|].
  destruct (comparefn x y <=? 0); [apply Permutation_refl|].
  eapply perm_trans; [apply perm_swap|]. apply perm_skip. exact IH.
Qed.

Lemma sort_perm {A : Type} (comparefn : A -> A -> Z) (l : list A) :
  Permutation l (sort comparefn l).
Proof.
  induction l as [|x l IH]; simpl; [apply perm_nil|].
  eapply perm_trans; [apply perm_skip; exact IH | apply sort_insert_perm].
Qed.

Lemma updatedNoEarlier_trans (a b c : Conversation.t) :
  updatedNoEarlier a b -> updatedNoEarlier b c -> updatedNoEarlier a c.
Proof.
  unfold updatedNoEarlier.
  destruct (Conversation.updatedAt a), (Conversation.updatedAt b),
    (Conversation.updatedAt c); try contradiction; lia.
Qed.

(** On valid dates the comparator of [getAllConversations] is the order
    "updated no earlier than". *)
Lemma compare_updatedAt_desc_spec (a b : Conversation.t) :
  Conversation.updatedAt a <> None -> Conversation.updatedAt b <> None ->
  (compare_updatedAt_desc a b <= 0 <-> updatedNoEarlier a b) /\
  (0 < compare_updatedAt_desc a b -> updatedNoEarlier b a).
Proof.
  unfold compare_updatedAt_desc, updatedNoEarlier, time_diff.
  destruct (Conversation.updatedAt a), (Conversation.updatedAt b);
    try contradiction; intros _ _; lia.
Qed.

Lemma sort_insert_desc_sorted (x : Conversation.t) (l : list Conversation.t) :
  Conversation.updatedAt x <> None ->
  (forall c, In c l -> Conversation.updatedAt c <> None) ->
  StronglySorted updatedNoEarlier l ->
  StronglySorted updatedNoEarlier (sort_insert compare_updatedAt_desc x l).
Proof.
  intros Hx. induction l as [|y l IH]; intros Hl Hsorted; simpl.
  - constructor; [constructor | constructor].
  - assert (Hy : Conversation.updatedAt y <> None) by (apply Hl; left; reflexivity).
    destruct (compare_updatedAt_desc_spec x y Hx Hy) as [Hle Hgt].
    inversion Hsorted as [|? ? Hrest Hall]; subst.
    destruct (Z.leb_spec (compare_updatedAt_desc x y) 0) as [Hc | Hc].
    + constructor; [exact Hsorted|].
      constructor; [apply Hle; exact Hc|].
      rewrite Forall_forall in *. intros c Hc'.
      eapply updatedNoEarlier_trans; [apply Hle; exact Hc | apply Hall; exact Hc'].
    + constructor.
      * apply IH; [intros c Hc'; apply Hl; right; exact Hc' | exact Hrest].
      * rewrite Forall_forall in *. intros c Hc'.
        apply (Permutation_in _
                 (Permutation_sym (sort_insert_perm compare_updatedAt_desc x l))) in Hc'.
        destruct Hc' as [<- | Hc']; [apply Hgt; exact Hc | apply Hall; exact Hc'].
Qed.

Lemma sort_desc_sorted (l : list Conversation.t) :
  (forall c, In c l -> Conversation.updatedAt c <> None) ->
  StronglySorted updatedNoEarlier (sort compare_updatedAt_desc l).
Proof.
  induction l as [|x l IH]; intros Hl; simpl; [constructor|].
  apply sort_insert_desc_sorted.
  - apply Hl. left. reflexivity.
  - intros c Hc. apply Hl. right.
    apply (Permutation_in _ (Permutation_sym (sort_perm compare_updatedAt_desc l))).
    exact Hc.
  - apply IH. intros c Hc. apply Hl. right. exact Hc.
Qed.

(** The sort is stable: the conversations updated at one instant keep
    the order they had. *)
Lemma sort_insert_desc_stable (t : Z) (x : Conversation.t) (l : list Conversation.t) :
  Conversation.updatedAt x <> None ->
  (forall c, In c l -> Conversation.updatedAt c <> None) ->
  filter (updatedAtIs t) (sort_insert compare_updatedAt_desc x l) =
  filter (updatedAtIs t) (x :: l).
Proof.
  intros Hx. induction l as [|y l IH]; intros Hl; [reflexivity|].
  cbn [sort_insert].
  destruct (Z.leb_spec (compare_updatedAt_desc x y) 0) as [Hc | Hc]; [reflexivity|].
  assert (Hy : Conversation.updatedAt y <> None) by (apply Hl; left; reflexivity).
  cbn [filter]. rewrite IH by (intros c Hc'; apply Hl; right; exact Hc').
  cbn [filter].
  unfold compare_updatedAt_desc, time_diff in Hc. unfold updatedAtIs.
  destruct (Conversation.updatedAt x) as [tx|]; [|contradiction].
  destruct (Conversation.updatedAt y) as [ty|]; [|contradiction].
  destruct (Z.eqb_spec tx t), (Z.eqb_spec ty t); try reflexivity. lia.
Qed.

Lemma sort_desc_stable (t : Z) (l : list Conversation.t) :
  (forall c, In c l -> Conversation.updatedAt c <> None) ->
  filter (updatedAtIs t) (sort compare_updatedAt_desc l) = filter (updatedAtIs t) l.
Proof.
  induction l as [|x l IH]; intros Hl; [reflexivity|].
  cbn [sort]. rewrite sort_insert_desc_stable.
  - cbn [filter]. rewrite IH by (intros c Hc; apply Hl; right; exact Hc). reflexivity.
  - apply Hl. left. reflexivity.
  - intros c Hc. apply Hl. right.
    apply (Permutation_in _ (Permutation_sym (sort_perm compare_updatedAt_desc l))).
    exact Hc.
Qed.

Lemma values_In (m : Map.t) (c : Conversation.t) :
  In c (Map.values m) <-> exists k, In (k, c) m.
Proof.
  unfold Map.values. rewrite in_map_iff. split.
  - intros ([k c'] & Heq & Hin). simpl in Heq. subst. exists k. exact Hin.
  - intros (k & Hin). exists (k, c). split; [reflexivity | exact Hin].
Qed.

(** X1.  In every state a store goes through, the stored conversations
    have pairwise distinct ids, [getConversation] answers an id with a
    conversation of that id, and every conversation [getAllConversations]
    lists is the one [getConversation] returns for its id; the list has
    one entry per stored conversation. *)
Theorem conversations_are_stored_under_their_own_id
  (Date_parse : string -> Date) (s : ConversationMemory) :
  reachable Date_parse s ->
  NoDup (map Conversation.id (Map.values (conversations s))) /\
  (forall id c, getConversation id s = Some c -> Conversation.id c = id) /\
  (forall c, In c (getAllConversations s) ->
     getConversation (Conversation.id c) s = Some c) /\
  List.length (getAllConversations s) = Map.size (conversations s).
Proof.
  intros Hreach.
  pose proof (reachable_wellKeyed Date_parse s Hreach) as Hkeyed.
  pose proof Hkeyed as [Hnodup Hids].
  split; [|split; [|split]].
  - rewrite (wellKeyed_values_ids _ Hkeyed). exact Hnodup.
  - intros id c Hget. apply Hids. apply get_In. exact Hget.
  - intros c Hin. unfold getAllConversations in Hin.
    apply (Permutation_in _
             (Permutation_sym (sort_perm compare_updatedAt_desc _))) in Hin.
    unfold getConversation. apply In_get; [exact Hnodup|].
    apply In_values_keys; assumption.
  - unfold getAllConversations, Map.size.
    rewrite <- (Permutation_length (sort_perm compare_updatedAt_desc _)).
    unfold Map.values. apply length_map.
Qed.

(** X2.  When every stored conversation has a valid [updatedAt],
    [getAllConversations] returns the stored conversations, each once,
    ordered from the most recently updated to the least recently updated;
    conversations updated at the same instant keep their insertion
    order. *)
Theorem getAllConversations_most_recent_first (s : ConversationMemory) :
  (forall k c, In (k, c) (conversations s) -> Conversation.updatedAt c <> None) ->
  Permutation (Map.values (conversations s)) (getAllConversations s) /\
  StronglySorted updatedNoEarlier (getAllConversations s) /\
  (forall t, filter (updatedAtIs t) (getAllConversations s) =
             filter (updatedAtIs t) (Map.values (conversations s))).
Proof.
  intros Hdates.
  assert (Hvalues : forall c, In c (Map.values (conversations s)) ->
                              Conversation.updatedAt c <> None).
  { intros c Hin. apply values_In in Hin as (k & Hin). exact (Hdates k c Hin). }
  unfold getAllConversations. split; [|split].
  - apply sort_perm.
  - apply sort_desc_sorted. exact Hvalues.
  - intros t. apply sort_desc_stable. exact Hvalues.
Qed.

(** ** [deleteConversation] *)

Lemma keys_app (m1 m2 : Map.t) :
  Map.keys (m1 ++ m2)%list = (Map.keys m1 ++ Map.keys m2)%list.
Proof. unfold Map.keys. apply map_app. Qed.

Lemma delete_present (key : string) (c : Conversation.t) (m : Map.t) :
  NoDup (Map.keys m) -> Map.get key m = Some c ->
  exists before after,
    m = (before ++ (key, c) :: after)%list /\
    Map.delete key m = (before ++ after)%list.
Proof.
  intros Hnd Hget. apply get_In in Hget.
  apply in_split in Hget as (before & after & ->).
  exists before, after. split; [reflexivity|].
  rewrite keys_app in Hnd. cbn [Map.keys map fst] in Hnd.
  pose proof (NoDup_remove_2 _ _ _ Hnd) as Hout.
  rewrite delete_app.
  rewrite (delete_absent key before)
    by (intros H; apply Hout; apply in_or_app; left; exact H).
  unfold Map.delete at 1. cbn [filter fst]. rewrite String.eqb_refl. cbn [negb].
  fold (Map.delete key after).
  rewrite (delete_absent key after)
    by (intros H; apply Hout; apply in_or_app; right; exact H).
  reflexivity.
Qed.

(** X3.  In every state a store goes through, [deleteConversation]
    removes the conversation stored under the id and nothing else: the id
    is unknown afterwards, every other id is answered as before, the
    remaining conversations keep their order, and deleting an unknown id
    leaves the conversations as they are.  The current marker is cleared
    exactly when it named the deleted id. *)
Theorem deleteConversation_removes_that_conversation_only
  (Date_parse : string -> Date) (id : string) (s : ConversationMemory) :
  reachable Date_parse s ->
  let s' := deleteConversation id s in
  getConversation id s' = None /\
  (forall k, k <> id -> getConversation k s' = getConversation k s) /\
  match getConversation id s with
  | None => conversations s' = conversations s
  | Some c =>
      exists before after,
        conversations s = (before ++ (id, c) :: after)%list /\
        conversations s' = (before ++ after)%list
  end /\
  (getCurrentConversationId s = Some id -> getCurrentConversationId s' = None) /\
  (getCurrentConversationId s <> Some id ->
   getCurrentConversationId s' = getCurrentConversationId s).
Proof.
  intros Hreach s'.
  pose proof (reachable_wellKeyed Date_parse s Hreach) as [Hnodup _].
  unfold s', getConversation, getCurrentConversationId, deleteConversation.
  cbn [conversations currentConversationId].
  split; [|split; [|split; [|split]]].
  - rewrite get_delete, String.eqb_refl. reflexivity.
  - intros k Hk. rewrite get_delete.
    destruct (String.eqb_spec k id); [contradiction | reflexivity].
  - destruct (Map.get id (conversations s)) as [c|] eqn:Hget.
    + apply delete_present; assumption.
    + apply delete_absent. apply get_None_keys. exact Hget.
  - intros ->. rewrite String.eqb_refl. reflexivity.
  - intros Hcur. destruct (currentConversationId s) as [cur|]; [|reflexivity].
    destruct (String.eqb_spec cur id) as [-> | _]; [|reflexivity].
    exfalso. apply Hcur. reflexivity.
Qed.

(** ** [addMessage]: what one call changes *)

Lemma last_slice_last {A : Type} (n : nat) (l : list A) (x d : A) :
  (0 < n)%nat -> last (slice_last n (l ++ [x])%list) d = x.
Proof.
  intros Hn. unfold slice_last.
  rewrite length_app. cbn [List.length].
  rewrite skipn_app.
  replace (List.length l + 1 - n - List.length l)%nat with 0%nat by lia.
  cbn [skipn]. rewrite last_app_nonempty by discriminate. reflexivity.
Qed.

(** X4.  One [addMessage] call touches the conversation it names and
    nothing else: the ids and their order, the current marker and every
    other conversation stay as they were, and for an unknown id the store
    is left unchanged.  The conversation named keeps its id, model and
    creation date, takes the instant of the call as [updatedAt], and ends
    with the message just stored. *)
Theorem addMessage_changes_one_conversation
  (h : Host) (id : string) (message : MessageInput.t) (s : ConversationMemory) :
  let s' := addMessage h id message s in
  Map.keys (conversations s') = Map.keys (conversations s) /\
  getCurrentConversationId s' = getCurrentConversationId s /\
  (forall k, k <> id -> getConversation k s' = getConversation k s) /\
  match getConversation id s with
  | None => s' = s
  | Some c =>
      exists c',
        getConversation id s' = Some c' /\
        Conversation.id c' = Conversation.id c /\
        Conversation.model c' = Conversation.model c /\
        Conversation.createdAt c' = Conversation.createdAt c /\
        Conversation.updatedAt c' = Some (newDate2 h) /\
        forall d, last (Conversation.messages c') d = storedMessage (h, message)
  end.
Proof.
  intros s'. unfold s', getConversation, getCurrentConversationId, addMessage.
  destruct (Map.get id (conversations s)) as [c|] eqn:Hget.
  - cbn [conversations currentConversationId].
    split; [apply keys_replace|]. split; [reflexivity|].
    split; [intros k Hk; apply get_replace_other; exact Hk|].
    exists (appendMessage h message c).
    split; [apply get_replace_same; congruence|].
    split; [apply appendMessage_id|].
    split; [reflexivity|]. split; [reflexivity|]. split; [reflexivity|].
    intros d. rewrite appendMessage_messages.
    apply last_slice_last. unfold MAX_MESSAGES_PER_CONVERSATION. lia.
  - repeat split; reflexivity.
Qed.

(** ** [addMessage] and the order of [getAllConversations] *)

Lemma sort_insert_desc_hd (x : Conversation.t) (l : list Conversation.t) :
  hd_error (sort_insert compare_updatedAt_desc x l) =
  match l with
  | [] => Some x
  | y :: _ => if compare_updatedAt_desc x y <=? 0 then Some x else Some y
  end.
Proof.
  destruct l as [|y l]; [reflexivity|]. simpl.
  destruct (compare_updatedAt_desc x y <=? 0); reflexivity.
Qed.

(** A conversation updated later than every other one heads the list. *)
Lemma sort_desc_hd_latest (x : Conversation.t) (tx : Z) :
  Conversation.updatedAt x = Some tx ->
  forall before after : list Conversation.t,
    (forall c, In c (before ++ after)%list ->
       exists u, Conversation.updatedAt c = Some u /\ u < tx) ->
    hd_error (sort compare_updatedAt_desc (before ++ x :: after)%list) = Some x.
Proof.
  intros Hx. induction before as [|a before IH]; intros after Hothers.
  - cbn [app sort]. rewrite sort_insert_desc_hd.
    destruct (sort compare_updatedAt_desc after) as [|y r] eqn:Hsort; [reflexivity|].
    assert (Hy : In y after).
    { apply (Permutation_in _ (Permutation_sym (sort_perm compare_updatedAt_desc after))).
      rewrite Hsort. left. reflexivity. }
    destruct (Hothers y Hy) as (u & Hu & Hlt).
    unfold compare_updatedAt_desc, time_diff. rewrite Hx, Hu.
    destruct (Z.leb_spec (u - tx) 0); [reflexivity | lia].
  - cbn [app sort]. rewrite sort_insert_desc_hd.
    specialize (IH after (fun c Hc => Hothers c (or_intror Hc))).
    destruct (sort compare_updatedAt_desc (before ++ x :: after)%list) as [|y r];
      [discriminate|].
    cbn [hd_error] in IH. apply Some_eq_inv in IH. subst y.
    destruct (Hothers a (or_introl eq_refl)) as (u & Hu & Hlt).
    unfold compare_updatedAt_desc, time_diff. rewrite Hx, Hu.
    destruct (Z.leb_spec (tx - u) 0); [lia | reflexivity].
Qed.

Lemma replace_split (key : string) (c value : Conversation.t) (before after : Map.t) :
  ~ In key (Map.keys before) ->
  Map.replace key value (before ++ (key, c) :: after)%list =
  (before ++ (key, value) :: after)%list.
Proof.
  induction before as [|[k v] before IH]; intros Hout; cbn [app Map.replace].
  - rewrite String.eqb_refl. reflexivity.
  - destruct (String.eqb_spec k key) as [-> | Hne].
    + exfalso. apply Hout. left. reflexivity.
    + rewrite IH; [reflexivity|]. intros H. apply Hout. right. exact H.
Qed.

(** X5.  In every state a store goes through, a message appended at an
    instant later than the [updatedAt] of every other conversation puts
    its conversation first in [getAllConversations]: the listing starts
    with the conversation last written to. *)
Theorem addMessage_moves_conversation_to_front
  (Date_parse : string -> Date) (h : Host) (id : string) (message : MessageInput.t)
  (s : ConversationMemory) (c : Conversation.t) :
  reachable Date_parse s ->
  getConversation id s = Some c ->
  (forall k c0, In (k, c0) (conversations s) -> k <> id ->
     exists u, Conversation.updatedAt c0 = Some u /\ u < newDate2 h) ->
  hd_error (getAllConversations (addMessage h id message s)) =
  Some (appendMessage h message c).
Proof.
  intros Hreach Hget Hothers.
  pose proof (reachable_wellKeyed Date_parse s Hreach) as [Hnodup _].
  unfold getConversation in Hget.
  unfold getAllConversations, addMessage. rewrite Hget. cbn [conversations].
  pose proof (get_In _ _ _ Hget) as Hin.
  apply in_split in Hin as (before & after & Hsplit).
  rewrite Hsplit in Hnodup, Hothers |- *.
  rewrite keys_app in Hnodup. cbn [Map.keys map fst] in Hnodup.
  pose proof (NoDup_remove_2 _ _ _ Hnodup) as Hout.
  rewrite replace_split
    by (intros H; apply Hout; apply in_or_app; left; exact H).
  unfold Map.values. rewrite map_app. cbn [map snd].
  apply (sort_desc_hd_latest _ (newDate2 h)); [reflexivity|].
  intros c0 Hc0. rewrite <- map_app in Hc0.
  apply in_map_iff in Hc0 as ([k c1] & Heq & Hc1). cbn [snd] in Heq. subst c1.
  apply (Hothers k c0).
  - apply in_app_or in Hc1 as [H | H]; apply in_or_app;
      [left; exact H | right; right; exact H].
  - intros ->. apply Hout.
    unfold Map.keys. rewrite <- map_app. apply in_map_iff.
    exists (id, c0). split; [reflexivity | exact Hc1].
Qed.

(** ** [createConversation]: how many conversations it removes *)

Lemma set_absent (key : string) (value : Conversation.t) (m : Map.t) :
  Map.get key m = None -> Map.set key value m = (m ++ [(key, value)])%list.
Proof. unfold Map.set, Map.has. intros ->. reflexivity. Qed.

(** X6.  In every state a store goes through, [createConversation] with
    an id not in use marks the new id current and removes at most one
    conversation: below 50 stored conversations it appends the new one
    and removes none; from 50 on it removes exactly one, so that the
    number of conversations stays what it was (50, or more after an
    import of more). *)
Theorem createConversation_removes_at_most_one
  (Date_parse : string -> Date) (h : Host) (model : string) (s : ConversationMemory) :
  reachable Date_parse s ->
  getConversation (fst (createConversation h model s)) s = None ->
  let id := fst (createConversation h model s) in
  let s' := snd (createConversation h model s) in
  getCurrentConversationId s' = Some id /\
  ((Map.size (conversations s) < 50)%nat ->
   conversations s' = (conversations s ++ [(id, freshConversation h model)])%list /\
   getConversation id s' = Some (freshConversation h model)) /\
  ((50 <= Map.size (conversations s))%nat ->
   Map.size (conversations s') = Map.size (conversations s)).
Proof.
  intros Hreach Hfresh id s'.
  pose proof (reachable_wellKeyed Date_parse s Hreach) as Hkeyed.
  unfold getConversation in Hfresh. rewrite createConversation_id in Hfresh.
  assert (Hid : id = Conversation.id (freshConversation h model))
    by apply createConversation_id.
  pose proof (createConversation_conversations h model s) as Hconv.
  cbv zeta in Hconv. fold s' in Hconv.
  rewrite (set_absent _ _ _ Hfresh) in Hconv.
  unfold Map.size in *. rewrite length_app in Hconv. cbn [List.length] in Hconv.
  split; [reflexivity|]. split.
  - intros Hsmall.
    destruct (Nat.ltb_spec 50 (List.length (conversations s) + 1)) as [Hbig | _];
      [lia|].
    unfold getConversation. rewrite Hconv, Hid. split; [reflexivity|].
    rewrite get_app, Hfresh. cbn [Map.get]. rewrite String.eqb_refl. reflexivity.
  - intros Hfull.
    destruct (Nat.ltb_spec 50 (List.length (conversations s) + 1)) as [_ | Hsmall];
      [|lia].
    set (m1 := (conversations s ++
                [(Conversation.id (freshConversation h model),
                  freshConversation h model)])%list) in *.
    assert (Hkeyed1 : wellKeyed m1).
    { unfold m1. rewrite <- (set_absent _ _ _ Hfresh).
      apply wellKeyed_set; [reflexivity | exact Hkeyed]. }
    destruct (leastRecentlyUpdated (Map.values m1)) as [oldest|] eqn:Hold.
    + rewrite Hconv.
      pose proof (leastRecentlyUpdated_In _ _ Hold) as Hin.
      apply (In_values_keys _ _ Hkeyed1) in Hin.
      assert (Hkey : In (Conversation.id oldest) (Map.keys m1)).
      { apply in_map_iff. exists (Conversation.id oldest, oldest).
        split; [reflexivity | exact Hin]. }
      pose proof (length_delete_present _ _ (proj1 Hkeyed1) Hkey) as Hlen.
      unfold m1 in Hlen at 2. rewrite length_app in Hlen. cbn [List.length] in Hlen.
      lia.
    + exfalso. apply (leastRecentlyUpdated_nonempty (Map.values m1)); [|exact Hold].
      unfold m1, Map.values. rewrite map_app. intros H.
      apply app_eq_nil in H as [_ H]. discriminate.
Qed.

(** ** The context window and its budget *)

Lemma contextLoop_extends (maxTokens : Z) (newest_first : list ConversationMessage.t) :
  forall (totalTokens : Z) (ctx : list ConversationMessage.t),
    exists taken, contextLoop maxTokens newest_first totalTokens ctx = (taken ++ ctx)%list.
Proof.
  induction newest_first as [|m older IH]; intros totalTokens ctx; cbn [contextLoop].
  - exists []. reflexivity.
  - destruct ((totalTokens + estimatedTokens m >? maxTokens)
              && (0 <? List.length ctx)%nat).
    + exists []. reflexivity.
    + destruct (IH (totalTokens + estimatedTokens m) (m :: ctx)) as (taken & ->).
      exists (taken ++ [m])%list. rewrite <- app_assoc. reflexivity.
Qed.

Lemma contextLoop_mono (b b' : Z) (newest_first : list ConversationMessage.t) :
  b <= b' ->
  forall (totalTokens : Z) (ctx : list ConversationMessage.t),
    exists extra,
      contextLoop b' newest_first totalTokens ctx =
      (extra ++ contextLoop b newest_first totalTokens ctx)%list.
Proof.
  intros Hle. induction newest_first as [|m older IH]; intros totalTokens ctx;
    cbn [contextLoop].
  - exists []. reflexivity.
  - destruct (0 <? List.length ctx)%nat eqn:Hctx;
      rewrite ?andb_true_r, ?andb_false_r.
    + destruct (Z.gtb_spec (totalTokens + estimatedTokens m) b) as [Hb | Hb];
        destruct (Z.gtb_spec (totalTokens + estimatedTokens m) b') as [Hb' | Hb'].
      * exists []. reflexivity.
      * destruct (contextLoop_extends b' older (totalTokens + estimatedTokens m)
                    (m :: ctx)) as (taken & ->).
        exists (taken ++ [m])%list. rewrite <- app_assoc. reflexivity.
      * lia.
      * apply IH.
    + apply IH.
Qed.

(** X7.  A larger budget never selects less: the window
    [getContextMessages] returns for a budget is a suffix of the window
    it returns for any greater budget. *)
Theorem getContextMessages_grows_with_budget
  (s : ConversationMemory) (conversationId : string) (b b' : Z) :
  b <= b' ->
  exists extra : list ConversationMessage.t,
    getContextMessages conversationId (Some b') s =
    (extra ++ getContextMessages conversationId (Some b) s)%list.
Proof.
  intros Hle. unfold getContextMessages.
  destruct (Map.get conversationId (conversations s)) as [c|].
  - apply contextLoop_mono. exact Hle.
  - exists []. reflexivity.
Qed.

Lemma estimatedTokens_nonneg (m : ConversationMessage.t) : 0 <= estimatedTokens m.
Proof. pose proof (estimatedTokens_ceiling m) as H. cbv zeta in H. lia. Qed.

Lemma totalEstimate_app (l1 l2 : list ConversationMessage.t) :
  totalEstimate (l1 ++ l2)%list = totalEstimate l1 + totalEstimate l2.
Proof.
  induction l1 as [|m l1 IH]; [reflexivity|].
  cbn [app]. unfold totalEstimate in *. cbn [fold_right]. rewrite IH. lia.
Qed.

Lemma totalEstimate_nonneg (l : list ConversationMessage.t) : 0 <= totalEstimate l.
Proof.
  induction l as [|m l IH]; [reflexivity|].
  unfold totalEstimate in *. cbn [fold_right].
  pose proof (estimatedTokens_nonneg m). lia.
Qed.

(** X8.  [getContextMessages] returns the whole conversation exactly
    when nothing has to be left out: the conversation is empty, or holds
    one message, or its estimate is within the budget.  For an unknown id
    the result is empty. *)
Theorem getContextMessages_whole_conversation
  (s : ConversationMemory) (conversationId : string) (b : Z) :
  match getConversation conversationId s with
  | None => getContextMessages conversationId (Some b) s = []
  | Some c =>
      getContextMessages conversationId (Some b) s = Conversation.messages c <->
      withinBudget b (Conversation.messages c)
  end.
Proof.
  unfold getConversation, getContextMessages.
  destruct (Map.get conversationId (conversations s)) as [c|]; [|reflexivity].
  assert (Hw : withinBudget b []) by (left; reflexivity).
  destruct (contextLoop_inv b (rev (Conversation.messages c)) [] Hw)
    as (skipped & taken & Hsplit & Hres & Hin & Hnonempty & Hstop).
  rewrite rev_involutive in Hsplit. rewrite app_nil_r in *.
  cbn [totalEstimate fold_right] in Hres. rewrite Hres.
  split.
  - intros <-. exact Hin.
  - intros Hall. rewrite Hsplit.
    destruct Hstop as [-> | (older & next & -> & Hover)]; [reflexivity|].
    exfalso. rewrite Hsplit in Hall.
    destruct Hall as [Hnil | [Hone | Hfit]].
    + apply app_eq_nil in Hnil as [Hnil _].
      apply app_eq_nil in Hnil as [_ Hnil]. discriminate.
    + assert (Htaken : taken <> []).
      { apply Hnonempty. intros Hrev.
        apply (f_equal (@rev _)) in Hrev. rewrite rev_involutive, Hsplit in Hrev.
        apply app_eq_nil in Hrev as [Hrev _].
        apply app_eq_nil in Hrev as [_ Hrev]. discriminate. }
      rewrite !length_app in Hone. cbn [List.length] in Hone.
      destruct taken; [contradiction | cbn [List.length] in Hone; lia].
    + rewrite !totalEstimate_app in Hfit.
      pose proof (totalEstimate_nonneg older).
      unfold totalEstimate at 2 in Hfit. cbn [fold_right] in Hfit. lia.
Qed.

(* ================================================================== *)
(** ** Snapshots and the storage item *)

Section StorageFacts.

Variable Date_parse : string -> Date.
Variable Date_toISOString : Z -> string.

Lemma restoreAll_Ok (data : list json) :
  forall m m' : Map.t,
    restoreAll Date_parse data m = (m', Ok tt) ->
    exists cs,
      mapM (reviveConversation Date_parse) data = Ok cs /\
      List.length cs = List.length data /\
      m' = setAll cs m.
Proof.
  induction data as [|conv data IH]; intros m m' Hrun; cbn [restoreAll mapM] in *.
  - injection Hrun as <-. exists []. repeat split; reflexivity.
  - destruct (reviveConversation Date_parse conv) as [c| |]; try discriminate.
    destruct (IH _ _ Hrun) as (cs & Hcs & Hlen & ->).
    exists (c :: cs). cbn [bind]. rewrite Hcs. cbn [bind List.length].
    rewrite Hlen. repeat split; reflexivity.
Qed.

Lemma find_snoc {A : Type} (p : A -> bool) (l : list A) (x : A) :
  find p (l ++ [x])%list =
  match find p l with
  | Some y => Some y
  | None => if p x then Some x else None
  end.
Proof.
  induction l as [|y l IH]; cbn [app find]; [reflexivity|].
  destruct (p y); [reflexivity | exact IH].
Qed.

Lemma get_set (key key' : string) (value : Conversation.t) (m : Map.t) :
  Map.get key' (Map.set key value m) =
  if String.eqb key key' then Some value else Map.get key' m.
Proof.
  destruct (String.eqb_spec key key') as [<- | Hne].
  - apply get_set_same.
  - apply get_set_other. congruence.
Qed.

Lemma get_setAll (cs : list Conversation.t) :
  forall (m : Map.t) (id : string),
    Map.get id (setAll cs m) =
    match lastWithId id cs with
    | Some c => Some c
    | None => Map.get id m
    end.
Proof.
  unfold setAll, lastWithId.
  induction cs as [|c cs IH]; intros m id; cbn [fold_left rev]; [reflexivity|].
  rewrite IH, find_snoc, get_set.
  destruct (find _ (rev cs)); [reflexivity|].
  destruct (String.eqb (Conversation.id c) id); reflexivity.
Qed.

Lemma length_setAll (cs : list Conversation.t) :
  forall m : Map.t,
    (List.length (setAll cs m) <= List.length m + List.length cs)%nat.
Proof.
  unfold setAll.
  induction cs as [|c cs IH]; intros m; cbn [fold_left List.length]; [lia|].
  specialize (IH (Map.set (Conversation.id c) c m)).
  rewrite length_set in IH. destruct (Map.has (Conversation.id c) m); lia.
Qed.

(** X9.  An import that returns [true] was given a JSON array every
    element of which could be revived, and the store it leaves is
    determined by that array alone: an id is answered with the last
    element of the array carrying it, and with nothing when no element
    carries it, whatever the store held before.  The store then holds at
    most as many conversations as the array has elements. *)
Theorem importConversations_keeps_last_of_each_id
  (jsonData : snapshot) (s s' : ConversationMemory) :
  importConversations Date_parse jsonData s = Some (true, s') ->
  exists data cs,
    jsonData = Parsed (JArray data) /\
    mapM (reviveConversation Date_parse) data = Ok cs /\
    (forall id, getConversation id s' = lastWithId id cs) /\
    (Map.size (conversations s') <= List.length data)%nat.
Proof.
  intros Himport.
  destruct (importConversations_true Date_parse _ _ _ Himport)
    as (data & -> & Hrestore & _).
  destruct (restoreAll_Ok _ _ _ Hrestore) as (cs & Hcs & Hlen & Hmap).
  exists data, cs. split; [reflexivity|]. split; [exact Hcs|]. split.
  - intros id. unfold getConversation. rewrite Hmap, get_setAll.
    destruct (lastWithId id cs); reflexivity.
  - unfold Map.size. rewrite Hmap, <- Hlen.
    pose proof (length_setAll cs Map.clear) as H. cbn [Map.clear List.length] in H.
    exact H.
Qed.

Lemma Forall2_reread (m : Map.t) :
  (forall k c, In (k, c) m -> Conversation.id c = k) ->
  Forall2 (fun e e' => fst e = fst e' /\ sameUpToDates (snd e) (snd e')) m
    (map (fun c => (Conversation.id c,
                    rereadConversation Date_parse Date_toISOString c))
         (Map.values m)).
Proof.
  unfold Map.values.
  induction m as [|[k c] m IH]; intros Hids; cbn [map]; constructor.
  - cbn [fst snd]. split.
    + symmetry. apply Hids. left. reflexivity.
    + apply reread_sameUpToDates.
  - apply IH. intros k' c' Hin. apply Hids. right. exact Hin.
Qed.

(** X10.  In every state a store goes through, the item [saveToStorage]
    writes is read back by [loadFromStorage] in a new instance as the same
    conversations under the same ids and in the same order, with the same
    titles, models and messages (dates go through their JSON text).  The
    current marker is not part of the item: the new instance has none. *)
Theorem saved_store_is_loaded_back (s : ConversationMemory) :
  reachable Date_parse s ->
  exists s' : ConversationMemory,
    loadFromStorage Date_parse (Some (saveToStorage Date_toISOString s)) emptyMemory =
    Some s' /\
    Forall2 (fun e e' => fst e = fst e' /\ sameUpToDates (snd e) (snd e'))
      (conversations s) (conversations s') /\
    getCurrentConversationId s' = None /\
    reachable Date_parse s'.
Proof.
  intros Hreach.
  pose proof (reachable_wellKeyed Date_parse s Hreach) as Hkeyed.
  pose proof (load_of_save Date_parse Date_toISOString s Hkeyed) as Hload.
  eexists. split; [exact Hload|]. split; [|split].
  - cbn [conversations]. apply Forall2_reread. exact (proj2 Hkeyed).
  - reflexivity.
  - eapply reachable_constructed. exact Hload.
Qed.

(** X11.  [loadFromStorage] never fails the constructor: without an
    item, with an item that does not parse, or with one that parses to
    something else than an array, the store starts empty; and when an
    element of the array cannot be revived (it is [null], or its
    [messages] is not an array, or holds a [null]), the store starts with
    the conversations of the elements before it, those after it being
    dropped. *)
Theorem loadFromStorage_keeps_what_precedes_a_failure
  (good : list json) (bad : json) (rest : list json) (restored : Map.t) :
  restoreAll Date_parse good Map.clear = (restored, Ok tt) ->
  reviveConversation Date_parse bad = Throw ->
  loadFromStorage Date_parse (Some (Parsed (JArray (good ++ bad :: rest)%list)))
    emptyMemory =
    Some {| conversations := restored; currentConversationId := None |} /\
  loadFromStorage Date_parse None emptyMemory = Some emptyMemory /\
  loadFromStorage Date_parse (Some Unparseable) emptyMemory = Some emptyMemory /\
  (forall data, (forall items, data <> JArray items) ->
     loadFromStorage Date_parse (Some (Parsed data)) emptyMemory = Some emptyMemory).
Proof.
  intros Hgood Hbad. split; [|split; [|split]].
  - unfold loadFromStorage. cbn [emptyMemory conversations currentConversationId].
    rewrite (restoreAll_throw Date_parse good bad rest _ _ Hgood Hbad). reflexivity.
  - reflexivity.
  - reflexivity.
  - intros data Hdata. destruct data; try reflexivity.
    exfalso. exact (Hdata _ eq_refl).
Qed.

End StorageFacts.
(* ================================================================== *)
(** * Further properties of the routes *)

(** ** [getRandomApiKey] *)

(** The index is computed on Numbers: the product of 0.6 (the Number
    nearest to it) and 5 is rounded to 3, so that the fourth of five keys
    is chosen, where the exact product is below 3. *)
Example getRandomApiKey_rounds_the_product :
  ImageRoute.getRandomApiKey ["k0"; "k1"; "k2"; "k3"; "k4"]
    (PrimFloat.div (JsNumber.ofZ 3) (JsNumber.ofZ 5)) = Some "k3".
Proof. vm_compute. reflexivity. Qed.

(** ** [encodeURIComponent] *)

Lemma hexDigit_unreserved (n : nat) :
  (n < 16)%nat -> JsString.unreserved (JsString.hexDigit n) = true.
Proof.
  intros Hn.
  assert (H : forallb (fun k => JsString.unreserved (JsString.hexDigit k)) (seq 0 16)
              = true) by (vm_compute; reflexivity).
  rewrite forallb_forall in H. apply H. apply in_seq. lia.
Qed.

Lemma percent_encoded (byte : nat) :
  (byte < 256)%nat -> Forall encoded (chars (JsString.percent byte)).
Proof.
  intros Hb. unfold JsString.percent, chars. cbn [list_ascii_of_string].
  apply Forall_cons; [|apply Forall_cons; [|apply Forall_cons; [|apply Forall_nil]]].
  - right. reflexivity.
  - left. apply hexDigit_unreserved. apply Nat.Div0.div_lt_upper_bound. lia.
  - left. apply hexDigit_unreserved. apply Nat.mod_upper_bound. lia.
Qed.

Lemma chars_app (s1 s2 : string) : chars (s1 ++ s2) = (chars s1 ++ chars s2)%list.
Proof.
  unfold chars. induction s1 as [|c s1 IH]; [reflexivity|].
  cbn [append list_ascii_of_string app]. rewrite IH. reflexivity.
Qed.

Lemma length_append (s1 s2 : string) :
  String.length (s1 ++ s2) = (String.length s1 + String.length s2)%nat.
Proof. induction s1 as [|c s1 IH]; [reflexivity|]. simpl. rewrite IH. reflexivity. Qed.

Lemma length_substring (n m : nat) (s : string) :
  (String.length (substring n m s) <= m)%nat.
Proof.
  revert n m. induction s as [|c s IH]; intros n m.
  - destruct n, m; simpl; lia.
  - destruct n as [|n]; destruct m as [|m]; simpl; try lia.
    + specialize (IH 0%nat m). lia.
    + apply IH.
    + apply IH.
Qed.

(** The bytes written for a code point are bytes, three at most below
    65536 and four at most in all. *)
Lemma utf8_bytes (cp : Z) :
  cp < 1114112 ->
  Forall (fun byte => byte < 256) (JsString.utf8 cp) /\
  (List.length (JsString.utf8 cp) <= 4)%nat /\
  (cp < 65536 -> (List.length (JsString.utf8 cp) <= 3)%nat).
Proof.
  intros Hcp. unfold JsString.utf8.
  destruct (Z.ltb_spec cp 128); [|destruct (Z.ltb_spec cp 2048);
                                   [|destruct (Z.ltb_spec cp 65536)]];
    (split; [|split; [cbn; lia | intros; cbn; lia]]);
    repeat apply Forall_cons; try apply Forall_nil;
    Z.div_mod_to_equations; lia.
Qed.

Lemma percentBytes_encoded (bytes : list Z) :
  Forall (fun byte => byte < 256) bytes ->
  Forall encoded (chars (JsString.percentBytes bytes)) /\
  String.length (JsString.percentBytes bytes) = (3 * List.length bytes)%nat.
Proof.
  induction 1 as [|byte rest Hbyte _ [IHencoded IHlength]]; [split; [constructor | reflexivity]|].
  cbn [JsString.percentBytes fold_right]. fold (JsString.percentBytes rest). split.
  - rewrite chars_app. apply Forall_app. split; [|exact IHencoded].
    apply percent_encoded. lia.
  - rewrite length_append, IHlength. cbn [List.length]. unfold JsString.percent.
    cbn [String.length]. lia.
Qed.

Lemma codePoint_range (lead trail : Z) :
  JsString.isLeadSurrogate lead = true ->
  JsString.isTrailSurrogate trail = true ->
  65536 <= JsString.codePoint lead trail < 1114112.
Proof.
  unfold JsString.isLeadSurrogate, JsString.isTrailSurrogate, JsString.codePoint.
  intros H1 H2. lia.
Qed.

(** A property of every string follows from its being passed from the
    rest of a string, and from what follows a pair, to the string. *)
Lemma utf16_pairs_ind (P : JsString.utf16 -> Prop) :
  P [] ->
  (forall u rest, P rest -> (forall v rest', rest = v :: rest' -> P rest') ->
                  P (u :: rest)) ->
  forall s, P s.
Proof.
  intros Hnil Hcons s.
  assert (H : P s /\ (forall v rest', s = v :: rest' -> P rest')); [|apply H].
  induction s as [|u rest [IH1 IH2]].
  - split; [exact Hnil | discriminate].
  - split; [apply Hcons; assumption|].
    intros v rest' [= _ <-]. exact IH1.
Qed.

Lemma encodedLength_app (s1 s2 : JsString.utf16) :
  encodedLength (s1 ++ s2)%list = (encodedLength s1 + encodedLength s2)%nat.
Proof. unfold encodedLength. rewrite map_app, list_sum_app. reflexivity. Qed.

Lemma encodedLength_cons (u : Z) (rest : JsString.utf16) :
  encodedLength (u :: rest) =
  ((if JsString.unreservedUnit u then 1 else 9) + encodedLength rest)%nat.
Proof. reflexivity. Qed.

Lemma encodedLength_bound (s : JsString.utf16) :
  (encodedLength s <= 9 * List.length s)%nat.
Proof.
  induction s as [|u rest IH]; [cbn; lia|].
  rewrite encodedLength_cons. cbn [List.length].
  destruct (JsString.unreservedUnit u); lia.
Qed.

(** What [encodeURIComponent] returns is made of unreserved characters
    and percent signs: one character for an unreserved character, nine
    at most for another code unit. *)
Lemma encodeURIComponent_encoded (s : JsString.utf16) (text : string) :
  forallb JsString.isUnit s = true ->
  JsString.encodeURIComponent s = Some text ->
  Forall encoded (chars text) /\ (String.length text <= encodedLength s)%nat.
Proof.
  revert text. induction s as [|u rest IHrest IHpair] using utf16_pairs_ind;
    intros text Hunits Hencode.
  { injection Hencode as <-. split; [constructor | cbn; lia]. }
  cbn [forallb] in Hunits. apply andb_prop in Hunits as [Hu Hunits].
  cbn [JsString.encodeURIComponent] in Hencode.
  rewrite encodedLength_cons.
  destruct (JsString.unreservedUnit u) eqn:Hun.
  { destruct (JsString.encodeURIComponent rest) as [t|] eqn:Hrest; [|discriminate].
    injection Hencode as <-. destruct (IHrest t Hunits eq_refl) as [He Hl]. split.
    - unfold chars. cbn [list_ascii_of_string]. apply Forall_cons; [|exact He].
      left. unfold JsString.unreservedUnit in Hun.
      apply andb_prop in Hun as [_ Hun]. exact Hun.
    - cbn [String.length]. lia. }
  destruct (JsString.isLeadSurrogate u) eqn:Hlead.
  - destruct rest as [|v rest']; [discriminate|].
    destruct (JsString.isTrailSurrogate v) eqn:Htrail; [|discriminate].
    destruct (JsString.encodeURIComponent rest') as [t|] eqn:Hrest'; [|discriminate].
    injection Hencode as <-.
    cbn [forallb] in Hunits. apply andb_prop in Hunits as [_ Hunits].
    destruct (IHpair v rest' eq_refl t Hunits Hrest') as [He Hl].
    pose proof (codePoint_range u v Hlead Htrail) as Hcp.
    destruct (utf8_bytes (JsString.codePoint u v)) as (Hbytes & Hfour & _); [lia|].
    destruct (percentBytes_encoded _ Hbytes) as [Hpe Hpl]. split.
    + rewrite chars_app. apply Forall_app. split; assumption.
    + rewrite length_append, Hpl, encodedLength_cons.
      assert (Hv : JsString.unreservedUnit v = false).
      { unfold JsString.unreservedUnit, JsString.isTrailSurrogate in *.
        destruct (v <? 128) eqn:Hlt; [lia|]. rewrite andb_false_r. reflexivity. }
      rewrite Hv. lia.
  - destruct (JsString.isTrailSurrogate u); [discriminate|].
    destruct (JsString.encodeURIComponent rest) as [t|] eqn:Hrest; [|discriminate].
    injection Hencode as <-. destruct (IHrest t Hunits eq_refl) as [He Hl].
    unfold JsString.isUnit in Hu.
    destruct (utf8_bytes u) as (Hbytes & _ & Hthree); [lia|].
    destruct (percentBytes_encoded _ Hbytes) as [Hpe Hpl]. split.
    + rewrite chars_app. apply Forall_app. split; assumption.
    + rewrite length_append, Hpl.
      assert (List.length (JsString.utf8 u) <= 3)%nat by (apply Hthree; lia). lia.
Qed.

(** A string of unreserved characters is returned as it is. *)
Lemma encodeURIComponent_unreserved (s : JsString.utf16) :
  forallb JsString.unreservedUnit s = true ->
  exists text, JsString.encodeURIComponent s = Some text /\ JsString.ofString text = s.
Proof.
  induction s as [|u rest IH]; [exists ""; split; reflexivity|].
  cbn [forallb]. intros H. apply andb_prop in H as [Hu Hrest].
  destruct (IH Hrest) as (text & Hencode & Htext).
  exists (String (ascii_of_nat (Z.to_nat u)) text).
  cbn [JsString.encodeURIComponent]. rewrite Hu, Hencode. split; [reflexivity|].
  unfold JsString.ofString. cbn [list_ascii_of_string map].
  unfold JsString.ofString in Htext. rewrite Htext. f_equal.
  unfold JsString.unreservedUnit in Hu.
  apply andb_prop in Hu as [Hu _]. apply andb_prop in Hu as [Hlow Hhigh].
  rewrite nat_ascii_embedding by lia. lia.
Qed.

Section PlaceholderUrl.

Variable numberText : string -> string.
Variable toLowerCase : JsString.utf16 -> JsString.utf16.

(** X13.  For a size that is a string and a prompt that is one, of code
    units below 65536, [generateAdvancedPlaceholder] throws when the
    prompt, cut after 100 code units, has a surrogate standing alone
    (the [URIError] of [encodeURIComponent]).  Otherwise the url it
    builds is the fixed path followed by the five parameters [height],
    [width], [text], [category] and [color], in which the text is the
    encoded prompt: it holds only letters, digits, the characters
    [-_.!~*'()] and the percent sign, so that none of [&], [=], [#], [?],
    [/], [+] and the space occurs in it and the prompt cannot add or
    change a parameter; it has at most 903 characters, nine for each of
    the 100 code units kept and the three dots; and it is the prompt
    itself when the prompt is made of at most 100 unreserved characters.
    The category and the colour are one of six fixed pairs. *)
Theorem placeholder_text_is_encoded_and_bounded (prompt : JsString.utf16)
  (size : string) :
  forallb JsString.isUnit prompt = true ->
  (JsString.isWellFormed (ImageRoute.truncatedPrompt prompt) = false ->
   ImageRoute.generateAdvancedPlaceholder numberText toLowerCase
     (ImageRoute.PromptText prompt) (JString size) = None) /\
  (JsString.isWellFormed (ImageRoute.truncatedPrompt prompt) = true ->
   exists height width text category color,
     ImageRoute.generateAdvancedPlaceholder numberText toLowerCase
       (ImageRoute.PromptText prompt) (JString size) =
       Some ("/placeholder.svg?height=" ++ height ++ "&width=" ++ width
             ++ "&text=" ++ text ++ "&category=" ++ category ++ "&color=" ++ color) /\
     Forall encoded (chars text) /\
     (forall c, In c (chars "&=#?/+ ") -> ~ In c (chars text)) /\
     (String.length text <= 903)%nat /\
     ((List.length prompt <= 100)%nat ->
      forallb JsString.unreservedUnit prompt = true ->
      JsString.ofString text = prompt) /\
     In (category, color)
       [("portrait", "purple"); ("landscape", "green"); ("urban", "gray");
        ("animal", "orange"); ("food", "red"); ("abstract", "blue")]).
Proof.
  intros Hunits.
  destruct (generateAdvancedPlaceholder_text numberText toLowerCase
              (ImageRoute.PromptText prompt) size prompt eq_refl)
    as (height & width & category & color & Hpair & Hshape).
  rewrite Hshape. split.
  { intros Hill. apply encodeURIComponent_throws in Hill. rewrite Hill. reflexivity. }
  intros Hwell.
  destruct (JsString.encodeURIComponent (ImageRoute.truncatedPrompt prompt))
    as [text|] eqn:Hencode.
  2: { apply encodeURIComponent_throws in Hencode. congruence. }
  assert (Htruncated :
            forallb JsString.isUnit (ImageRoute.truncatedPrompt prompt) = true /\
            (List.length (ImageRoute.truncatedPrompt prompt) <= 100
             \/ exists kept, ImageRoute.truncatedPrompt prompt
                             = (kept ++ JsString.ofString "...")%list
                             /\ List.length kept <= 100)%nat).
  { unfold ImageRoute.truncatedPrompt.
    destruct (Nat.ltb_spec 100 (List.length prompt)).
    - split.
      + rewrite forallb_app. apply andb_true_intro. split; [|reflexivity].
        rewrite forallb_forall in *. intros u Hu. apply Hunits.
        apply (In_nth_error) in Hu as (k & Hk).
        apply nth_error_In with (n := k).
        rewrite nth_error_firstn in Hk.
        destruct (k <? 100)%nat; [exact Hk | discriminate].
      + right. exists (firstn 100 prompt). split; [reflexivity|].
        rewrite length_firstn. lia.
    - split; [exact Hunits | left; lia]. }
  destruct Htruncated as [Hunits' Hshort].
  destruct (encodeURIComponent_encoded _ _ Hunits' Hencode) as [Hencoded Hlength].
  exists height, width, text, category, color.
  split; [reflexivity|]. split; [exact Hencoded|]. split.
  { intros c Hc Hin. rewrite Forall_forall in Hencoded.
    specialize (Hencoded c Hin). cbn in Hc.
    repeat (destruct Hc as [<- | Hc];
            [destruct Hencoded as [H | H]; vm_compute in H; discriminate|]).
    contradiction. }
  split.
  { pose proof (encodedLength_bound (ImageRoute.truncatedPrompt prompt)) as Hbound.
    destruct Hshort as [Hshort | (kept & Hkept & Hshort)]; [lia|].
    rewrite Hkept, encodedLength_app in Hlength.
    pose proof (encodedLength_bound kept).
    change (encodedLength (JsString.ofString "...")) with 3%nat in Hlength. lia. }
  split; [|exact Hpair].
  intros Hshort' Hunreserved.
  unfold ImageRoute.truncatedPrompt in Hencode.
  destruct (Nat.ltb_spec 100 (List.length prompt)); [lia|].
  destruct (encodeURIComponent_unreserved prompt Hunreserved) as (text' & Htext' & Hsame).
  congruence.
Qed.

End PlaceholderUrl.
(* ================================================================== *)
(** ** The image route: responses *)

Section ImagePost.

Import ImageRoute.

Variable numberText : string -> string.
Variable toLowerCase : JsString.utf16 -> JsString.utf16.

Lemma truthyPrompt_false (p : Prompt) :
  truthyPrompt p = false <->
  p = PromptText [] \/
  exists value, p = PromptOther value /\ JsString.truthy value = false.
Proof.
  destruct p as [[|u text] | value]; cbn [truthyPrompt].
  - split; [left; reflexivity | reflexivity].
  - split; [discriminate|]. intros [H | (value & H & _)]; discriminate.
  - split.
    + intros H. right. exists value. split; [reflexivity | exact H].
    + intros [H | (value' & [= <-] & H)]; [discriminate | exact H].
Qed.

Lemma upstreamItems_nonempty (outcome : FetchOutcome) (items : list json) :
  upstreamItems outcome = Some items -> exists item rest, items = item :: rest.
Proof.
  intros Hitems. destruct outcome as [|[] st [|data]]; try discriminate.
  cbn [upstreamItems] in Hitems. unfold imageItems in Hitems.
  destruct data; try discriminate.
  destruct (prop "data" fields) as [[]|]; try discriminate.
  destruct items0 as [|item rest]; try discriminate.
  destruct (existsb is_null (item :: rest)); [discriminate|].
  apply Some_eq_inv in Hitems. subst. eauto.
Qed.

(** X14.  The image handler never answers with an error status: its
    status is 400 exactly when the request body was read and holds no
    prompt, an empty one or another falsy value, and 200 in every other
    case, a failure to read the body, a missing credential and a failed
    upstream call included.  It calls the upstream at most once, not at
    all before a 400, and every 200 response carries at least one
    image. *)
Theorem image_POST_never_reports_failure (env : Env) (w : World)
  (request : string + RequestBody) :
  let result := POST numberText toLowerCase env w request in
  (status (snd result) = 200 \/ status (snd result) = 400) /\
  (List.length (fst result) <= 1)%nat /\
  (status (snd result) = 400 <->
   exists req, request = inr req /\
     (prompt req = None \/ prompt req = Some (PromptText []) \/
      exists value,
        prompt req = Some (PromptOther value) /\ JsString.truthy value = false)) /\
  (status (snd result) = 400 ->
   fst result = [] /\ body (snd result) = ErrorBody "Prompt is required") /\
  (status (snd result) = 200 ->
   exists img images metadata error details fallback,
     body (snd result) = ImagesBody (img :: images) metadata error details fallback).
Proof.
  cbv zeta. unfold POST.
  destruct request as [message | req].
  { cbn [fst snd status body emergency List.length].
    split; [left; reflexivity|]. split; [lia|]. split.
    - split; [discriminate | intros (r & H & _); discriminate].
    - split; [discriminate|]. intros _. repeat eexists. }
  destruct (prompt req) as [p|] eqn:Hprompt.
  2: { cbn [fst snd status body List.length].
       split; [right; reflexivity|]. split; [lia|]. split.
       - split; [intros _; exists req; split; [reflexivity | auto] | reflexivity].
       - split; [intros _; split; reflexivity | discriminate]. }
  destruct (truthyPrompt p) eqn:Htruthy; cbn [negb].
  2: { cbn [fst snd status body List.length].
       split; [right; reflexivity|]. split; [lia|]. split.
       - split; [|reflexivity]. intros _. exists req. split; [reflexivity|].
         right. apply truthyPrompt_false in Htruthy.
         destruct Htruthy as [-> | (value & -> & Hvalue)]; [left; exact Hprompt|].
         right. exists value. split; [exact Hprompt | exact Hvalue].
       - split; [intros _; split; reflexivity | discriminate]. }
  assert (Hno400 : ~ exists r, @inr string RequestBody req = inr r /\
                     (prompt r = None \/ prompt r = Some (PromptText []) \/
                      exists value,
                        prompt r = Some (PromptOther value) /\
                        JsString.truthy value = false)).
  { intros (r & [= <-] & H). rewrite Hprompt in H.
    assert (Hfalse : truthyPrompt p = false); [|congruence].
    apply truthyPrompt_false.
    destruct H as [H | [[= ->] | (value & [= ->] & Hvalue)]]; [discriminate | |].
    - left. reflexivity.
    - right. exists value. split; [reflexivity | exact Hvalue]. }
  assert (Hemergency : forall (calls : list UpstreamRequest) details,
            (List.length calls <= 1)%nat ->
            (status (snd (calls, emergency w details)) = 200 \/
             status (snd (calls, emergency w details)) = 400) /\
            (List.length (fst (calls, emergency w details)) <= 1)%nat /\
            (status (snd (calls, emergency w details)) = 400 <->
             exists r, @inr string RequestBody req = inr r /\
               (prompt r = None \/ prompt r = Some (PromptText []) \/
                exists value,
                  prompt r = Some (PromptOther value) /\
                  JsString.truthy value = false)) /\
            (status (snd (calls, emergency w details)) = 400 ->
             fst (calls, emergency w details) = [] /\
             body (snd (calls, emergency w details)) = ErrorBody "Prompt is required") /\
            (status (snd (calls, emergency w details)) = 200 ->
             exists img images metadata error details0 fallback,
               body (snd (calls, emergency w details)) =
               ImagesBody (img :: images) metadata error details0 fallback)).
  { intros calls details Hcalls. cbn [fst snd status body emergency].
    split; [left; reflexivity|]. split; [exact Hcalls|]. split.
    - split; [discriminate | intros H; contradiction].
    - split; [discriminate|]. intros _. repeat eexists. }
  destruct (getRandomApiKey _ _) as [apiKey|]; [|apply Hemergency; cbn [List.length]; lia].
  destruct (options req) as [| |o]; [|apply Hemergency; cbn [List.length]; lia|].
  all: match goal with
       | |- context [upstreamItems ?o] =>
           destruct (upstreamItems o) as [items|] eqn:Hitems
       end;
       [destruct (upstreamItems_nonempty _ _ Hitems) as (item & rest & ->);
        cbn [fst snd status body List.length map];
        (split; [left; reflexivity|]); (split; [lia|]);
        (split; [split; [discriminate | intros H; contradiction]|]);
        (split; [discriminate|]); intros _; repeat eexists
       |destruct (generateAdvancedPlaceholder _ _ _ _);
        [cbn [fst snd status body List.length];
         (split; [left; reflexivity|]); (split; [lia|]);
         (split; [split; [discriminate | intros H; contradiction]|]);
         (split; [discriminate|]); intros _; repeat eexists
        |apply Hemergency; cbn [List.length]; lia]].
Qed.

(** X15.  For a request with a prompt that is not falsy, under a
    configured credential: with [options] [null] the handler makes no
    upstream call and answers from its outer [catch]; otherwise it makes
    one upstream call, for the prompt and the requested model (or the
    default one).  The response is marked as a fallback in its
    [metadata] exactly when that call fails and the placeholder can be
    generated, and when the call delivers images the response is theirs:
    one image per item delivered, in order, with the item's url, under
    provider "OpenRouter" and without fallback marker. *)
Theorem image_upstream_images_are_passed_on (env : Env) (w : World)
  (req : RequestBody) (p : Prompt) :
  prompt req = Some p ->
  truthyPrompt p = true ->
  OPENROUTER_API_KEYS env <> [] ->
  let requested :=
    match model req with
    | Some m => m
    | None => "black-forest-labs/flux-schnell"
    end in
  let result := POST numberText toLowerCase env w (inr req) in
  (options req = Null -> result = ([], emergency w None)) /\
  (options req <> Null ->
   exists call,
     fst result = [call] /\
     upPrompt call = p /\
     upModel call = requested /\
     upSize call = sizeOf (options req) /\
     (metadataFallback (snd result) = Some true <->
      upstreamFails (fetch w call) /\
      generateAdvancedPlaceholder numberText toLowerCase p (sizeOf (options req))
      <> None) /\
     (forall items, upstreamItems (fetch w call) = Some items ->
        snd result =
        {| status := 200;
           body :=
             ImagesBody
               (map (fun img => mkImage (urlOf img) p requested) items)
               (mkMetadata requested p (now w) "OpenRouter" None)
               None None None |})).
Proof.
  intros Hprompt Htruthy Hkeys requested result.
  unfold result, POST. rewrite Hprompt, Htruthy. cbn [negb].
  fold requested.
  destruct (getRandomApiKey (OPENROUTER_API_KEYS env) (random w)) as [apiKey|] eqn:Hkey.
  2: { apply getRandomApiKey_none in Hkey. contradiction. }
  destruct (options req) as [| |o] eqn:Hoptions.
  2: { split; [reflexivity | intros H; contradiction]. }
  all: split; [discriminate|]; intros _;
       match goal with
       | |- context [upstreamItems (fetch ?host ?c)] =>
           set (call := c); exists call;
           destruct (upstreamItems (fetch host call)) as [items|] eqn:Hitems
       end;
       [cbn [fst snd metadataFallback body metaFallback];
        split; [reflexivity|]; split; [reflexivity|]; split; [reflexivity|];
        split; [reflexivity|]; split;
        [rewrite upstreamFails_items, Hitems; split;
           [discriminate | intros [H _]; discriminate]
        |intros items' [= <-]; reflexivity]
       |destruct (generateAdvancedPlaceholder numberText toLowerCase p _)
          as [placeholder|] eqn:Hplaceholder;
        cbn [fst snd metadataFallback body metaFallback emergency];
        (split; [reflexivity|]); (split; [reflexivity|]); (split; [reflexivity|]);
        (split; [reflexivity|]); (split; [|discriminate]);
        rewrite upstreamFails_items, Hitems;
        [split; [intros _; split; [reflexivity | discriminate] | reflexivity]
        |split; [discriminate | intros [_ H]; contradiction]]].
Qed.

End ImagePost.

(* ================================================================== *)
(** ** The chat route: responses *)

Section ChatPost.

Import ChatRoute.

(** X16.  The chat handler answers 200, 400 or 500 and calls an upstream
    at most once.  Its status is 400 exactly when the request body was
    read and holds no (or an empty) message, and then no upstream is
    called.  A 200 response is never made up by the handler: it follows
    one upstream call and carries what that call returned, the text
    [generateText] produced or the [content] of the first choice of the
    parsed upstream body. *)
Theorem chat_POST_outcomes (env : ChatEnv) (w : ChatWorld)
  (request : string + ChatRequest) :
  let result := POST env w request in
  (status (snd result) = 200 \/ status (snd result) = 400 \/ status (snd result) = 500) /\
  (List.length (fst result) <= 1)%nat /\
  (status (snd result) = 400 <->
   exists req, request = inr req /\ (message req = None \/ message req = Some "")) /\
  (status (snd result) = 400 -> fst result = []) /\
  (status (snd result) = 200 ->
   exists call answer answeredModel provider,
     fst result = [call] /\
     body (snd result) = Answered answer answeredModel provider /\
     match call with
     | ToGroq c =>
         exists generated, generateText w c = Generated generated /\
                           answer = Some (JString generated)
     | ToOpenRouter c =>
         exists upstreamStatus data,
           fetch w c = ImageRoute.FetchResponse true upstreamStatus (Parsed data) /\
           completionText data = Ok (Some answer)
     end).
Proof.
  cbv zeta.
  destruct request as [error | req].
  { cbn. split; [auto|]. split; [lia|]. split.
    - split; [discriminate | intros (r & H & _); discriminate].
    - split; discriminate. }
  destruct (message req) as [text|] eqn:Hmessage.
  2: { unfold POST. rewrite Hmessage. cbn.
       split; [auto|]. split; [lia|]. split.
       - split; [intros _; exists req; auto | reflexivity].
       - split; [reflexivity | discriminate]. }
  destruct (string_dec text "") as [-> | Htext].
  { unfold POST. rewrite Hmessage. cbn.
    split; [auto|]. split; [lia|]. split.
    - split; [intros _; exists req; auto | reflexivity].
    - split; [reflexivity | discriminate]. }
  assert (Hno400 : ~ exists r, @inr string ChatRequest req = inr r /\
                     (message r = None \/ message r = Some "")).
  { intros (r & [= <-] & [H | H]); rewrite Hmessage in H; congruence. }
  destruct (chat_POST_with_message env w req text Hmessage Htext)
    as [(Hcalls & Hstatus & _)
       | [(call & past & Hcalls & _ & _ & _ & _ & _ & _ & Hout)
         | (call & past & Hcalls & _ & _ & _ & _ & _ & _ & Hout)]];
    rewrite Hcalls.
  - rewrite Hstatus. split; [auto|]. split; [cbn; lia|]. split.
    + split; [discriminate | intros H; contradiction].
    + split; discriminate.
  - destruct (generateText w call) as [error | generated] eqn:Hgen; rewrite Hout.
    + cbn. split; [auto|]. split; [lia|]. split.
      * split; [discriminate | intros H; contradiction].
      * split; discriminate.
    + cbn. split; [auto|]. split; [lia|]. split.
      * split; [discriminate | intros H; contradiction].
      * split; [discriminate|]. intros _.
        exists (ToGroq call). do 3 eexists.
        split; [reflexivity|]. split; [reflexivity|].
        exists generated. split; [exact Hgen | reflexivity].
  - assert (Hfail : forall details,
              (status (failure details) = 200 \/ status (failure details) = 400 \/
               status (failure details) = 500) /\
              (List.length [ToOpenRouter call] <= 1)%nat /\
              (status (failure details) = 400 <->
               exists r, @inr string ChatRequest req = inr r /\
                         (message r = None \/ message r = Some "")) /\
              (status (failure details) = 400 -> [ToOpenRouter call] = []) /\
              (status (failure details) = 200 ->
               exists call0 answer answeredModel provider,
                 [ToOpenRouter call] = [call0] /\
                 body (failure details) = Answered answer answeredModel provider /\
                 match call0 with
                 | ToGroq c =>
                     exists generated, generateText w c = Generated generated /\
                                       answer = Some (JString generated)
                 | ToOpenRouter c =>
                     exists upstreamStatus data,
                       fetch w c =
                         ImageRoute.FetchResponse true upstreamStatus (Parsed data) /\
                       completionText data = Ok (Some answer)
                 end)).
    { intros details. cbn. split; [auto|]. split; [lia|]. split.
      - split; [discriminate | intros H; contradiction].
      - split; discriminate. }
    destruct (fetch w call) as [error | [] upstreamStatus [|data]] eqn:Hfetch;
      rewrite Hout; try apply Hfail;
      try (destruct (upstreamErrorMessage upstreamStatus _); apply Hfail).
    destruct (completionText data) as [[answer|]| |] eqn:Htext'; try apply Hfail.
    cbn. split; [auto|]. split; [lia|]. split.
    + split; [discriminate | intros H; contradiction].
    + split; [discriminate|]. intros _.
      exists (ToOpenRouter call). do 3 eexists.
      split; [reflexivity|]. split; [reflexivity|].
      exists upstreamStatus, data. split; [exact Hfetch | exact Htext'].
Qed.

(** X17.  On a request with a message, the handler makes no upstream
    call exactly when the history cannot be mapped ([messages] is not an
    array, or holds a [null]), when the credential of the provider the
    model is routed to is missing (the Groq key for an allow-listed
    model, every OpenRouter key for another model), or when [options] is
    [null].  It then answers 500; a missing credential is named in
    [details], before [options] is read, and the handler does not turn
    to the other provider, whose credential may be configured. *)
Theorem chat_POST_needs_the_credential_of_its_provider (env : ChatEnv) (w : ChatWorld)
  (req : ChatRequest) (text : string) :
  message req = Some text ->
  text <> "" ->
  let requested :=
    match model req with
    | Some m => m
    | None => "deepseek/deepseek-r1-0528:free"
    end in
  let result := POST env w (inr req) in
  let missing :=
    (isGroqModel requested = true /\
     (GROQ_API_KEY env = None \/ GROQ_API_KEY env = Some "")) \/
    (isGroqModel requested = false /\ ImageRoute.OPENROUTER_API_KEYS (keys env) = []) in
  (fst result = [] <->
   history (messages req) = None \/ missing \/ options req = ImageRoute.Null) /\
  (fst result = [] -> status (snd result) = 500) /\
  (history (messages req) <> None -> missing ->
   body (snd result) =
     Failed "Failed to generate response"
       (Some (if isGroqModel requested then "Groq API key not configured"
              else "No OpenRouter API keys configured"))) /\
  (history (messages req) = None \/ (~ missing /\ options req = ImageRoute.Null) ->
   body (snd result) = Failed "Failed to generate response" None).
Proof.
  intros Hmessage Htext. cbv zeta.
  pose proof (chat_POST_with_message env w req text Hmessage Htext) as Hcases.
  cbv zeta in Hcases.
  set (requested := match model req with
                    | Some m => m
                    | None => "deepseek/deepseek-r1-0528:free"
                    end) in *.
  destruct Hcases
    as [(Hcalls & Hstatus & Hwhy)
       | [(call & past & Hcalls & Hgroq & (key & Hkey & Hne) & Hpast & Hoptions & _)
         | (call & past & Hcalls & Hgroq & Hkeys & Hpast & Hoptions & _)]];
    rewrite Hcalls.
  - split; [|split; [intros _; exact Hstatus|]].
    + split; [intros _ | reflexivity].
      destruct Hwhy as [(Hnone & _) | [(_ & Hg & Hk & _) | [(_ & Hg & Hk & _)
                                                           | (_ & Hnull & _)]]];
        auto.
    + destruct Hwhy as [(Hnone & Hbody) | [(Hsome & Hg & Hk & Hbody)
                                           | [(Hsome & Hg & Hk & Hbody)
                                             | (Hsome & Hnull & Hcredential & Hbody)]]].
      * split; [intros H; contradiction | intros _; exact Hbody].
      * split; [intros _ _; rewrite Hg; exact Hbody|].
        intros [Hnone | (Hconfigured & _)]; [contradiction|].
        exfalso. apply Hconfigured. left. split; assumption.
      * split; [intros _ _; rewrite Hg; exact Hbody|].
        intros [Hnone | (Hconfigured & _)]; [contradiction|].
        exfalso. apply Hconfigured. right. split; assumption.
      * split; [|intros _; exact Hbody].
        intros _ [(Hg & Hk) | (Hg & Hk)]; rewrite Hg in Hcredential; exfalso.
        -- destruct Hcredential as (key & Hkey & Hne).
           destruct Hk as [Hk | Hk]; rewrite Hk in Hkey; congruence.
        -- contradiction.
  - assert (Hconfigured :
              ~ ((isGroqModel requested = true /\
                  (GROQ_API_KEY env = None \/ GROQ_API_KEY env = Some "")) \/
                 (isGroqModel requested = false /\
                  ImageRoute.OPENROUTER_API_KEYS (keys env) = []))).
    { intros [(_ & [Hk | Hk]) | (Hg & _)]; congruence. }
    split; [|split; [discriminate|]].
    + split; [discriminate|].
      intros [Hnone | [Hmissing | Hnull]]; [congruence | contradiction | contradiction].
    + split; [intros _ Hmissing; contradiction|].
      intros [Hnone | (_ & Hnull)]; [congruence | contradiction].
  - assert (Hconfigured :
              ~ ((isGroqModel requested = true /\
                  (GROQ_API_KEY env = None \/ GROQ_API_KEY env = Some "")) \/
                 (isGroqModel requested = false /\
                  ImageRoute.OPENROUTER_API_KEYS (keys env) = []))).
    { intros [(Hg & _) | (_ & Hk)]; congruence. }
    split; [|split; [discriminate|]].
    + split; [discriminate|].
      intros [Hnone | [Hmissing | Hnull]]; [congruence | contradiction | contradiction].
    + split; [intros _ Hmissing; contradiction|].
      intros [Hnone | (_ & Hnull)]; [congruence | contradiction].
Qed.

(** X18.  When OpenRouter answers a chat request with a non-success
    status, the handler answers 500 with the upstream's own explanation
    as [details]: the non-empty [error.message] of the upstream body when
    there is one, and the text "API error: " followed by the upstream
    status when the body does not parse or is an object without such a
    message. *)
Theorem chat_POST_reports_the_upstream_error (env : ChatEnv) (w : ChatWorld)
  (req : ChatRequest) (text : string) (call : OpenRouterCall)
  (upstreamStatus : Z) (responseBody : snapshot) :
  message req = Some text ->
  text <> "" ->
  fst (POST env w (inr req)) = [ToOpenRouter call] ->
  fetch w call = ImageRoute.FetchResponse false upstreamStatus responseBody ->
  status (snd (POST env w (inr req))) = 500 /\
  (forall fields errorFields explanation,
     responseBody = Parsed (JObject fields) ->
     prop "error" fields = Some (JObject errorFields) ->
     prop "message" errorFields = Some (JString explanation) ->
     explanation <> "" ->
     body (snd (POST env w (inr req))) =
     Failed "Failed to generate response" (Some explanation)) /\
  ((responseBody = Unparseable \/
    exists fields, responseBody = Parsed (JObject fields) /\ prop "error" fields = None) ->
   body (snd (POST env w (inr req))) =
   Failed "Failed to generate response"
     (Some ("API error: " ++ decimal upstreamStatus))).
Proof.
  intros Hmessage Htext Hcalls Hfetch.
  destruct (chat_POST_with_message env w req text Hmessage Htext)
    as [(Hnone & _)
       | [(call' & past & Hcalls' & _)
         | (call' & past & Hcalls' & _ & _ & _ & _ & _ & _ & Hout)]];
    cbv zeta in *.
  - rewrite Hnone in Hcalls. discriminate.
  - rewrite Hcalls' in Hcalls. discriminate.
  - rewrite Hcalls' in Hcalls. injection Hcalls as ->.
    rewrite Hfetch in Hout. rewrite Hout.
    split; [destruct (upstreamErrorMessage _ _); reflexivity|]. split.
    + intros fields errorFields explanation -> Herror Hexpl Hne.
      unfold upstreamErrorMessage, field, truthyField. rewrite Herror, Hexpl.
      cbn [JsString.truthy].
      destruct (String.eqb_spec explanation ""); [contradiction|]. reflexivity.
    + intros [-> | (fields & -> & Herror)]; [reflexivity|].
      unfold upstreamErrorMessage, field. rewrite Herror. reflexivity.
Qed.

End ChatPost.

(* ================================================================== *)
(** ** The audio route *)

Section AudioPost.

Import AudioRoute.

Lemma appended_In (name : string) (value : option string) (keep : string -> bool)
  (entry : string * Entry) :
  In entry (appended name value keep) <->
  exists v, value = Some v /\ v <> "" /\ keep v = true /\ entry = (name, TextEntry v).
Proof.
  unfold appended. destruct value as [[|c v]|]; cbn [In].
  - split; [contradiction | intros (v & [= <-] & Hne & _); contradiction].
  - destruct (keep (String c v)) eqn:Hkeep; cbn [In].
    + split.
      * intros [<- | []]. exists (String c v). repeat split; [discriminate | exact Hkeep].
      * intros (v' & [= <-] & _ & _ & ->). left. reflexivity.
    + split; [contradiction|].
      intros (v' & [= <-] & _ & Hk & _). congruence.
  - split; [contradiction | intros (v & H & _); discriminate].
Qed.

(** The run of the handler on a form with a file, under a configured
    key. *)
Lemma audio_POST_with_file (env : AudioEnv) (w : AudioWorld) (formData : Form)
  (key : string) (audioFile : File) :
  GROQ_API_KEY env = Some key ->
  key <> "" ->
  file formData = Some audioFile ->
  let call :=
    {| endpoint :=
         match action formData with
         | Some a => if String.eqb a "translate" then TRANSLATIONS else TRANSCRIPTIONS
         | None => TRANSCRIPTIONS
         end;
       authorization := "Bearer " ++ key;
       form :=
         ([("file", FileEntry audioFile);
           ("model", TextEntry (JsString.orElse (model formData) "whisper-large-v3"))]
          ++ appended "language" (language formData)
               (fun l => negb (String.eqb l "auto"))
          ++ appended "temperature" (temperature formData) (fun _ => true))%list |} in
  fst (POST env w (inr formData)) = [call] /\
  snd (POST env w (inr formData)) =
  match fetch w call with
  | ImageRoute.FetchThrows message => crashed (Some message)
  | ImageRoute.FetchResponse false upstreamStatus responseBody =>
      let errorData :=
        match responseBody with
        | Unparseable => JObject [("error", JString "Unknown error")]
        | Parsed data => data
        end in
      match upstreamError upstreamStatus errorData with
      | Some error =>
          if acceptsBody upstreamStatus
          then {| status := upstreamStatus; body := UpstreamError error errorData |}
          else crashed None
      | None => crashed None
      end
  | ImageRoute.FetchResponse true _ Unparseable => crashed None
  | ImageRoute.FetchResponse true _ (Parsed JNull) => crashed None
  | ImageRoute.FetchResponse true _ (Parsed result) =>
      {| status := 200;
         body :=
           Transcript (ChatRoute.field "text" result)
             (ChatRoute.field "language" result)
             (ChatRoute.field "duration" result)
             (JsString.orElse (model formData) "whisper-large-v3")
             (action formData) |}
  end.
Proof.
  intros Hkey Hne Hfile call. unfold POST. rewrite Hkey, Hfile.
  destruct key as [|c key]; [contradiction|].
  fold call.
  destruct (fetch w call) as [message | [] upstreamStatus [|data]];
    try (split; reflexivity).
  destruct data; split; reflexivity.
Qed.

(** X19.  Under a configured key, a request whose form holds a file is
    forwarded in one upstream call that carries the key: to the
    translation endpoint exactly when [action] is "translate", and to the
    transcription endpoint otherwise.  The forwarded form starts with the
    file and the model (whisper-large-v3 when none is given); a language
    is forwarded exactly when one is given that is neither empty nor
    "auto", and a temperature exactly when a non-empty one is given. *)
Theorem audio_POST_forwards_the_form (env : AudioEnv) (w : AudioWorld)
  (formData : Form) (key : string) (audioFile : File) :
  GROQ_API_KEY env = Some key ->
  key <> "" ->
  file formData = Some audioFile ->
  exists call optional,
    fst (POST env w (inr formData)) = [call] /\
    authorization call = "Bearer " ++ key /\
    (endpoint call = TRANSLATIONS <-> action formData = Some "translate") /\
    (endpoint call <> TRANSLATIONS -> endpoint call = TRANSCRIPTIONS) /\
    form call =
      (("file", FileEntry audioFile)
       :: ("model",
           TextEntry (match model formData with
                      | Some EmptyString | None => "whisper-large-v3"
                      | Some m => m
                      end))
       :: optional)%list /\
    (forall name entry, In (name, entry) optional ->
       name = "language" \/ name = "temperature") /\
    (forall l, In ("language", TextEntry l) optional <->
               language formData = Some l /\ l <> "" /\ l <> "auto") /\
    (forall t, In ("temperature", TextEntry t) optional <->
               temperature formData = Some t /\ t <> "").
Proof.
  intros Hkey Hne Hfile.
  destruct (audio_POST_with_file env w formData key audioFile Hkey Hne Hfile)
    as [Hcalls _].
  cbv zeta in Hcalls. eexists. eexists. split; [exact Hcalls|].
  cbn [authorization endpoint form app].
  split; [reflexivity|]. split; [|split; [|split; [|split; [|split]]]].
  - destruct (action formData) as [a|].
    + destruct (String.eqb_spec a "translate") as [Heq | Ha].
      * rewrite Heq. split; reflexivity.
      * split; [discriminate | intros [= H]; contradiction].
    + split; discriminate.
  - destruct (action formData) as [a|]; [|reflexivity].
    destruct (String.eqb a "translate"); [intros H; exfalso; apply H|]; reflexivity.
  - unfold JsString.orElse. destruct (model formData) as [[|c m]|]; reflexivity.
  - intros name entry Hin. apply in_app_or in Hin as [Hin | Hin];
      apply appended_In in Hin as (v & _ & _ & _ & [= -> _]); auto.
  - intros l. rewrite in_app_iff, !appended_In. split.
    + intros [(v & Hv & Hnv & Hkeep & [= ->]) | (v & _ & _ & _ & [= ])].
      split; [exact Hv|]. split; [exact Hnv|].
      intros ->. discriminate.
    + intros (Hl & Hnl & Hauto). left. exists l. repeat split; try assumption.
      destruct (String.eqb_spec l "auto"); [contradiction | reflexivity].
  - intros t. rewrite in_app_iff, !appended_In. split.
    + intros [(v & _ & _ & _ & [= ]) | (v & Hv & Hnv & _ & [= ->])].
      split; assumption.
    + intros (Ht & Hnt). right. exists t. repeat split; assumption.
Qed.

(** X20.  Let the upstream's answers be [ok] exactly on the statuses 200
    to 299, as [Response.ok] is.  The audio handler calls the upstream at
    most once, and not at all when the key is missing, the form cannot be
    read or it holds no file.  It answers 200 exactly when the upstream
    call succeeded with a body that parses to something else than [null].
    When the upstream answers a non-success status that a response with a
    body may carry, with a body other than [null], the handler answers
    with that very status: an upstream 429 reaches the client as 429. *)
Theorem audio_POST_passes_the_upstream_status_on (env : AudioEnv) (w : AudioWorld)
  (request : string + Form) :
  (forall call ok upstreamStatus responseBody,
     fetch w call = ImageRoute.FetchResponse ok upstreamStatus responseBody ->
     ok = (200 <=? upstreamStatus) && (upstreamStatus <=? 299)) ->
  let result := POST env w request in
  (List.length (fst result) <= 1)%nat /\
  (fst result = [] <->
   (GROQ_API_KEY env = None \/ GROQ_API_KEY env = Some "") \/
   (exists message, request = inl message) \/
   (exists formData, request = inr formData /\ file formData = None)) /\
  (status (snd result) = 200 <->
   exists call upstreamStatus data,
     fst result = [call] /\
     fetch w call = ImageRoute.FetchResponse true upstreamStatus (Parsed data) /\
     data <> JNull) /\
  (forall call upstreamStatus responseBody,
     fst result = [call] ->
     fetch w call = ImageRoute.FetchResponse false upstreamStatus responseBody ->
     responseBody <> Parsed JNull ->
     acceptsBody upstreamStatus = true ->
     status (snd result) = upstreamStatus).
Proof.
  intros Hok. cbv zeta.
  destruct (GROQ_API_KEY env) as [key|] eqn:Hkey.
  2: { unfold POST. rewrite Hkey. cbn. split; [lia|]. split; [|split].
       - split; auto.
       - split; [discriminate | intros (c & st & d & H & _); discriminate].
       - intros c st rb H. discriminate. }
  destruct (string_dec key "") as [-> | Hne].
  { unfold POST. rewrite Hkey. cbn. split; [lia|]. split; [|split].
    - split; auto.
    - split; [discriminate | intros (c & st & d & H & _); discriminate].
    - intros c st rb H. discriminate. }
  assert (Hconfigured : ~ (Some key = None \/ Some key = Some "")).
  { intros [H | H]; congruence. }
  destruct request as [message | formData].
  { unfold POST. rewrite Hkey. destruct key; [contradiction|]. cbn.
    split; [lia|]. split; [|split].
    - split; [intros _; right; left; eauto | reflexivity].
    - split; [discriminate | intros (c & st & d & H & _); discriminate].
    - intros c st rb H. discriminate. }
  destruct (file formData) as [audioFile|] eqn:Hfile.
  2: { unfold POST. rewrite Hkey, Hfile. destruct key; [contradiction|]. cbn.
       split; [lia|]. split; [|split].
       - split; [intros _; right; right; eauto | reflexivity].
       - split; [discriminate | intros (c & st & d & H & _); discriminate].
       - intros c st rb H. discriminate. }
  destruct (audio_POST_with_file env w formData key audioFile Hkey Hne Hfile)
    as [Hcalls Hout].
  cbv zeta in Hcalls, Hout. rewrite Hcalls, Hout.
  match type of Hcalls with _ = [?c] => set (call := c) in * end.
  split; [cbn; lia|]. split; [|split].
  - split; [discriminate|].
    intros [H | [(m & H) | (f & [= <-] & H)]];
      [contradiction | discriminate | congruence].
  - split.
    + intros Hstatus.
      destruct (fetch w call) as [message | [] upstreamStatus [|data]] eqn:Hfetch;
        try discriminate.
      * exists call, upstreamStatus, data. split; [reflexivity|].
        split; [exact Hfetch|]. intros ->. discriminate.
      * exfalso. cbv zeta in Hstatus.
        destruct (upstreamError upstreamStatus _); [|discriminate].
        destruct (acceptsBody upstreamStatus) eqn:Hacc; [|discriminate].
        cbn [status] in Hstatus. subst upstreamStatus.
        specialize (Hok _ _ _ _ Hfetch). discriminate.
      * exfalso. cbv zeta in Hstatus.
        destruct (upstreamError upstreamStatus _); [|discriminate].
        destruct (acceptsBody upstreamStatus) eqn:Hacc; [|discriminate].
        cbn [status] in Hstatus. subst upstreamStatus.
        specialize (Hok _ _ _ _ Hfetch). discriminate.
    + intros (c & upstreamStatus & data & [= <-] & Hfetch & Hdata).
      rewrite Hfetch. destruct data; try reflexivity. contradiction.
  - intros c upstreamStatus responseBody [= <-] Hfetch Hbody Hacc.
    rewrite Hfetch. cbv zeta.
    assert (Herror : exists error,
              upstreamError upstreamStatus
                match responseBody with
                | Unparseable => JObject [("error", JString "Unknown error")]
                | Parsed data => data
                end = Some error).
    { destruct responseBody as [|data]; [eexists; reflexivity|].
      unfold upstreamError. destruct data; try (eexists; reflexivity).
      - exfalso. apply Hbody. reflexivity.
      - cbn [ChatRoute.field].
        destruct (prop "error" fields) as [[]|]; try (eexists; reflexivity).
        destruct (ChatRoute.truthyField _); eexists; reflexivity. }
    destruct Herror as (error & ->). rewrite Hacc. reflexivity.
Qed.

End AudioPost.

(* ================================================================== *)
(** * The model catalog *)

Section Catalog.

Import AiModels.

Lemma find_by_id (l : list AIModel) :
  NoDup (map id l) ->
  forall m, In m l -> find (fun model => String.eqb (id model) (id m)) l = Some m.
Proof.
  induction l as [|x l IH]; intros Hnd m Hin; [contradiction|].
  cbn [map] in Hnd. inversion Hnd as [|? ? Hx Hnd']; subst.
  cbn [find]. destruct Hin as [-> | Hin].
  - rewrite String.eqb_refl. reflexivity.
  - destruct (String.eqb_spec (id x) (id m)) as [Heq | _]; [|apply IH; assumption].
    exfalso. apply Hx. rewrite Heq. apply in_map. exact Hin.
Qed.

Lemma AI_MODELS_ids_distinct : NoDup (map id AI_MODELS).
Proof.
  cbn [AI_MODELS map id].
  repeat (apply NoDup_cons;
          [cbn [In]; intros Hin;
           repeat (destruct Hin as [Hin | Hin]; [discriminate Hin|]); exact Hin|]).
  apply NoDup_nil.
Qed.

(** X21.  The identifiers of the catalog are pairwise distinct, so that
    [getModelById] finds every model of the catalog under its own id;
    what it returns is a model of the catalog with the id asked for, and
    it returns nothing exactly for the ids the catalog does not hold. *)
Theorem getModelById_finds_every_catalog_model :
  NoDup (map id AI_MODELS) /\
  (forall m, In m AI_MODELS -> getModelById (id m) = Some m) /\
  (forall i m, getModelById i = Some m -> In m AI_MODELS /\ id m = i) /\
  (forall i, getModelById i = None <-> ~ In i (map id AI_MODELS)).
Proof.
  split; [exact AI_MODELS_ids_distinct|]. split; [|split].
  - intros m Hin. unfold getModelById.
    apply find_by_id; [exact AI_MODELS_ids_distinct | exact Hin].
  - intros i m Hfind. unfold getModelById in Hfind.
    apply find_some in Hfind as [Hin Heq].
    apply String.eqb_eq in Heq. split; assumption.
  - intros i. unfold getModelById. split.
    + intros Hnone Hin. apply in_map_iff in Hin as (m & <- & Hin).
      pose proof (find_none _ _ Hnone m Hin) as H. cbn beta in H.
      rewrite String.eqb_refl in H. discriminate.
    + intros Hout.
      destruct (find _ AI_MODELS) as [m|] eqn:Hfind; [|reflexivity].
      apply find_some in Hfind as [Hin Heq]. apply String.eqb_eq in Heq.
      exfalso. apply Hout. rewrite <- Heq. apply in_map. exact Hin.
Qed.

(** X22.  The catalog and the chat route agree on Groq: the models the
    catalog lists under provider "Groq" are, in order, the identifiers of
    the route's allow-list, so that a catalog model is sent to Groq
    exactly when the catalog names Groq as its provider; and
    [getFastestModels] returns these same models, each of which the chat
    route sends to Groq. *)
Theorem catalog_agrees_with_chat_routing :
  map id (getModelsByProvider "Groq") = ChatRoute.groqModels /\
  (forall m, In m AI_MODELS ->
     (ChatRoute.route (id m) = "Groq" <-> provider m = "Groq")) /\
  getFastestModels = getModelsByProvider "Groq" /\
  (forall m, In m getFastestModels -> ChatRoute.route (id m) = "Groq").
Proof.
  split; [reflexivity|]. split; [|split; [reflexivity|]].
  - intros m Hin. cbn [AI_MODELS In] in Hin.
    repeat (destruct Hin as [<- | Hin];
            [vm_compute; split; intros H; solve [reflexivity | discriminate H]|]).
    contradiction.
  - intros m Hin.
    assert (Hfast : getFastestModels = filter (fun model =>
              String.eqb (provider model) "Groq") AI_MODELS) by reflexivity.
    rewrite Hfast in Hin. cbn in Hin.
    repeat (destruct Hin as [<- | Hin]; [reflexivity|]).
    contradiction.
Qed.

End Catalog.

(* ================================================================== *)
(** * The sidebar *)

Section SidebarLabels.

Import Sidebar.

Lemma slice_last_snoc {A : Type} (n : nat) (l : list A) (x : A) :
  (0 < n)%nat -> exists front, slice_last n (l ++ [x])%list = (front ++ [x])%list.
Proof.
  intros Hn. unfold slice_last.
  rewrite length_app. cbn [List.length]. rewrite skipn_app.
  replace (List.length l + 1 - n - List.length l)%nat with 0%nat by lia.
  cbn [skipn]. eexists. reflexivity.
Qed.

Lemma preview_is_titleOf (content : string) :
  (if (50 <? String.length content)%nat then substring 0 50 content ++ "..."
   else content) = titleOf content.
Proof.
  destruct (Nat.ltb_spec 50 (String.length content)).
  - symmetry. apply titleOf_long. assumption.
  - symmetry. apply titleOf_short. assumption.
Qed.

(** X23.  The sidebar's preview of a conversation is "No messages" when
    it is empty; right after an [addMessage] it shows the message just
    stored, under "You" for a user message and "AI" otherwise, cut after
    50 characters in the way [addMessage] cuts a title; and it never
    exceeds 58 characters. *)
Theorem getLastMessage_previews_the_message_just_added (c : Conversation.t) :
  (Conversation.messages c = [] -> getLastMessage c = "No messages") /\
  (forall h message,
     getLastMessage (appendMessage h message c) =
     (match MessageInput.role message with
      | user => "You"
      | assistant => "AI"
      end) ++ ": " ++ titleOf (MessageInput.content message)) /\
  (String.length (getLastMessage c) <= 58)%nat.
Proof.
  split; [|split].
  - unfold getLastMessage. intros ->. reflexivity.
  - intros h message. unfold getLastMessage.
    rewrite appendMessage_messages.
    destruct (slice_last_snoc MAX_MESSAGES_PER_CONVERSATION (Conversation.messages c)
                (storedMessage (h, message))) as (front & ->);
      [unfold MAX_MESSAGES_PER_CONVERSATION; lia|].
    rewrite rev_app_distr. cbn [rev app storedMessage ConversationMessage.content
                                 ConversationMessage.role].
    rewrite preview_is_titleOf. reflexivity.
  - unfold getLastMessage.
    destruct (rev (Conversation.messages c)) as [|lastMessage rest]; [simpl; lia|].
    rewrite preview_is_titleOf.
    assert (Htitle : (String.length (titleOf (ConversationMessage.content lastMessage))
                      <= 53)%nat).
    { unfold titleOf. rewrite length_append.
      pose proof (length_substring 0 50 (ConversationMessage.content lastMessage)).
      destruct (50 <? _)%nat; simpl; lia. }
    destruct (ConversationMessage.role lastMessage);
      rewrite !length_append; cbn [String.length]; lia.
Qed.

Variable toLocaleDateString : Date -> string.

(** X24.  For a valid date, [formatDate] answers "Just now" for
    everything less than an hour old, dates in the future included; a
    whole number of hours from 1 to 23 up to a day; a whole number of
    days from 1 to 6 up to a week; and the locale's date from a week on.
    The number shown is the age rounded down. *)
Theorem formatDate_labels (now t : Z) :
  let age := now - t in
  let label := formatDate toLocaleDateString now (Some t) in
  (age < 3600000 -> label = "Just now") /\
  (3600000 <= age < 86400000 ->
   exists n, 1 <= n <= 23 /\ label = decimal n ++ "h ago" /\
             n * 3600000 <= age < (n + 1) * 3600000) /\
  (86400000 <= age < 604800000 ->
   exists n, 1 <= n <= 6 /\ label = decimal n ++ "d ago" /\
             n * 86400000 <= age < (n + 1) * 86400000) /\
  (604800000 <= age -> label = toLocaleDateString (Some t)).
Proof.
  cbv zeta. unfold formatDate.
  change (24 * 3600000) with 86400000. change (168 * 3600000) with 604800000.
  split; [|split; [|split]].
  - intros H. destruct (Z.ltb_spec (now - t) 3600000); [reflexivity | lia].
  - intros H.
    destruct (Z.ltb_spec (now - t) 3600000); [lia|].
    destruct (Z.ltb_spec (now - t) 86400000); [|lia].
    exists ((now - t) / 3600000).
    pose proof (Z.div_mod (now - t) 3600000 ltac:(lia)).
    pose proof (Z.mod_pos_bound (now - t) 3600000 ltac:(lia)).
    repeat split; try lia.
  - intros H.
    destruct (Z.ltb_spec (now - t) 3600000); [lia|].
    destruct (Z.ltb_spec (now - t) 86400000); [lia|].
    destruct (Z.ltb_spec (now - t) 604800000); [|lia].
    exists ((now - t) / 86400000).
    pose proof (Z.div_mod (now - t) 86400000 ltac:(lia)).
    pose proof (Z.mod_pos_bound (now - t) 86400000 ltac:(lia)).
    repeat split; try lia.
  - intros H.
    destruct (Z.ltb_spec (now - t) 3600000); [lia|].
    destruct (Z.ltb_spec (now - t) 86400000); [lia|].
    destruct (Z.ltb_spec (now - t) 604800000); [lia | reflexivity].
Qed.

End SidebarLabels.

(* ================================================================== *)
(** * Passwords *)

Section Passwords.

Import Auth.

Lemma test_weaken (class class' : ascii -> bool) (s : string) :
  (forall c, class c = true -> class' c = true) ->
  test class s = true -> test class' s = true.
Proof.
  unfold test. intros Himp H. apply existsb_exists in H as (c & Hin & Hc).
  apply existsb_exists. exists c. split; [exact Hin | apply Himp; exact Hc].
Qed.

(** X29.  [validatePassword] accepts a password exactly when it has at
    least six characters, a letter and a digit, and then reports no
    error.  A password that [getPasswordStrength] rates "strong" has at
    least eight characters, a lower-case letter, an upper-case letter, a
    digit and another character, and is accepted by [validatePassword].
    Below "strong" the rating says nothing of acceptance: "abc123" is
    accepted and rated "weak", "12345678!" is rejected and rated
    "medium". *)
Theorem strong_passwords_are_valid (password : string) :
  (isValid (validatePassword password) = true <->
   (6 <= String.length password)%nat /\
   test (fun c => isUpper c || isLower c) password = true /\
   test isDigit password = true) /\
  (isValid (validatePassword password) = true <->
   errors (validatePassword password) = []) /\
  (getPasswordStrength password = strong ->
   (8 <= String.length password)%nat /\
   test isLower password = true /\ test isUpper password = true /\
   test isDigit password = true /\
   isValid (validatePassword password) = true) /\
  isValid (validatePassword "abc123") = true /\
  getPasswordStrength "abc123" = weak /\
  isValid (validatePassword "12345678!") = false /\
  getPasswordStrength "12345678!" = medium.
Proof.
  assert (Hvalid : isValid (validatePassword password) = true <->
            (6 <= String.length password)%nat /\
            test (fun c => isUpper c || isLower c) password = true /\
            test isDigit password = true).
  { unfold validatePassword. cbn [isValid].
    destruct (Nat.ltb_spec (String.length password) 6);
      destruct (test (fun c => isUpper c || isLower c) password);
      destruct (test isDigit password); cbn; split;
      try discriminate; try (intros (? & ? & ?)); try discriminate; try lia;
      intros _; repeat split; lia. }
  split; [exact Hvalid|]. split; [|split].
  - unfold validatePassword. cbn [isValid errors].
    destruct (_ ++ _)%list; cbn; split; intros H; try reflexivity; discriminate.
  - unfold getPasswordStrength.
    destruct (Nat.leb_spec 8 (String.length password)) as [Hlen | Hlen];
      destruct (test isLower password) eqn:Hlower;
      destruct (test isUpper password) eqn:Hupper;
      destruct (test isDigit password) eqn:Hdigit;
      destruct (test (fun c => negb (isUpper c || isLower c || isDigit c)) password);
      cbn; try discriminate.
    intros _. split; [exact Hlen|]. repeat split.
    apply Hvalid. split; [lia|]. split; [|reflexivity].
    apply (test_weaken isLower); [|exact Hlower].
    intros c Hc. rewrite Hc. apply orb_true_r.
  - repeat split; reflexivity.
Qed.

End Passwords.

(* ================================================================== *)
(** * The page and the store *)

(** ** Titles of the conversations the page creates *)

Lemma untitled_same (s s' : ConversationMemory) :
  conversations s' = conversations s -> untitled s -> untitled s'.
Proof.
  unfold untitled, getConversation. intros -> H. exact H.
Qed.

Lemma appendMessage_nonempty (h : Host) (message : MessageInput.t) (c : Conversation.t) :
  Conversation.messages (appendMessage h message c) <> [].
Proof.
  rewrite appendMessage_messages.
  destruct (slice_last_snoc MAX_MESSAGES_PER_CONVERSATION (Conversation.messages c)
              (storedMessage (h, message))) as (front & ->);
    [unfold MAX_MESSAGES_PER_CONVERSATION; lia|].
  intros H. apply app_eq_nil in H as [_ H]. discriminate.
Qed.

Lemma untitled_addMessage (h : Host) (id : string) (message : MessageInput.t)
  (s : ConversationMemory) :
  untitled s -> untitled (addMessage h id message s).
Proof.
  intros Hs k c'. unfold getConversation, addMessage.
  destruct (Map.get id (conversations s)) as [c|] eqn:Hget; [|apply Hs].
  cbn [conversations].
  destruct (String.eqb_spec k id) as [-> | Hne].
  - rewrite get_replace_same by congruence. intros [= <-].
    destruct (Hs id c Hget) as [Htitle Hmessages].
    split; [|apply appendMessage_nonempty].
    rewrite appendMessage_title.
    destruct (Conversation.messages c); [contradiction|].
    destruct (MessageInput.role message); exact Htitle.
  - rewrite get_replace_other by exact Hne. apply Hs.
Qed.

Lemma untitled_deleteConversation (id : string) (s : ConversationMemory) :
  untitled s -> untitled (deleteConversation id s).
Proof.
  intros Hs k c. unfold getConversation, deleteConversation. cbn [conversations].
  rewrite get_delete. destruct (String.eqb k id); [discriminate | apply Hs].
Qed.

(** What [createConversation] leaves under an id: the new conversation
    under the new id, and under another id what was there. *)
Lemma createConversation_lookup (h : Host) (model : string) (s : ConversationMemory)
  (k : string) (c : Conversation.t) :
  getConversation k (snd (createConversation h model s)) = Some c ->
  (k = fst (createConversation h model s) /\ c = freshConversation h model) \/
  (k <> fst (createConversation h model s) /\ getConversation k s = Some c).
Proof.
  unfold getConversation. rewrite createConversation_conversations.
  rewrite createConversation_id. cbv zeta.
  set (id := Conversation.id (freshConversation h model)).
  set (m1 := Map.set id (freshConversation h model) (conversations s)).
  assert (Hm1 : Map.get k m1 = Some c ->
                (k = id /\ c = freshConversation h model) \/
                (k <> id /\ Map.get k (conversations s) = Some c)).
  { unfold m1. rewrite get_set.
    destruct (String.eqb_spec id k) as [<- | Hne].
    - intros [= <-]. left. split; reflexivity.
    - intros H. right. split; [congruence | exact H]. }
  destruct (50 <? Map.size m1)%nat; [|exact Hm1].
  destruct (leastRecentlyUpdated (Map.values m1)) as [oldest|]; [|exact Hm1].
  rewrite get_delete. destruct (String.eqb k (Conversation.id oldest));
    [discriminate | exact Hm1].
Qed.

Lemma untitled_startNewConversation (h : Page.StartHost) (app : Page.App) :
  untitled (snd app) -> untitled (snd (Page.startNewConversation h app)).
Proof.
  destruct app as [p s]. cbn [snd]. intros Hs.
  unfold Page.startNewConversation.
  destruct (createConversation (Page.created h) (Page.selectedModel p) s)
    as [conversationId s1] eqn:Hcreate.
  cbn [snd].
  pose proof (createConversation_lookup (Page.created h) (Page.selectedModel p) s)
    as Hlookup.
  rewrite Hcreate in Hlookup. cbn [fst snd] in Hlookup.
  intros k c'. unfold getConversation, addMessage.
  destruct (Map.get conversationId (conversations s1)) as [c0|] eqn:Hget.
  - cbn [conversations].
    destruct (String.eqb_spec k conversationId) as [-> | Hne].
    + rewrite get_replace_same by congruence. intros [= <-].
      split; [|apply appendMessage_nonempty].
      destruct (Hlookup conversationId c0 Hget) as [[_ ->] | [Hk _]];
        [|contradiction].
      rewrite appendMessage_title. reflexivity.
    + rewrite get_replace_other by exact Hne. intros Hk.
      destruct (Hlookup k c' Hk) as [[Hk' _] | [_ Hold]]; [contradiction|].
      exact (Hs k c' Hold).
  - intros Hk.
    destruct (Hlookup k c' Hk) as [[-> _] | [_ Hold]]; [|exact (Hs k c' Hold)].
    unfold getConversation in Hk. congruence.
Qed.

Lemma untitled_handle (e : event) (app app' : Page.App) :
  untitled (snd app) -> handle e app = Some app' -> untitled (snd app').
Proof.
  intros Hs Hhandle. destruct app as [p s]. cbn [snd] in Hs.
  destruct e; cbn [handle fst snd] in Hhandle.
  - (* Mounted *)
    apply Some_eq_inv in Hhandle. subst app'. unfold Page.initConversation.
    destruct (getAllConversations s); [|exact Hs].
    apply (untitled_startNewConversation h (p, s)). exact Hs.
  - apply Some_eq_inv in Hhandle. subst app'.
    apply (untitled_startNewConversation h (p, s)). exact Hs.
  - apply Some_eq_inv in Hhandle. subst app'. unfold Page.handleConversationSelect.
    destruct (getConversation id s); exact Hs.
  - apply Some_eq_inv in Hhandle. subst app'. unfold Sidebar.handleDeleteConversation.
    pose proof (untitled_deleteConversation id s Hs) as Hdel.
    destruct (Page.currentConversationId p) as [current|]; [|exact Hdel].
    destruct (String.eqb current id); [|exact Hdel].
    apply (untitled_startNewConversation h (p, deleteConversation id s)). exact Hdel.
  - apply Some_eq_inv in Hhandle. subst app'. unfold Page.handleSubmit.
    destruct (_ || _); [exact Hs|].
    destruct (Page.currentConversationId p) as [[|c0 conversationId]|];
      try (apply (untitled_startNewConversation hs (p, s)); exact Hs).
    destruct (Page.isImageMode p).
    + unfold Page.handleImageGeneration. destruct (String.eqb _ _); exact Hs.
    + cbn [fst snd]. apply untitled_addMessage. exact Hs.
  - unfold Page.handleSubmit_resumed, Page.submitFailed in Hhandle.
    destruct outcome as [message | ok upstreamStatus [|data]];
      repeat match type of Hhandle with
             | match ?x with _ => _ end = _ => destruct x
             end;
      try discriminate;
      apply Some_eq_inv in Hhandle; subst app'; cbn [snd];
      try exact Hs; apply untitled_addMessage; exact Hs.
  - unfold Page.handleImageGeneration_resumed, Page.imageFailed in Hhandle.
    destruct outcome as [message | ok upstreamStatus [|data]];
      repeat match type of Hhandle with
             | match ?x with _ => _ end = _ => destruct x
             end;
      try discriminate;
      apply Some_eq_inv in Hhandle; subst app'; cbn [snd];
      try exact Hs;
      repeat match goal with
             | |- untitled (match ?x with _ => _ end) => destruct x
             end;
      try exact Hs; apply untitled_addMessage; exact Hs.
  - apply Some_eq_inv in Hhandle. subst app'. exact Hs.
  - apply Some_eq_inv in Hhandle. subst app'. exact Hs.
  - apply Some_eq_inv in Hhandle. subst app'. exact Hs.
  - apply Some_eq_inv in Hhandle. subst app'. exact Hs.
  - apply Some_eq_inv in Hhandle. subst app'. exact Hs.
Qed.

(** X25.  The page never gives a conversation a title.  From a store in
    which every conversation has the title "New Conversation" and at
    least one message, the empty store in particular, whatever the user
    does (start, select and delete conversations, submit messages and
    image prompts, edit the fields) and however the requests are
    answered, every stored conversation keeps the title "New
    Conversation" and holds a message: [startNewConversation] stores the
    assistant's welcome as the first message of each conversation it
    creates, so that no user message is ever the first one. *)
Theorem page_never_titles_a_conversation (events : list event) :
  forall app app' : Page.App,
    untitled (snd app) ->
    handleAll events app = Some app' ->
    forall id c,
      getConversation id (snd app') = Some c ->
      Conversation.title c = "New Conversation" /\ Conversation.messages c <> [].
Proof.
  induction events as [|e events IH]; intros app app' Hs Hrun.
  - cbn [handleAll] in Hrun. apply Some_eq_inv in Hrun. subst app'. exact Hs.
  - cbn [handleAll] in Hrun.
    destruct (handle e app) as [app1|] eqn:Hhandle; [|discriminate].
    apply (IH app1 app'); [|exact Hrun].
    apply (untitled_handle e app app1); assumption.
Qed.

(** ** The messages a submission sends upstream *)

Lemma getContextMessages_ends_with_last (s : ConversationMemory) (id : string)
  (maxTokens : option Z) (c : Conversation.t) (front : list ConversationMessage.t)
  (x : ConversationMessage.t) :
  getConversation id s = Some c ->
  Conversation.messages c = (front ++ [x])%list ->
  exists earlier, getContextMessages id maxTokens s = (earlier ++ [x])%list.
Proof.
  unfold getConversation, getContextMessages. intros -> Hmessages.
  set (budget := match maxTokens with Some b => b | None => DEFAULT_MAX_TOKENS end).
  assert (Hw : withinBudget budget []) by (left; reflexivity).
  destruct (contextLoop_inv budget (rev (Conversation.messages c)) [] Hw)
    as (skipped & taken & Hsplit & Hres & _ & Hnonempty & _).
  rewrite rev_involutive in Hsplit. rewrite app_nil_r in *.
  cbn [totalEstimate fold_right] in Hres. rewrite Hres.
  assert (Htaken : taken <> []).
  { apply Hnonempty. rewrite Hmessages, rev_app_distr. discriminate. }
  destruct (exists_last Htaken) as (earlier & y & ->).
  exists earlier. rewrite Hmessages, app_assoc in Hsplit.
  apply app_inj_tail in Hsplit as [_ ->]. reflexivity.
Qed.

Lemma trim_empty : Page.trim "" = "".
Proof. reflexivity. Qed.

(** X26.  When [handleSubmit] sends a chat request, it has appended the
    user's message to the current conversation before taking the context
    window, and it sends the window together with the message; the chat
    route appends the message once more.  Every upstream call made for
    the request therefore ends with the user's message twice when the
    store holds the conversation; when it does not (the conversation was
    deleted or evicted), nothing was stored and the call carries the
    system prompt and the message only. *)
Theorem submitted_message_reaches_the_upstream_twice
  (hs : Page.StartHost) (h : Page.SubmitHost) (p : Page.State) (s : ConversationMemory)
  (app' : Page.App) (id : string) (request : ChatRoute.ChatRequest) :
  Page.handleSubmit hs h (p, s) = (app', Page.ChatPending id request) ->
  let sent := {| ChatRoute.role := "user"; ChatRoute.content := Page.input p |} in
  forall (env : ChatRoute.ChatEnv) (w : ChatRoute.ChatWorld) (call : ChatRoute.UpstreamCall),
    In call (fst (ChatRoute.POST env w (inr request))) ->
    match getConversation id s with
    | Some _ =>
        exists earlier,
          messagesOf call = (ChatRoute.systemPrompt :: earlier ++ [sent; sent])%list
    | None => messagesOf call = [ChatRoute.systemPrompt; sent]
    end.
Proof.
  intros Hsubmit sent env w call Hcall.
  unfold Page.handleSubmit in Hsubmit.
  destruct (String.eqb (Page.trim (Page.input p)) "" && negb (Page.isImageMode p)
            || Page.isLoading p) eqn:Hguard; [discriminate|].
  destruct (Page.currentConversationId p) as [[|c0 conversationId]|];
    try discriminate.
  destruct (Page.isImageMode p) eqn:Hmode.
  { unfold Page.handleImageGeneration in Hsubmit.
    destruct (String.eqb (Page.trim (Page.imagePrompt p)) ""); discriminate Hsubmit. }
  injection Hsubmit as _ <- <-.
  assert (Htext : Page.input p <> "").
  { intros Hempty. rewrite Hempty, trim_empty in Hguard. discriminate. }
  set (id := String c0 conversationId) in *.
  set (stored := {| MessageInput.content := Page.input p;
                    MessageInput.role := user;
                    MessageInput.model := None;
                    MessageInput.metadata := None |}) in *.
  set (s1 := addMessage (Page.userStored h) id stored s) in *.
  match type of Hcall with
  | In _ (fst (ChatRoute.POST _ _ (inr ?r))) => set (request := r) in *
  end.
  assert (Hmessages :
            messagesOf call =
            (ChatRoute.systemPrompt
               :: map Page.toChatMessage (getContextMessages id (Some 4000) s1)
               ++ [sent])%list).
  { assert (Hpast : ChatRoute.history (ChatRoute.messages request) =
                    Some (map Page.toChatMessage (getContextMessages id (Some 4000) s1))).
    { unfold request. cbn [ChatRoute.messages ChatRoute.history].
      rewrite <- (map_map Page.toChatMessage Some). apply mapped_all. }
    destruct (chat_POST_with_message env w request (Page.input p) eq_refl Htext)
      as [(Hnone & _)
         | [(c & past & Hcalls & _ & _ & Hpast' & _ & _ & Hm & _)
           | (c & past & Hcalls & _ & _ & Hpast' & _ & _ & Hm & _)]];
      cbv zeta in *.
    - rewrite Hnone in Hcall. contradiction.
    - rewrite Hcalls in Hcall. destruct Hcall as [<- | []].
      rewrite Hpast in Hpast'. injection Hpast' as <-. exact Hm.
    - rewrite Hcalls in Hcall. destruct Hcall as [<- | []].
      rewrite Hpast in Hpast'. injection Hpast' as <-. exact Hm. }
  rewrite Hmessages.
  destruct (getConversation id s) as [c|] eqn:Hget.
  - assert (Hget1 : getConversation id s1 =
                    Some (appendMessage (Page.userStored h) stored c)).
    { unfold getConversation, s1. apply addMessage_get. exact Hget. }
    destruct (slice_last_snoc MAX_MESSAGES_PER_CONVERSATION (Conversation.messages c)
                (storedMessage (Page.userStored h, stored))) as (front & Hfront);
      [unfold MAX_MESSAGES_PER_CONVERSATION; lia|].
    rewrite <- appendMessage_messages in Hfront.
    destruct (getContextMessages_ends_with_last s1 id (Some 4000) _ _ _ Hget1 Hfront)
      as (earlier & ->).
    exists (map Page.toChatMessage earlier).
    rewrite map_app, <- app_assoc. reflexivity.
  - rewrite getContextMessages_unknown; [reflexivity|].
    unfold s1, getConversation, addMessage.
    unfold getConversation in Hget. rewrite Hget. exact Hget.
Qed.

(** ** Answers to a chat request *)

(** X27.  When the answer to a chat request is handled, the page stops
    loading and shows one more message, from the assistant.  Either the
    request succeeded with a parsed body holding the reply, and that
    reply is what is shown and appended to the conversation the request
    was sent for; or the page shows its apology and sets an error, and
    the store is left exactly as it was: the apology is displayed but is
    not part of the stored conversation. *)
Theorem failed_chat_answer_is_shown_but_not_stored
  (h : Page.ReplyHost) (id : string) (outcome : ImageRoute.FetchOutcome)
  (p p' : Page.State) (s s' : ConversationMemory) :
  Page.handleSubmit_resumed h id outcome (p, s) = Some (p', s') ->
  Page.isLoading p' = false /\
  exists shown,
    Page.messages p' = (Page.messages p ++ [shown])%list /\
    ConversationMessage.role shown = assistant /\
    ((exists upstreamStatus data,
        outcome = ImageRoute.FetchResponse true upstreamStatus (Parsed data) /\
        ChatRoute.field "message" data =
          Some (JString (ConversationMessage.content shown)) /\
        s' = addMessage (Page.replyStored h) id
               {| MessageInput.content := ConversationMessage.content shown;
                  MessageInput.role := assistant;
                  MessageInput.model := ConversationMessage.model shown;
                  MessageInput.metadata := ConversationMessage.metadata shown |} s /\
        Page.error p' = Page.error p) \/
     (ConversationMessage.content shown = Page.APOLOGY /\
      s' = s /\
      Page.error p' <> None)).
Proof.
  intros Hresume.
  assert (Hfailed : forall text,
            Some (Page.submitFailed h text (p, s)) = Some (p', s') ->
            Page.isLoading p' = false /\
            exists shown,
              Page.messages p' = (Page.messages p ++ [shown])%list /\
              ConversationMessage.role shown = assistant /\
              ((exists upstreamStatus data,
                  outcome = ImageRoute.FetchResponse true upstreamStatus (Parsed data) /\
                  ChatRoute.field "message" data =
                    Some (JString (ConversationMessage.content shown)) /\
                  s' = addMessage (Page.replyStored h) id
                         {| MessageInput.content := ConversationMessage.content shown;
                            MessageInput.role := assistant;
                            MessageInput.model := ConversationMessage.model shown;
                            MessageInput.metadata :=
                              ConversationMessage.metadata shown |} s /\
                  Page.error p' = Page.error p) \/
               (ConversationMessage.content shown = Page.APOLOGY /\
                s' = s /\
                Page.error p' <> None))).
  { intros text [= <- <-]. split; [reflexivity|].
    eexists. split; [reflexivity|]. split; [reflexivity|].
    right. split; [reflexivity|]. split; [reflexivity | discriminate]. }
  unfold Page.handleSubmit_resumed in Hresume.
  destruct outcome as [message | ok upstreamStatus [|data]];
    [eapply Hfailed; exact Hresume
    |destruct ok; eapply Hfailed; exact Hresume
    |].
  destruct ok.
  - destruct data; try (eapply Hfailed; exact Hresume);
      destruct (ChatRoute.field "message" _) as [[]|] eqn:Hmessage; try discriminate;
      destruct (asOptionalString _) as [model| |]; try discriminate;
      injection Hresume as <- <-;
      (split; [reflexivity|]);
      eexists; (split; [reflexivity|]); (split; [reflexivity|]);
      left; do 2 eexists; (split; [reflexivity|]);
      (split; [exact Hmessage|]); split; reflexivity.
  - destruct data; try (eapply Hfailed; exact Hresume);
      destruct (ChatRoute.truthyField _) as [[]|]; try discriminate;
      eapply Hfailed; exact Hresume.
Qed.

(** ** The conversation opened when the page is mounted *)

Lemma getAllConversations_sorted_head (s : ConversationMemory) :
  (forall k c, In (k, c) (conversations s) -> Conversation.updatedAt c <> None) ->
  (conversations s = [] /\ getAllConversations s = []) \/
  (exists latest rest,
     getAllConversations s = latest :: rest /\
     In latest (Map.values (conversations s)) /\
     forall c, In c (Map.values (conversations s)) -> updatedNoEarlier latest c).
Proof.
  intros Hdates.
  assert (Hvalues : forall c, In c (Map.values (conversations s)) ->
                              Conversation.updatedAt c <> None).
  { intros c Hin. apply values_In in Hin as (k & Hin). exact (Hdates k c Hin). }
  pose proof (sort_perm compare_updatedAt_desc (Map.values (conversations s))) as Hperm.
  pose proof (sort_desc_sorted _ Hvalues) as Hsorted.
  unfold getAllConversations.
  destruct (sort compare_updatedAt_desc (Map.values (conversations s)))
    as [|latest rest] eqn:Hsort.
  - left. apply Permutation_sym, Permutation_nil in Hperm.
    split; [|reflexivity].
    destruct (conversations s); [reflexivity | discriminate].
  - right. exists latest, rest. split; [reflexivity|].
    assert (Hin : In latest (Map.values (conversations s))).
    { apply (Permutation_in _ (Permutation_sym Hperm)). left. reflexivity. }
    split; [exact Hin|].
    intros c Hc. apply (Permutation_in _ Hperm) in Hc.
    inversion Hsorted as [|? ? _ Hall]; subst.
    destruct Hc as [<- | Hc].
    + unfold updatedNoEarlier.
      destruct (Conversation.updatedAt latest) eqn:Hdate; [lia|].
      exact (Hvalues latest Hin Hdate).
    + rewrite Forall_forall in Hall. apply Hall. exact Hc.
Qed.

(** X28.  When the page is mounted on a store that holds conversations,
    all with a valid [updatedAt], it opens one that no other conversation
    was updated after: the page shows its messages, selects its model
    and takes its id as current.  The store is left as it is; in
    particular the store's own marker of the current conversation is not
    set to the conversation opened.  On an empty store the page starts a
    new conversation. *)
Theorem initConversation_opens_the_latest_conversation
  (h : Page.StartHost) (p : Page.State) (s : ConversationMemory) :
  (forall k c, In (k, c) (conversations s) -> Conversation.updatedAt c <> None) ->
  match conversations s with
  | [] => Page.initConversation h (p, s) = Page.startNewConversation h (p, s)
  | _ :: _ =>
      exists latest,
        In latest (Map.values (conversations s)) /\
        (forall c, In c (Map.values (conversations s)) -> updatedNoEarlier latest c) /\
        snd (Page.initConversation h (p, s)) = s /\
        Page.currentConversationId (fst (Page.initConversation h (p, s))) =
          Some (Conversation.id latest) /\
        Page.messages (fst (Page.initConversation h (p, s))) =
          Conversation.messages latest /\
        Page.selectedModel (fst (Page.initConversation h (p, s))) =
          Conversation.model latest
  end.
Proof.
  intros Hdates.
  destruct (getAllConversations_sorted_head s Hdates) as [Hempty | Hhead].
  - destruct Hempty as [Hnil Hall]. rewrite Hnil.
    unfold Page.initConversation. rewrite Hall. reflexivity.
  - destruct Hhead as (latest & rest & Hall & Hin & Hlatest).
    destruct (conversations s) as [|e m] eqn:Hconv.
    + contradiction.
    + exists latest. split; [exact Hin|]. split; [exact Hlatest|].
      unfold Page.initConversation. rewrite Hall. repeat split; reflexivity.
Qed.

(* ================================================================== *)
(** * Instances of the further properties *)

Lemma sampleTalk_reachable : reachable Iso.parse sampleTalk.
Proof.
  apply (performAll_reachable Iso.parse sampleOps emptyMemory);
    [apply emptyMemory_reachable | vm_compute; reflexivity].
Qed.

Lemma sampleFull_reachable : reachable Iso.parse sampleFull.
Proof.
  apply (performAll_reachable Iso.parse sampleCreations emptyMemory);
    [apply emptyMemory_reachable | vm_compute; reflexivity].
Qed.

Lemma sampleDated_dates (k : string) (c : Conversation.t) :
  In (k, c) (conversations sampleDated) -> Conversation.updatedAt c <> None.
Proof.
  intros [H | [H | [H | []]]]; injection H as _ <-; discriminate.
Qed.

(** The store after a conversation was created and two messages were
    appended. *)
Lemma conversations_are_stored_under_their_own_id_witness :
  reachable Iso.parse sampleTalk /\
  (forall id c, getConversation id sampleTalk = Some c -> Conversation.id c = id) /\
  List.length (getAllConversations sampleTalk) = 1%nat.
Proof.
  split; [exact sampleTalk_reachable|].
  destruct (conversations_are_stored_under_their_own_id Iso.parse sampleTalk
              sampleTalk_reachable) as (_ & Hid & _ & Hlength).
  split; [exact Hid|]. rewrite Hlength. vm_compute. reflexivity.
Defined.

(** Of three conversations updated at instants 30, 10 and 30, the two
    updated at 30 are listed first, in their insertion order. *)
Lemma getAllConversations_most_recent_first_witness :
  (forall k c, In (k, c) (conversations sampleDated) ->
     Conversation.updatedAt c <> None) /\
  StronglySorted updatedNoEarlier (getAllConversations sampleDated) /\
  map Conversation.id (getAllConversations sampleDated) = ["c0"; "c2"; "c1"].
Proof.
  split; [exact sampleDated_dates|].
  split; [|vm_compute; reflexivity].
  exact (proj1 (proj2 (getAllConversations_most_recent_first sampleDated
                         sampleDated_dates))).
Defined.

Lemma deleteConversation_removes_that_conversation_only_witness :
  reachable Iso.parse sampleTalk /\
  getConversation "conv_1704067200000_k3x9q2m1z" sampleTalk <> None /\
  getConversation "conv_1704067200000_k3x9q2m1z"
    (deleteConversation "conv_1704067200000_k3x9q2m1z" sampleTalk) = None.
Proof.
  split; [exact sampleTalk_reachable|].
  split; [vm_compute; discriminate|].
  exact (proj1 (deleteConversation_removes_that_conversation_only Iso.parse
                  "conv_1704067200000_k3x9q2m1z" sampleTalk sampleTalk_reachable)).
Defined.

Lemma sampleFull_dates (t : Z) (id k : string) (c : Conversation.t) :
  49 < t ->
  In (k, c) (conversations sampleFull) -> k <> id ->
  exists u, Conversation.updatedAt c = Some u /\ u < t.
Proof.
  intros Ht Hin _. unfold sampleFull in Hin. cbn [conversations] in Hin.
  apply in_map_iff in Hin as (n & Heq & Hn).
  apply in_seq in Hn. injection Heq as _ <-.
  exists (Z.of_nat n). split; [reflexivity | lia].
Qed.

(** In the store fifty creations leave, a message appended at instant
    1000 to the conversation created eighth puts it first. *)
Lemma addMessage_moves_conversation_to_front_witness :
  let h := hostAt 1000 "x" in
  let message := MessageInput.mk "Hello" user None None in
  reachable Iso.parse sampleFull /\
  getConversation "conv_7_r" sampleFull = Some (freshConversation (hostAt 7 "r") "m") /\
  (forall k c0, In (k, c0) (conversations sampleFull) -> k <> "conv_7_r" ->
     exists u, Conversation.updatedAt c0 = Some u /\ u < newDate2 h) /\
  option_map Conversation.id
    (hd_error (getAllConversations (addMessage h "conv_7_r" message sampleFull))) =
  Some "conv_7_r".
Proof.
  cbv zeta.
  assert (Hget : getConversation "conv_7_r" sampleFull =
                 Some (freshConversation (hostAt 7 "r") "m")) by reflexivity.
  assert (Hothers : forall k c0, In (k, c0) (conversations sampleFull) ->
            k <> "conv_7_r" ->
            exists u, Conversation.updatedAt c0 = Some u /\ u < newDate2 (hostAt 1000 "x")).
  { intros k c0. apply sampleFull_dates. cbn. lia. }
  split; [exact sampleFull_reachable|]. split; [exact Hget|]. split; [exact Hothers|].
  rewrite (addMessage_moves_conversation_to_front Iso.parse (hostAt 1000 "x") "conv_7_r"
             (MessageInput.mk "Hello" user None None) sampleFull _
             sampleFull_reachable Hget Hothers).
  reflexivity.
Defined.

(** A creation on the store fifty creations leave keeps fifty
    conversations. *)
Lemma createConversation_removes_at_most_one_witness :
  let h := hostAt 1000 "k3x9q2m1z" in
  reachable Iso.parse sampleFull /\
  getConversation (fst (createConversation h "m" sampleFull)) sampleFull = None /\
  (50 <= Map.size (conversations sampleFull))%nat /\
  Map.size (conversations (snd (createConversation h "m" sampleFull))) = 50%nat.
Proof.
  cbv zeta.
  assert (Hfresh : getConversation
                     (fst (createConversation (hostAt 1000 "k3x9q2m1z") "m" sampleFull))
                     sampleFull = None) by (vm_compute; reflexivity).
  assert (Hsize : (50 <= Map.size (conversations sampleFull))%nat)
    by (vm_compute; lia).
  split; [exact sampleFull_reachable|]. split; [exact Hfresh|]. split; [exact Hsize|].
  destruct (createConversation_removes_at_most_one Iso.parse
              (hostAt 1000 "k3x9q2m1z") "m" sampleFull sampleFull_reachable Hfresh)
    as (_ & _ & Hfull).
  rewrite (Hfull Hsize). reflexivity.
Defined.

(** Budgets 4 and 100 on a conversation of five messages. *)
Lemma getContextMessages_grows_with_budget_witness :
  4 <= 100 /\
  exists extra,
    getContextMessages "c0" (Some 100) (sampleMemory 1 5 0) =
    (extra ++ getContextMessages "c0" (Some 4) (sampleMemory 1 5 0))%list.
Proof.
  split; [lia|].
  apply (getContextMessages_grows_with_budget (sampleMemory 1 5 0) "c0" 4 100). lia.
Defined.

(** Of two elements with the id "c1", the one that comes last in the
    snapshot is the one stored. *)
Lemma importConversations_keeps_last_of_each_id_witness :
  exists s' data cs,
    importConversations Iso.parse sampleRepeated (sampleMemory 3 0 0) = Some (true, s') /\
    sampleRepeated = Parsed (JArray data) /\
    mapM (reviveConversation Iso.parse) data = Ok cs /\
    (forall id, getConversation id s' = lastWithId id cs) /\
    (Map.size (conversations s') <= List.length data)%nat.
Proof.
  destruct (importConversations Iso.parse sampleRepeated (sampleMemory 3 0 0))
    as [[[|] s']|] eqn:Himport; try (vm_compute in Himport; discriminate).
  destruct (importConversations_keeps_last_of_each_id Iso.parse _ _ _ Himport)
    as (data & cs & Hdata & Hcs & Hlookup & Hsize).
  exists s', data, cs. repeat split; assumption.
Defined.

Lemma saved_store_is_loaded_back_witness :
  reachable Iso.parse sampleTalk /\
  exists s',
    loadFromStorage Iso.parse (Some (saveToStorage Iso.toISOString sampleTalk))
      emptyMemory = Some s' /\
    getCurrentConversationId sampleTalk = Some "conv_1704067200000_k3x9q2m1z" /\
    getCurrentConversationId s' = None.
Proof.
  split; [exact sampleTalk_reachable|].
  destruct (saved_store_is_loaded_back Iso.parse Iso.toISOString sampleTalk
              sampleTalk_reachable) as (s' & Hload & _ & Hmarker & _).
  exists s'. split; [exact Hload|]. split; [vm_compute; reflexivity | exact Hmarker].
Defined.

(** A stored array whose second element is [null]: the first element is
    loaded and the third is not. *)
Lemma loadFromStorage_keeps_what_precedes_a_failure_witness :
  let good := [conversationToJSON Iso.toISOString (sampleConversation 0 1 1704067200000)] in
  let rest := [conversationToJSON Iso.toISOString (sampleConversation 1 1 1704067200000)] in
  let restored := fst (restoreAll Iso.parse good Map.clear) in
  restoreAll Iso.parse good Map.clear = (restored, Ok tt) /\
  reviveConversation Iso.parse JNull = Throw /\
  loadFromStorage Iso.parse (Some (Parsed (JArray (good ++ JNull :: rest)%list)))
    emptyMemory =
    Some {| conversations := restored; currentConversationId := None |} /\
  Map.keys restored = ["c0"].
Proof.
  cbv zeta.
  assert (Hgood : restoreAll Iso.parse
            [conversationToJSON Iso.toISOString (sampleConversation 0 1 1704067200000)]
            Map.clear =
          (fst (restoreAll Iso.parse
                  [conversationToJSON Iso.toISOString
                     (sampleConversation 0 1 1704067200000)] Map.clear), Ok tt))
    by (vm_compute; reflexivity).
  split; [exact Hgood|]. split; [reflexivity|].
  split; [|vm_compute; reflexivity].
  exact (proj1 (loadFromStorage_keeps_what_precedes_a_failure Iso.parse _ JNull
                  [conversationToJSON Iso.toISOString
                     (sampleConversation 1 1 1704067200000)] _ Hgood eq_refl)).
Defined.

(** A prompt of two ideographs, a space and a word: each ideograph is
    written as three bytes. *)
Lemma placeholder_text_is_encoded_and_bounded_witness :
  let prompt := [20013; 25991; 32; 99; 97; 116] in
  forallb JsString.isUnit prompt = true /\
  JsString.isWellFormed (ImageRoute.truncatedPrompt prompt) = true /\
  ImageRoute.generateAdvancedPlaceholder sampleNumberText sampleLowerCase
    (ImageRoute.PromptText prompt) (JString "512x512") =
    Some "/placeholder.svg?height=512&width=512&text=%E4%B8%AD%E6%96%87%20cat&category=animal&color=orange" /\
  exists height width text category color,
    ImageRoute.generateAdvancedPlaceholder sampleNumberText sampleLowerCase
      (ImageRoute.PromptText prompt) (JString "512x512") =
      Some ("/placeholder.svg?height=" ++ height ++ "&width=" ++ width
            ++ "&text=" ++ text ++ "&category=" ++ category ++ "&color=" ++ color) /\
    Forall encoded (chars text) /\
    (String.length text <= 903)%nat.
Proof.
  cbv zeta. split; [reflexivity|]. split; [reflexivity|].
  split; [vm_compute; reflexivity|].
  destruct (placeholder_text_is_encoded_and_bounded sampleNumberText sampleLowerCase
              [20013; 25991; 32; 99; 97; 116] "512x512" eq_refl) as [_ Hbuilt].
  destruct (Hbuilt eq_refl)
    as (height & width & text & category & color & Hurl & Hencoded & _ & Hlength & _).
  exists height, width, text, category, color.
  split; [exact Hurl|]. split; [exact Hencoded | exact Hlength].
Defined.

(** An upstream that delivers one image: its url is what the response
    carries. *)
Lemma image_upstream_images_are_passed_on_witness :
  let env := sampleEnv ["sk-or-1"] in
  let w := sampleWorld sampleDelivered in
  let p := ImageRoute.PromptText (JsString.ofString "a cat on a mat") in
  let req := ImageRoute.mkRequestBody (Some p) None ImageRoute.Absent in
  ImageRoute.prompt req = Some p /\
  ImageRoute.truthyPrompt p = true /\
  ImageRoute.OPENROUTER_API_KEYS env <> [] /\
  ImageRoute.options req <> ImageRoute.Null /\
  exists call,
    fst (ImageRoute.POST sampleNumberText sampleLowerCase env w (inr req)) = [call] /\
    ImageRoute.upModel call = "black-forest-labs/flux-schnell" /\
    ~ ImageRoute.upstreamFails (ImageRoute.fetch w call) /\
    ImageRoute.metadataFallback
      (snd (ImageRoute.POST sampleNumberText sampleLowerCase env w (inr req)))
      <> Some true.
Proof.
  cbv zeta.
  assert (Hkeys : ImageRoute.OPENROUTER_API_KEYS (sampleEnv ["sk-or-1"]) <> [])
    by discriminate.
  split; [reflexivity|]. split; [reflexivity|]. split; [exact Hkeys|].
  split; [discriminate|].
  destruct (image_upstream_images_are_passed_on sampleNumberText sampleLowerCase
              (sampleEnv ["sk-or-1"]) (sampleWorld sampleDelivered)
              (ImageRoute.mkRequestBody
                 (Some (ImageRoute.PromptText (JsString.ofString "a cat on a mat")))
                 None ImageRoute.Absent)
              (ImageRoute.PromptText (JsString.ofString "a cat on a mat"))
              eq_refl eq_refl Hkeys)
    as [_ Hcall].
  destruct Hcall as (call & Hcalls & _ & Hmodel & _ & Hfallback & _); [discriminate|].
  exists call. split; [exact Hcalls|]. split; [exact Hmodel|].
  assert (Hfine : ~ ImageRoute.upstreamFails
                      (ImageRoute.fetch (sampleWorld sampleDelivered) call)).
  { rewrite upstreamFails_items. cbn [sampleWorld ImageRoute.fetch]. discriminate. }
  split; [exact Hfine|].
  intros H. apply Hfine. apply Hfallback. exact H.
Defined.

(** A Groq model without the Groq key, OpenRouter keys being
    configured: no call is made. *)
Lemma chat_POST_needs_the_credential_of_its_provider_witness :
  let env := ChatRoute.mkChatEnv None (sampleEnv ["sk-or-1"]) in
  let req := sampleChatRequest "gemma2-9b-it" in
  ChatRoute.message req = Some "Hi" /\
  "Hi" <> "" /\
  fst (ChatRoute.POST env sampleLimited (inr req)) = [] /\
  ChatRoute.status (snd (ChatRoute.POST env sampleLimited (inr req))) = 500 /\
  ChatRoute.body (snd (ChatRoute.POST env sampleLimited (inr req))) =
    ChatRoute.Failed "Failed to generate response" (Some "Groq API key not configured").
Proof.
  cbv zeta.
  assert (Htext : "Hi" <> "") by discriminate.
  split; [reflexivity|]. split; [exact Htext|].
  destruct (chat_POST_needs_the_credential_of_its_provider
              (ChatRoute.mkChatEnv None (sampleEnv ["sk-or-1"])) sampleLimited
              (sampleChatRequest "gemma2-9b-it") "Hi" eq_refl Htext)
    as (Hnone & Hstatus & Hnamed & _).
  assert (Hmissing :
            ChatRoute.isGroqModel "gemma2-9b-it" = true /\
            (@None string = None \/ @None string = Some ""))
    by (split; [reflexivity | left; reflexivity]).
  assert (Hcalls : fst (ChatRoute.POST (ChatRoute.mkChatEnv None (sampleEnv ["sk-or-1"]))
                          sampleLimited (inr (sampleChatRequest "gemma2-9b-it"))) = []).
  { apply Hnone. right. left. left. exact Hmissing. }
  split; [exact Hcalls|]. split; [exact (Hstatus Hcalls)|].
  apply Hnamed; [discriminate|]. left. exact Hmissing.
Defined.

(** OpenRouter answers 429 with an explanation: the client gets 500 and
    the explanation. *)
Lemma chat_POST_reports_the_upstream_error_witness :
  let env := ChatRoute.mkChatEnv None (sampleEnv ["sk-or-1"]) in
  let req := sampleChatRequest "openai/gpt-4o" in
  ChatRoute.message req = Some "Hi" /\
  "Hi" <> "" /\
  fst (ChatRoute.POST env sampleLimited (inr req)) =
    [ChatRoute.ToOpenRouter sampleOpenRouterCall] /\
  ChatRoute.status (snd (ChatRoute.POST env sampleLimited (inr req))) = 500 /\
  ChatRoute.body (snd (ChatRoute.POST env sampleLimited (inr req))) =
    ChatRoute.Failed "Failed to generate response" (Some "Rate limit exceeded").
Proof.
  cbv zeta.
  assert (Htext : "Hi" <> "") by discriminate.
  assert (Hcalls : fst (ChatRoute.POST (ChatRoute.mkChatEnv None (sampleEnv ["sk-or-1"]))
                          sampleLimited (inr (sampleChatRequest "openai/gpt-4o"))) =
                   [ChatRoute.ToOpenRouter sampleOpenRouterCall]) by reflexivity.
  split; [reflexivity|]. split; [exact Htext|]. split; [exact Hcalls|].
  destruct (chat_POST_reports_the_upstream_error
              (ChatRoute.mkChatEnv None (sampleEnv ["sk-or-1"])) sampleLimited
              (sampleChatRequest "openai/gpt-4o") "Hi" sampleOpenRouterCall 429 _
              eq_refl Htext Hcalls eq_refl) as (Hstatus & Hexplained & _).
  split; [exact Hstatus|].
  apply (Hexplained _ _ "Rate limit exceeded" eq_refl eq_refl eq_refl). discriminate.
Defined.

(** A recording sent for translation with language "auto": the call
    goes to the translation endpoint and carries no language. *)
Lemma audio_POST_forwards_the_form_witness :
  let env := AudioRoute.mkAudioEnv (Some "gsk") in
  AudioRoute.GROQ_API_KEY env = Some "gsk" /\
  "gsk" <> "" /\
  AudioRoute.file sampleForm = Some (AudioRoute.mkFile "memo.webm" "audio/webm" "RIFF") /\
  exists call optional,
    fst (AudioRoute.POST env sampleAudioLimited (inr sampleForm)) = [call] /\
    AudioRoute.endpoint call = AudioRoute.TRANSLATIONS /\
    AudioRoute.form call =
      (("file", AudioRoute.FileEntry (AudioRoute.mkFile "memo.webm" "audio/webm" "RIFF"))
       :: ("model", AudioRoute.TextEntry "whisper-large-v3") :: optional)%list /\
    ~ In ("language", AudioRoute.TextEntry "auto") optional.
Proof.
  cbv zeta.
  assert (Hkey : "gsk" <> "") by discriminate.
  split; [reflexivity|]. split; [exact Hkey|]. split; [reflexivity|].
  destruct (audio_POST_forwards_the_form (AudioRoute.mkAudioEnv (Some "gsk"))
              sampleAudioLimited sampleForm "gsk" _ eq_refl Hkey eq_refl)
    as (call & optional & Hcalls & _ & Hendpoint & _ & Hform & _ & Hlanguage & _).
  exists call, optional. split; [exact Hcalls|].
  split; [apply Hendpoint; reflexivity|]. split; [exact Hform|].
  intros Hin. apply Hlanguage in Hin as (_ & _ & Hauto). apply Hauto. reflexivity.
Defined.

(** Groq answers 429: so does the handler. *)
Lemma audio_POST_passes_the_upstream_status_on_witness :
  let env := AudioRoute.mkAudioEnv (Some "gsk") in
  (forall call ok upstreamStatus responseBody,
     AudioRoute.fetch sampleAudioLimited call =
       ImageRoute.FetchResponse ok upstreamStatus responseBody ->
     ok = (200 <=? upstreamStatus) && (upstreamStatus <=? 299)) /\
  fst (AudioRoute.POST env sampleAudioLimited (inr sampleForm)) = [sampleAudioCall] /\
  AudioRoute.status (snd (AudioRoute.POST env sampleAudioLimited (inr sampleForm))) = 429.
Proof.
  cbv zeta.
  assert (Hok : forall call ok upstreamStatus responseBody,
            AudioRoute.fetch sampleAudioLimited call =
              ImageRoute.FetchResponse ok upstreamStatus responseBody ->
            ok = (200 <=? upstreamStatus) && (upstreamStatus <=? 299)).
  { intros call ok upstreamStatus responseBody H. cbn in H.
    injection H as <- <- _. reflexivity. }
  assert (Hcalls : fst (AudioRoute.POST (AudioRoute.mkAudioEnv (Some "gsk"))
                          sampleAudioLimited (inr sampleForm)) = [sampleAudioCall])
    by reflexivity.
  split; [exact Hok|]. split; [exact Hcalls|].
  destruct (audio_POST_passes_the_upstream_status_on (AudioRoute.mkAudioEnv (Some "gsk"))
              sampleAudioLimited (inr sampleForm) Hok) as (_ & _ & _ & Hstatus).
  apply (Hstatus sampleAudioCall 429 _ Hcalls eq_refl); [discriminate | reflexivity].
Defined.

Lemma untitled_emptyMemory : untitled emptyMemory.
Proof. intros id c H. discriminate H. Qed.

(** A session on an empty store: the conversation the page created holds
    the welcome, the user's message and the reply, and is still called
    "New Conversation". *)
Lemma page_never_titles_a_conversation_witness :
  untitled (snd (Page.initialState, emptyMemory)) /\
  exists app' c,
    handleAll sampleSession (Page.initialState, emptyMemory) = Some app' /\
    getConversation "conv_1704067200000_k3x9q2m1z" (snd app') = Some c /\
    map ConversationMessage.role (Conversation.messages c) = [assistant; user; assistant] /\
    Conversation.title c = "New Conversation".
Proof.
  split; [exact untitled_emptyMemory|].
  destruct (handleAll sampleSession (Page.initialState, emptyMemory)) as [app'|] eqn:Hrun;
    [|vm_compute in Hrun; discriminate].
  destruct (getConversation "conv_1704067200000_k3x9q2m1z" (snd app')) as [c|] eqn:Hget.
  - exists app', c. split; [reflexivity|]. split; [exact Hget|].
    split.
    + pose proof Hrun as Hvalue. vm_compute in Hvalue.
      apply Some_eq_inv in Hvalue. subst app'.
      vm_compute in Hget. apply Some_eq_inv in Hget. subst c. reflexivity.
    + exact (proj1 (page_never_titles_a_conversation sampleSession
                      (Page.initialState, emptyMemory) app' untitled_emptyMemory Hrun
                      _ c Hget)).
  - exfalso. vm_compute in Hrun. apply Some_eq_inv in Hrun. subst app'.
    vm_compute in Hget. discriminate.
Defined.

(** A message submitted in a stored conversation: every upstream call
    for it ends with the message twice. *)
Lemma submitted_message_reaches_the_upstream_twice_witness :
  let sent := {| ChatRoute.role := "user"; ChatRoute.content := "And then?" |} in
  exists app' request,
    Page.handleSubmit (sampleStart 40) (sampleSubmit 40) (sampleTyped, sampleDated) =
      (app', Page.ChatPending "c0" request) /\
    forall env w call,
      In call (fst (ChatRoute.POST env w (inr request))) ->
      exists earlier,
        messagesOf call = (ChatRoute.systemPrompt :: earlier ++ [sent; sent])%list.
Proof.
  cbv zeta.
  destruct (Page.handleSubmit (sampleStart 40) (sampleSubmit 40) (sampleTyped, sampleDated))
    as [app' pending] eqn:Hsubmit.
  assert (Hpending : exists request, pending = Page.ChatPending "c0" request).
  { pose proof (f_equal snd Hsubmit) as H. cbn [snd] in H. rewrite <- H.
    eexists. reflexivity. }
  destruct Hpending as (request & ->).
  exists app', request. split; [reflexivity|].
  intros env w call Hcall.
  exact (submitted_message_reaches_the_upstream_twice (sampleStart 40) (sampleSubmit 40)
           sampleTyped sampleDated app' "c0" request Hsubmit env w call Hcall).
Defined.

(** The request fails in transit: the apology is shown, the store is
    untouched. *)
Lemma failed_chat_answer_is_shown_but_not_stored_witness :
  let app' := Page.submitFailed (sampleReply 50) (Page.Text "Failed to fetch")
                (sampleTyped, sampleDated) in
  Page.handleSubmit_resumed (sampleReply 50) "c0" (ImageRoute.FetchThrows "Failed to fetch")
    (sampleTyped, sampleDated) = Some (fst app', snd app') /\
  Page.isLoading (fst app') = false /\
  snd app' = sampleDated /\
  exists shown,
    Page.messages (fst app') = (Page.messages sampleTyped ++ [shown])%list /\
    ConversationMessage.content shown = Page.APOLOGY.
Proof.
  cbv zeta.
  assert (Hresume :
            Page.handleSubmit_resumed (sampleReply 50) "c0"
              (ImageRoute.FetchThrows "Failed to fetch") (sampleTyped, sampleDated) =
            Some (fst (Page.submitFailed (sampleReply 50) (Page.Text "Failed to fetch")
                         (sampleTyped, sampleDated)),
                  snd (Page.submitFailed (sampleReply 50) (Page.Text "Failed to fetch")
                         (sampleTyped, sampleDated)))) by reflexivity.
  split; [exact Hresume|].
  destruct (failed_chat_answer_is_shown_but_not_stored _ _ _ _ _ _ _ Hresume)
    as (Hloading & shown & Hshown & _ & _).
  split; [exact Hloading|]. split; [reflexivity|].
  exists shown. split; [exact Hshown|].
  cbn in Hshown. injection Hshown as <-. reflexivity.
Defined.

(** The page mounted on three conversations opens one of the two updated
    last, the first inserted, and leaves the store's marker unset. *)
Lemma initConversation_opens_the_latest_conversation_witness :
  let app' := Page.initConversation (sampleStart 40) (Page.initialState, sampleDated) in
  (forall k c, In (k, c) (conversations sampleDated) ->
     Conversation.updatedAt c <> None) /\
  (exists latest,
     In latest (Map.values (conversations sampleDated)) /\
     (forall c, In c (Map.values (conversations sampleDated)) ->
        updatedNoEarlier latest c) /\
     Page.currentConversationId (fst app') = Some (Conversation.id latest)) /\
  Page.currentConversationId (fst app') = Some "c0" /\
  getCurrentConversationId (snd app') = None.
Proof.
  cbv zeta. split; [exact sampleDated_dates|].
  split; [|split; reflexivity].
  destruct (initConversation_opens_the_latest_conversation (sampleStart 40)
              Page.initialState sampleDated sampleDated_dates)
    as (latest & Hin & Hlatest & _ & Hcurrent & _).
  exists latest. repeat split; assumption.
Defined.
